(** * Withdrawal handler of the Acre Ledger application

    A shallow embedding of [src/handler/withdraw.c].  The handler rebuilds a
    Safe-style withdrawal from 64-byte authenticated chunks streamed by the
    host, shows amount and redeemer address to the user, derives the EIP-712
    hash of the transaction and answers with a 65-byte compact signature.

    Layout of the development:
    - bytes, C integers and fixed-size arrays;
    - the collaborators of the handler (SDK, host, user interface) as a record;
    - the monad in which the C functions run (a log of what the handler does
      to the outside world);
    - the C functions, in the order of the source file;
    - the properties. *)

From Stdlib Require Import ZArith Lia Bool String List.
From Stdlib Require Import Strings.Byte.
Import ListNotations.
Open Scope Z_scope.

(** ** Bytes and C integers *)

Definition b2z (b : byte) : Z := Z.of_N (Byte.to_N b).

(** Conversion of a C integer to [uint8_t]: reduction modulo 256. *)
Definition z2b (z : Z) : byte :=
  match Byte.of_N (Z.to_N (z mod 256)) with
  | Some b => b
  | None => x00
  end.

Definition NUL : byte := x00.

Definition c_str (s : string) : list byte := list_byte_of_string s.

Fixpoint bytes_eqb (a b : list byte) : bool :=
  match a, b with
  | [], [] => true
  | x :: a', y :: b' => Byte.eqb x y && bytes_eqb a' b'
  | _, _ => false
  end.

(** ** Arrays

    A C array is a map from indices to bytes: the array does not know its
    length, reads and writes name the range they touch.  A local array that
    the C code has not initialised is an arbitrary such map. *)

Definition buffer := Z -> byte.

Definition of_list (l : list byte) : buffer :=
  fun i => if i <? 0 then x00 else nth (Z.to_nat i) l x00.

(** [read b off len]: the bytes [b[off]], ..., [b[off+len-1]]. *)
Definition read (b : buffer) (off : Z) (len : nat) : list byte :=
  map (fun k => b (off + Z.of_nat k)) (seq 0 len).

(** [write b off data]: [memcpy (b + off, data, length data)]. *)
Definition write (b : buffer) (off : Z) (data : list byte) : buffer :=
  fun i =>
    if (off <=? i) && (i <? off + Z.of_nat (length data))
    then nth (Z.to_nat (i - off)) data x00
    else b i.

(** [memset (b, 0, n)] *)
Definition zeroed : buffer := fun _ => x00.

(** [b + off] as a pointer into the same array. *)
Definition shift (b : buffer) (off : Z) : buffer := fun i => b (off + i).

(** The C string that starts at [b[off]], read in an array of [fuel] bytes. *)
Fixpoint cstring (b : buffer) (off : Z) (fuel : nat) : list byte :=
  match fuel with
  | O => []
  | S fuel' =>
      if Byte.eqb (b off) NUL then [] else b off :: cstring b (off + 1) fuel'
  end.

(** [read_u16_be] and [read_u64_be] of [common/read.h]: big-endian loads. *)
Definition be_value (l : list byte) : Z :=
  fold_left (fun acc x => acc * 256 + b2z x) l 0.

Definition read_u16_be (b : buffer) (off : Z) : Z := be_value (read b off 2).
Definition read_u64_be (b : buffer) (off : Z) : Z := be_value (read b off 8).

(** ** Constants of the source file *)

Definition DATA_CHUNK_INDEX_1 : Z := 5.
Definition DATA_CHUNK_INDEX_2 : Z := 10.
Definition CHUNK_SIZE_IN_BYTES : Z := 64.
Definition ADDRESS_SIZE_IN_BYTES : Z := 20.
Definition AMOUNT_SIZE_IN_CHARS : Z := 50.
Definition CHUNK_SECOND_PART : Z := 32.
Definition KECCAK_256_HASH_SIZE : Z := 32.
Definition FIELD_SIZE : Z := 32.
Definition MAX_TICKER_LEN : Z := 5.

Definition BSM_SIGN_MAGIC : list byte :=
  x18 :: c_str "Bitcoin Signed Message:" ++ [x0a].

Inductive coin_variant := COIN_VARIANT_ACRE | COIN_VARIANT_ACRE_TESTNET.

Definition abi_encoded_chain_id (v : coin_variant) : list byte :=
  match v with
  | COIN_VARIANT_ACRE =>
      [x00; x00; x00; x00; x00; x00; x00; x00; x00; x00; x00; x00; x00; x00; x00; x00;
       x00; x00; x00; x00; x00; x00; x00; x00; x00; x00; x00; x00; x00; x00; x00; x01]
  | COIN_VARIANT_ACRE_TESTNET =>
      [x00; x00; x00; x00; x00; x00; x00; x00; x00; x00; x00; x00; x00; x00; x00; x00;
       x00; x00; x00; x00; x00; x00; x00; x00; x00; x00; x00; x00; x00; xaa; x36; xa7]
  end.

(** The chain identifiers named by the comments next to the two tables. *)
Definition chain_id (v : coin_variant) : Z :=
  match v with
  | COIN_VARIANT_ACRE => 1
  | COIN_VARIANT_ACRE_TESTNET => 11155111
  end.

Definition domain_separator_typehash : list byte :=
  [x47; xe7; x95; x34; xa2; x45; x95; x2e; x8b; x16; x89; x3a; x33; x6b; x85; xa3;
   xd9; xea; x9f; xa8; xc5; x73; xf3; xd8; x03; xaf; xb9; x2a; x79; x46; x92; x18].

Definition safe_tx_typehash : list byte :=
  [xbb; x83; x10; xd4; x86; x36; x8d; xb6; xbd; x6f; x84; x94; x02; xfd; xd7; x3a;
   xd5; x3d; x31; x6b; x5a; x4b; x26; x44; xad; x6e; xfe; x0f; x94; x12; x86; xd8].

(** ** Status words and the log of a request *)

Inductive status_word :=
| SW_OK | SW_WRONG_DATA_LENGTH | SW_INCORRECT_DATA | SW_DENY | SW_BAD_STATE.

(** What a run of the handler does to its collaborators, in order. *)
Inductive event :=
| SendSW (sw : status_word)
    (** [SEND_SW] and [SAFE_SEND_SW] on a non-null context *)
| SendResponse (data : list byte) (sw : status_word)
    (** [SEND_RESPONSE] *)
| UiPostProcessing (success : bool)
    (** [ui_post_processing_confirm_withdraw] *)
| UiPreProcessing
    (** [ui_pre_processing_message] *)
| UiResetStreamingIndex
    (** [reset_streaming_index] *)
| UiValidate (value_with_ticker redeemer_address : list byte)
    (** [ui_validate_withdraw_data_and_confirm] *)
| GetScriptType (script_len : Z)
    (** [get_script_type], with the length it is given *)
| GetScriptAddress (script_len : Z)
    (** [get_script_address], with the length it is given *)
| Sign (bip32_path : list Z) (digest : list byte).
    (** [crypto_ecdsa_sign_sha256_hash_with_key] *)

(** ** The monad of the handler: a log that only grows *)

Definition M (A : Type) : Type := list event -> A * list event.

Definition ret {A} (a : A) : M A := fun log => (a, log).

Definition bind {A B} (m : M A) (k : A -> M B) : M B :=
  fun log => let (a, log') := m log in k a log'.

Definition emit (e : event) : M unit := fun log => (tt, log ++ [e]).

Declare Scope handler_scope.
Delimit Scope handler_scope with handler.
Notation "x <- m ;; k" := (bind m (fun x => k))
  (at level 61, m at next level, right associativity) : handler_scope.
Notation "m ;;; k" := (bind m (fun _ => k))
  (at level 61, right associativity) : handler_scope.
Open Scope handler_scope.

(** The events a computation adds to an empty log. *)
Definition events {A} (m : M A) : list event := snd (m []).
Definition returned {A} (m : M A) : A := fst (m []).

(** ** Collaborators

    Everything the handler reaches outside [withdraw.c]: the SDK, the
    authenticated-chunk client, the script and address helpers, the user.
    A request is played against one value of this record. *)

Record platform := {
  (** width of [size_t] in bits *)
  size_t_bits : N;
  (** [HAVE_AUTOAPPROVE_FOR_PERF_TESTS] *)
  autoapprove : bool;
  (** [COIN_VARIANT] *)
  coin : coin_variant;
  MAX_BIP32_PATH_STEPS : Z;
  MAX_ADDRESS_LENGTH_STR : Z;
  CX_ECCINFO_PARITY_ODD : Z;
  (** one-shot value of the incremental Keccak-256 and SHA-256 of the SDK *)
  keccak256 : list byte -> list byte;
  sha256 : list byte -> list byte;
  (** the bytes [crypto_hash_update_varint] feeds to the hash *)
  varint : Z -> list byte;
  (** request parsing: value read and rest of the read buffer *)
  buffer_read_u8 : list byte -> option (Z * list byte);
  buffer_read_bip32_path : list byte -> Z -> option (list Z * list byte);
  buffer_read_varint : list byte -> option (Z * list byte);
  buffer_read_bytes : list byte -> nat -> option (list byte * list byte);
  (** [call_get_merkle_leaf_element root n_chunks index]: the returned
      [int] and the 64-byte output array as the call leaves it *)
  call_get_merkle_leaf_element : list byte -> Z -> Z -> Z * buffer;
  (** [get_script_type script script_len] *)
  get_script_type : buffer -> Z -> Z;
  (** [get_script_address script script_len]: returned [int] and the C
      string left in the output array *)
  get_script_address : buffer -> Z -> Z * list byte;
  crypto_get_compressed_pubkey_at_path : list Z -> Z -> option (list byte);
  get_address_from_compressed_public_key : Z -> list byte -> option (list byte);
  (** the decision of the user *)
  ui_validate_withdraw_data_and_confirm : list byte -> list byte -> bool;
  (** [format_hex]: returned [int] and the C string left in the output *)
  format_hex : list byte -> Z * list byte;
  (** [crypto_ecdsa_sign_sha256_hash_with_key path path_len digest]: the
      returned [int], the signature array and [info] as the call leaves them *)
  crypto_ecdsa_sign_sha256_hash_with_key :
    list Z -> Z -> list byte -> Z * buffer * Z;
  (** content of local arrays before the code writes them *)
  stack_value_with_ticker : buffer;
  stack_abi_encoded_tx_fields : buffer;
  stack_tx_hash : list byte
}.

(** [size_t] arithmetic wraps modulo [SIZE_MAX + 1]. *)
Definition SIZE_MAX (P : platform) : Z := 2 ^ Z.of_N (size_t_bits P) - 1.
Definition to_size_t (P : platform) (z : Z) : Z := z mod (SIZE_MAX P + 1).

Definition to_uint8 (z : Z) : Z := z mod 256.
Definition to_uint32 (z : Z) : Z := z mod 2 ^ 32.

(** ** Amount rendering *)

Definition digit (d : Z) : byte := z2b (48 + d).

(** Modelled from the spec: the decimal digits that [format_fpu64] lays out
    ([common/format.c] is not among the sources).  Digits of [n], most
    significant first; twenty rounds are enough for an unsigned 64-bit
    value. *)
Fixpoint format_u64_digits (fuel : nat) (n : Z) (acc : list byte) : list byte :=
  match fuel with
  | O => acc
  | S fuel' =>
      let acc' := digit (n mod 10) :: acc in
      if n / 10 =? 0 then acc' else format_u64_digits fuel' (n / 10) acc'
  end.

(** Modelled from the spec: [format_fpu64] of [common/format.c], which is not
    among the sources.  It renders the full fixed-point decimal string of
    [value] with [decimals] fractional digits: the integer part without
    leading zeros (a single [0] when it is zero), a decimal point, then
    exactly [decimals] digits.  It fails when the text and its terminator do
    not fit in [dst_len] bytes. *)
Definition format_fpu64 (dst_len : Z) (value : Z) (decimals : nat)
  : option (list byte) :=
  let buffer := format_u64_digits 20 value [] in
  let digits := length buffer in
  let text :=
    if (digits <=? decimals)%nat
    then c_str "0." ++ repeat "0"%byte (decimals - digits) ++ buffer
    else firstn (digits - decimals) buffer ++ c_str "."
         ++ skipn (digits - decimals) buffer in
  if dst_len <=? Z.of_nat (length text) then None else Some text.

(** [snprintf (dst, size, "stBTC %s", value)]: the text, cut to [size - 1]
    characters, and its terminator; the bytes of [dst] behind the terminator
    stay as they were. *)
Definition snprintf_stBTC (dst : buffer) (size : Z) (value : list byte) : buffer :=
  write dst 0 (firstn (Z.to_nat (size - 1)) (c_str "stBTC " ++ value) ++ [NUL]).

Definition is_trimmed (c : byte) : bool :=
  Byte.eqb c "0"%byte || Byte.eqb c NUL || Byte.eqb c "."%byte.

(** The [while] loop of lines 194-200, started at index [i]: the index it
    stops at. *)
Fixpoint trim_scan (value_with_ticker : buffer) (i : nat) : nat :=
  match i with
  | O => O
  | S j =>
      if is_trimmed (value_with_ticker (Z.of_nat i))
      then trim_scan value_with_ticker j
      else i
  end.

Definition sizeof_value_with_ticker : Z :=
  AMOUNT_SIZE_IN_CHARS + 1 + MAX_TICKER_LEN + 1.

(** Lines 191-203: the trailing-zero trim. *)
Definition trim_value_with_ticker (value_with_ticker : buffer) : buffer :=
  let value_with_ticker_len := sizeof_value_with_ticker - 1 in
  let i := Z.of_nat (trim_scan value_with_ticker (Z.to_nat value_with_ticker_len)) in
  if i <? value_with_ticker_len
  then write value_with_ticker (i + 1) [NUL]
  else value_with_ticker.

(** ** The functions of [withdraw.c]

    The functions take the platform they run on.  Pointer arguments are never
    null: [handler_withdraw] is entered with a dispatcher context and hands
    its callees that context and the addresses of its own local arrays, so
    the null-pointer branches at the head of the callees are not taken.  Out
    parameters are returned. *)

Section Withdraw.

Variable P : platform.

(** Lines 178-203 of [display_data_content_and_confirm]: the amount as the
    confirmation screen gets it, [None] when [format_fpu64] fails. *)
Definition format_value_with_ticker (value_u64 : Z) : option buffer :=
  match format_fpu64 (AMOUNT_SIZE_IN_CHARS + 1) value_u64 18 with
  | None => None
  | Some value =>
      Some (trim_value_with_ticker
              (snprintf_stBTC (stack_value_with_ticker P)
                              sizeof_value_with_ticker value))
  end.

(** The C string handed to the confirmation screen. *)
Definition shown (value_with_ticker : buffer) : list byte :=
  cstring value_with_ticker 0 (Z.to_nat sizeof_value_with_ticker).

(** [check_address].  Its pointer arguments are local arrays of the caller,
    never null. *)
Definition check_address (bip32_path : list Z) (bip32_path_len : Z)
    (address_to_check : list byte) (address_to_check_len : Z)
    (address_type : Z) : bool :=
  if address_to_check_len >? MAX_ADDRESS_LENGTH_STR P then false
  else if address_to_check_len <? 1 then false
  else
    match crypto_get_compressed_pubkey_at_path P bip32_path bip32_path_len with
    | None => false
    | Some compressed_public_key =>
        match get_address_from_compressed_public_key P address_type
                compressed_public_key with
        | None => false
        | Some address_recovered =>
            bytes_eqb address_recovered address_to_check
        end
    end.

(** The length handed to the script helpers: [len_redeemer_output_script - 1]
    in [size_t] (lines 213-227). *)
Definition redeemer_script_len (data_chunk : buffer) : Z :=
  let offset_length := 30 in
  let len_redeemer_output_script := to_size_t P (read_u16_be data_chunk offset_length) in
  let len_redeemer_output_script :=
    if len_redeemer_output_script >? 32 then 32 else len_redeemer_output_script in
  to_size_t P (len_redeemer_output_script - 1).

(** [display_data_content_and_confirm].  Both retrievals go unchecked, as in
    the source: the array is read as the call left it. *)
Definition display_data_content_and_confirm (data_merkle_root : list byte)
    (n_chunks : Z) (bip32_path : list Z) (bip32_path_len : Z) : M bool :=
  emit UiResetStreamingIndex ;;;
  let data_chunk :=
    snd (call_get_merkle_leaf_element P data_merkle_root n_chunks DATA_CHUNK_INDEX_1) in
  let offset_value := CHUNK_SECOND_PART + 24 in
  let value_u64 := read_u64_be data_chunk offset_value in
  match format_value_with_ticker value_u64 with
  | None => ret false
  | Some value_with_ticker =>
      let data_chunk :=
        snd (call_get_merkle_leaf_element P data_merkle_root n_chunks DATA_CHUNK_INDEX_2) in
      let offset_output_script := CHUNK_SECOND_PART + 1 in
      let script := shift data_chunk offset_output_script in
      emit (GetScriptType (redeemer_script_len data_chunk)) ;;;
      let address_type := get_script_type P script (redeemer_script_len data_chunk) in
      emit (GetScriptAddress (redeemer_script_len data_chunk)) ;;;
      let '(redeemer_address_len, redeemer_address) :=
        get_script_address P script (redeemer_script_len data_chunk) in
      if (address_type =? -1) || (redeemer_address_len =? -1) then
        emit (SendSW SW_INCORRECT_DATA) ;;;
        emit (UiPostProcessing false) ;;;
        ret false
      else if negb (check_address bip32_path bip32_path_len redeemer_address
                      (to_uint8 redeemer_address_len) (to_uint8 address_type)) then
        emit (SendSW SW_INCORRECT_DATA) ;;;
        emit (UiPostProcessing false) ;;;
        ret false
      else
        emit (UiValidate (shown value_with_ticker) redeemer_address) ;;;
        ret (ui_validate_withdraw_data_and_confirm P (shown value_with_ticker)
               redeemer_address)
  end.

(** ** Streaming hash engine *)

(** The incremental hasher [cx_sha3_t], seen through what it has absorbed:
    [cx_keccak_init_no_throw] empties it, [cx_hash_no_throw] without
    [CX_LAST] appends its input, and with [CX_LAST] it yields the Keccak-256
    of everything absorbed.  The SDK calls succeed on these arguments, so
    [CX_THROW] never fires. *)
Definition cx_sha3_t := list byte.

Definition cx_keccak_init_no_throw : cx_sha3_t := [].

Definition cx_hash_update (hash_context : cx_sha3_t) (input : list byte)
  : cx_sha3_t := hash_context ++ input.

Definition cx_hash_last (hash_context : cx_sha3_t) (input : list byte)
  : list byte := keccak256 P (hash_context ++ input).

(** [add_leading_zeroes] on non-null arrays. *)
Definition add_leading_zeroes (dest_buffer : buffer) (dest_size : Z)
    (src_buffer : buffer) (src_size : Z) : buffer :=
  if dest_size <? src_size then dest_buffer
  else
    let dest_buffer := write dest_buffer 0 (repeat x00 (Z.to_nat dest_size)) in
    let buffer_offset := dest_size - src_size in
    write dest_buffer buffer_offset (read src_buffer 0 (Z.to_nat src_size)).

(** [fetch_and_add_chunk_to_hash]: the hasher after the call. *)
Definition fetch_and_add_chunk_to_hash (data_merkle_root : list byte)
    (n_chunks : Z) (hash_context : cx_sha3_t)
    (chunk_index chunk_offset chunk_data_size : Z) : M cx_sha3_t :=
  let '(current_chunk_len, data_chunk) :=
    call_get_merkle_leaf_element P data_merkle_root n_chunks chunk_index in
  if current_chunk_len <? 0 then
    emit (SendSW SW_WRONG_DATA_LENGTH) ;;;
    emit (UiPostProcessing false) ;;;
    ret hash_context
  else
    let field_buffer := read data_chunk chunk_offset (Z.to_nat chunk_data_size) in
    ret (cx_hash_update hash_context field_buffer).

(** [fetch_and_add_chunk_to_buffer]: the output array after the call.
    [input_buffer] is written over its whole read range on both branches,
    its content before that does not matter. *)
Definition fetch_and_add_chunk_to_buffer (data_merkle_root : list byte)
    (n_chunks : Z) (chunk_index chunk_offset chunk_data_size : Z)
    (output_buffer : buffer) (output_buffer_offset : Z) : M buffer :=
  let '(current_chunk_len, data_chunk) :=
    call_get_merkle_leaf_element P data_merkle_root n_chunks chunk_index in
  if current_chunk_len <? 0 then
    emit (SendSW SW_WRONG_DATA_LENGTH) ;;;
    emit (UiPostProcessing false) ;;;
    ret output_buffer
  else
    let input_buffer := zeroed in
    let '(input_buffer_size, input_buffer) :=
      if chunk_data_size <? 32
      then (32, add_leading_zeroes input_buffer 32
                  (shift data_chunk chunk_offset) chunk_data_size)
      else (chunk_data_size,
            write input_buffer 0
              (read data_chunk chunk_offset (Z.to_nat chunk_data_size))) in
    ret (write output_buffer output_buffer_offset
           (read input_buffer 0 (Z.to_nat input_buffer_size))).

(** The [for] loop of [fetch_and_hash_tx_data]: [count] rounds from index [i]. *)
Fixpoint hash_tx_data_loop (data_merkle_root : list byte) (n_chunks : Z)
    (count : nat) (i : Z) (hash_context : cx_sha3_t) : M cx_sha3_t :=
  match count with
  | O => ret hash_context
  | S count' =>
      hash_context <- fetch_and_add_chunk_to_hash data_merkle_root n_chunks
                        hash_context i 0 32 ;;
      hash_context <- fetch_and_add_chunk_to_hash data_merkle_root n_chunks
                        hash_context i 32 32 ;;
      hash_tx_data_loop data_merkle_root n_chunks count' (i + 1) hash_context
  end.

(** [fetch_and_hash_tx_data]: the 32-byte output. *)
Definition fetch_and_hash_tx_data (data_merkle_root : list byte)
    (n_chunks : Z) (hash_context : cx_sha3_t) : M (list byte) :=
  hash_context <- fetch_and_add_chunk_to_hash data_merkle_root n_chunks
                    hash_context 4 0 4 ;;
  hash_context <- hash_tx_data_loop data_merkle_root n_chunks
                    (Z.to_nat (n_chunks - 5)) 5 hash_context ;;
  ret (cx_hash_last hash_context []).

(** [fetch_and_abi_encode_tx_fields]: the returned [bool] and the output
    array. *)
Definition fetch_and_abi_encode_tx_fields (data_merkle_root : list byte)
    (n_chunks : Z) (keccak_of_tx_data : list byte) (output_buffer : buffer)
    (output_buffer_size : Z) : M (bool * buffer) :=
  let required_size := FIELD_SIZE * 11 in
  if output_buffer_size <? required_size then
    emit (SendSW SW_WRONG_DATA_LENGTH) ;;;
    ret (false, output_buffer)
  else
    let fetch := fetch_and_add_chunk_to_buffer data_merkle_root n_chunks in
    let offset := 0 in
    let output_buffer := write output_buffer offset (firstn 32 safe_tx_typehash) in
    let offset := offset + FIELD_SIZE in
    output_buffer <- fetch 0 0 ADDRESS_SIZE_IN_BYTES output_buffer offset ;;
    let offset := offset + FIELD_SIZE in
    output_buffer <- fetch 1 0 32 output_buffer offset ;;
    let offset := offset + FIELD_SIZE in
    let output_buffer := write output_buffer offset (firstn 32 keccak_of_tx_data) in
    let offset := offset + FIELD_SIZE in
    output_buffer <- fetch 3 0 1 output_buffer offset ;;
    let offset := offset + FIELD_SIZE in
    output_buffer <- fetch 1 32 32 output_buffer offset ;;
    let offset := offset + FIELD_SIZE in
    output_buffer <- fetch 2 1 32 output_buffer offset ;;
    let offset := offset + FIELD_SIZE in
    output_buffer <- fetch 2 32 32 output_buffer offset ;;
    let offset := offset + FIELD_SIZE in
    output_buffer <- fetch 0 20 20 output_buffer offset ;;
    let offset := offset + FIELD_SIZE in
    output_buffer <- fetch 0 40 20 output_buffer offset ;;
    let offset := offset + FIELD_SIZE in
    output_buffer <- fetch 3 0 32 output_buffer offset ;;
    ret (true, output_buffer).

(** [compute_domain_separator_hash]: the 32-byte output. *)
Definition compute_domain_separator_hash (data_merkle_root : list byte)
    (n_chunks : Z) : M (list byte) :=
  let hash_context := cx_keccak_init_no_throw in
  let hash_context := cx_hash_update hash_context domain_separator_typehash in
  let hash_context := cx_hash_update hash_context (abi_encoded_chain_id (coin P)) in
  hash_context <- fetch_and_add_chunk_to_hash data_merkle_root n_chunks
                    hash_context 7 0 32 ;;
  ret (cx_hash_last hash_context []).

(** Lines 611-619 of [compute_tx_hash]: the hash of the encoded fields. *)
Definition hash_abi_encoded_tx_fields (abi_encoded_tx_fields : buffer)
  : list byte :=
  let hash_context := cx_keccak_init_no_throw in
  cx_hash_last hash_context
    (read abi_encoded_tx_fields 0 (Z.to_nat (FIELD_SIZE * 11))).

(** Lines 623-631 of [compute_tx_hash]: the packed message that is hashed
    last. *)
Definition abi_encode_packed (domain_separator_hash
    keccak_of_abi_encoded_tx_fields : list byte) : list byte :=
  [x19; x01]
  ++ firstn (Z.to_nat KECCAK_256_HASH_SIZE) domain_separator_hash
  ++ firstn (Z.to_nat KECCAK_256_HASH_SIZE) keccak_of_abi_encoded_tx_fields.

(** [compute_tx_hash]; [output_buffer] comes back untouched when the
    encoding step reports a failure. *)
Definition compute_tx_hash (data_merkle_root : list byte) (n_chunks : Z)
    (output_buffer : list byte) : M (list byte) :=
  let hash_context := cx_keccak_init_no_throw in
  keccak_of_tx_data <- fetch_and_hash_tx_data data_merkle_root n_chunks
                         hash_context ;;
  encoded <- fetch_and_abi_encode_tx_fields data_merkle_root n_chunks
               keccak_of_tx_data (stack_abi_encoded_tx_fields P)
               (FIELD_SIZE * 11) ;;
  let '(ok, abi_encoded_tx_fields) := encoded in
  if negb ok then ret output_buffer
  else
    let keccak_of_abi_encoded_tx_fields :=
      hash_abi_encoded_tx_fields abi_encoded_tx_fields in
    domain_separator_hash <- compute_domain_separator_hash data_merkle_root
                               n_chunks ;;
    let hash_context := cx_keccak_init_no_throw in
    ret (cx_hash_last hash_context
           (abi_encode_packed domain_separator_hash
              keccak_of_abi_encoded_tx_fields)).

(** ** Signer and encoder *)

(** Lines 663-674 of [sign_tx_hash]: the message-signing digest of the C
    string [tx_hash], a double SHA-256. *)
Definition bsm_digest_of (tx_hash : list byte) : list byte :=
  let tx_hash_length := Z.of_nat (length tx_hash) in
  let bsm_digest_context :=
    BSM_SIGN_MAGIC ++ varint P tx_hash_length ++ tx_hash in
  let bsm_digest := sha256 P bsm_digest_context in
  sha256 P (firstn 32 bsm_digest).

(** [sign_tx_hash]: the returned [uint32_t] and the signature array. *)
Definition sign_tx_hash (bip32_path : list Z) (bip32_path_len : Z)
    (tx_hash : list byte) : M (Z * buffer) :=
  let bsm_digest := bsm_digest_of tx_hash in
  (if autoapprove P then ret tt else emit UiPreProcessing) ;;;
  emit (Sign bip32_path bsm_digest) ;;;
  let '(sig_len, sig, info) :=
    crypto_ecdsa_sign_sha256_hash_with_key P bip32_path bip32_path_len
      bsm_digest in
  if sig_len <? 0 then
    emit (SendSW SW_BAD_STATE) ;;;
    emit (UiPostProcessing false) ;;;
    ret (to_uint32 (-1), sig)
  else ret (to_uint32 info, sig).

(** [for (int i = n - 1; i >= 0; --i) dst[dst_off + i] = src[src_off + i];] *)
Fixpoint copy_down (dst : buffer) (dst_off : Z) (src : buffer) (src_off : Z)
    (n : nat) : buffer :=
  match n with
  | O => dst
  | S i =>
      copy_down (write dst (dst_off + Z.of_nat i) [src (src_off + Z.of_nat i)])
        dst_off src src_off i
  end.

(** Lines 795-827 of [handler_withdraw]: the DER signature turned into the
    65-byte answer. *)
Definition respond_with_signature (sig : buffer) (info : Z) : M unit :=
  let result := zeroed in
  let r_length := b2z (sig 3) in
  let s_length := b2z (sig (4 + r_length + 1)) in
  if (r_length >? 33) || (s_length >? 33) then
    emit (SendSW SW_BAD_STATE) ;;;
    emit (UiPostProcessing false)
  else
    let result :=
      copy_down result (1 + 32 + 32 - s_length) sig (4 + r_length + 2)
        (Z.to_nat s_length) in
    let result :=
      copy_down result (1 + 32 - r_length) sig 4 (Z.to_nat r_length) in
    let result :=
      write result 0
        [z2b (27 + 4 + (if Z.land info (CX_ECCINFO_PARITY_ODD P) =? 0
                        then 0 else 1))] in
    emit (SendResponse (read result 0 65) SW_OK) ;;;
    emit (UiPostProcessing true).

(** ** Request orchestrator *)

(** The four reads of lines 739-742, [None] as soon as one fails. *)
Definition read_request (read_buffer : list byte)
  : option (Z * list Z * Z * list byte) :=
  match buffer_read_u8 P read_buffer with
  | None => None
  | Some (bip32_path_len, read_buffer) =>
  match buffer_read_bip32_path P read_buffer bip32_path_len with
  | None => None
  | Some (bip32_path, read_buffer) =>
  match buffer_read_varint P read_buffer with
  | None => None
  | Some (n_chunks, read_buffer) =>
  match buffer_read_bytes P read_buffer 32 with
  | None => None
  | Some (data_merkle_root, _) =>
      Some (bip32_path_len, bip32_path, n_chunks, data_merkle_root)
  end end end end.

(** [handler_withdraw] on a non-null dispatcher context whose read buffer
    holds [read_buffer].  [n_chunks] is a [uint64_t] handed to functions
    that take a [size_t].  The text [path_str] that the source formats from
    the path is not used afterwards and is left out. *)
Definition handler_withdraw (read_buffer : list byte) : M unit :=
  match read_request read_buffer with
  | None =>
      emit (SendSW SW_WRONG_DATA_LENGTH) ;;;
      emit (UiPostProcessing false)
  | Some (bip32_path_len, bip32_path, n_chunks, data_merkle_root) =>
      if bip32_path_len >? MAX_BIP32_PATH_STEPS P then
        emit (SendSW SW_INCORRECT_DATA) ;;;
        emit (UiPostProcessing false)
      else
        confirmed <-
          (if autoapprove P then ret true
           else display_data_content_and_confirm data_merkle_root
                  (to_size_t P n_chunks) bip32_path bip32_path_len) ;;
        if negb confirmed then
          emit (SendSW SW_DENY) ;;;
          emit (UiPostProcessing false)
        else
          tx_hash <- compute_tx_hash data_merkle_root (to_size_t P n_chunks)
                       (stack_tx_hash P) ;;
          let '(written, tx_hash_str) := format_hex P tx_hash in
          if written =? 0 then
            emit (SendSW SW_BAD_STATE) ;;;
            emit (UiPostProcessing false)
          else
            signed <- sign_tx_hash bip32_path bip32_path_len tx_hash_str ;;
            let '(info, sig) := signed in
            respond_with_signature sig info
  end.

End Withdraw.

(** ** A concrete platform

    A small collaborator set on which the definitions run: it serves as the
    concrete input of the examples below.  The hash functions are stand-ins
    with 32-byte outputs, the host serves [n_chunks] chunks, byte [i] of
    chunk [index] being [16 * index + i] modulo 256, except for the chunks
    named by [missing], whose retrieval fails. *)
Module Demo.

Definition pad32 (m : list byte) : list byte := firstn 32 (m ++ repeat x00 32).

Definition chunk (index : Z) : buffer := fun i => z2b (16 * index + i).

Definition leaf (missing : Z -> bool) (root : list byte) (n_chunks index : Z)
  : Z * buffer :=
  if missing index || (n_chunks <=? index) then (-1, zeroed)
  else (64, chunk index).

(** A DER signature with 32-byte [r] (bytes [0x11]) and [s] (bytes [0x22]). *)
Definition der_signature : list byte :=
  [x30; x44; x02; x20] ++ repeat x11 32 ++ [x02; x20] ++ repeat x22 32.

Definition signer (fails : bool) (path : list Z) (path_len : Z)
    (digest : list byte) : Z * buffer * Z :=
  if fails then (-1, zeroed, 0)
  else (Z.of_nat (length der_signature), of_list der_signature, 0).

Definition read_u8 (rb : list byte) : option (Z * list byte) :=
  match rb with
  | [] => None
  | b :: rest => Some (b2z b, rest)
  end.

Fixpoint read_path (rb : list byte) (n : nat) : option (list Z * list byte) :=
  match n with
  | O => Some ([], rb)
  | S n' =>
      match rb with
      | a :: b :: c :: d :: rest =>
          match read_path rest n' with
          | Some (path, rest') => Some (be_value [a; b; c; d] :: path, rest')
          | None => None
          end
      | _ => None
      end
  end.

(** Lower-case hexadecimal text of a byte string. *)
Definition nibble (n : Z) : byte := z2b (if n <? 10 then 48 + n else 87 + n).

Definition hex (l : list byte) : list byte :=
  flat_map (fun b => [nibble (b2z b / 16); nibble (b2z b mod 16)]) l.

Definition read_bytes (rb : list byte) (n : nat)
  : option (list byte * list byte) :=
  if (n <=? length rb)%nat then Some (firstn n rb, skipn n rb) else None.

Definition platform_with (missing : Z -> bool) (signer_fails confirms : bool)
  : platform := {|
  size_t_bits := 32;
  autoapprove := false;
  coin := COIN_VARIANT_ACRE;
  MAX_BIP32_PATH_STEPS := 10;
  MAX_ADDRESS_LENGTH_STR := 74;
  CX_ECCINFO_PARITY_ODD := 1;
  keccak256 := pad32;
  sha256 := pad32;
  varint := fun n => [z2b n];
  buffer_read_u8 := read_u8;
  buffer_read_bip32_path := fun rb n => read_path rb (Z.to_nat n);
  buffer_read_varint := read_u8;
  buffer_read_bytes := read_bytes;
  call_get_merkle_leaf_element := leaf missing;
  get_script_type := fun _ _ => 3;
  get_script_address := fun _ _ => (4, c_str "bc1q");
  crypto_get_compressed_pubkey_at_path := fun _ _ => Some (repeat x02 33);
  get_address_from_compressed_public_key := fun _ _ => Some (c_str "bc1q");
  ui_validate_withdraw_data_and_confirm := fun _ _ => confirms;
  format_hex := fun h => (2 * Z.of_nat (length h) + 1, hex h);
  crypto_ecdsa_sign_sha256_hash_with_key := signer signer_fails;
  stack_value_with_ticker := zeroed;
  stack_abi_encoded_tx_fields := zeroed;
  stack_tx_hash := repeat x00 32
|}.

(** The platform whose user confirms. *)
Definition platform_of (missing : Z -> bool) (signer_fails : bool) : platform :=
  platform_with missing signer_fails true.

(** Path of length zero, twelve chunks, a root of 32 bytes [0xab]. *)
Definition request : list byte := [x00; x0c] ++ repeat xab 32.

Definition none_missing (index : Z) : bool := false.
Definition only (i index : Z) : bool := index =? i.

End Demo.

(** ** Vocabulary of the properties *)

(** A computation of the handler only appends to the log; its value does not
    depend on what the log already holds. *)
Definition appends {A} (m : M A) : Prop :=
  forall log, m log = (returned m, log ++ events m).

(** Retrieval of chunk [index] succeeds, and what it delivers. *)
Definition retrieved (P : platform) (root : list byte) (n_chunks index : Z) : Prop :=
  0 <= fst (call_get_merkle_leaf_element P root n_chunks index).

Definition chunk_of (P : platform) (root : list byte) (n_chunks index : Z) : buffer :=
  snd (call_get_merkle_leaf_element P root n_chunks index).

(** The hashes of one request, read off the functions that compute them. *)
Definition payload_hash (P : platform) (root : list byte) (n_chunks : Z) : list byte :=
  returned (fetch_and_hash_tx_data P root n_chunks cx_keccak_init_no_throw).

Definition encoded_tx_fields (P : platform) (root : list byte) (n_chunks : Z) : buffer :=
  snd (returned (fetch_and_abi_encode_tx_fields P root n_chunks
                 (payload_hash P root n_chunks)
                 (stack_abi_encoded_tx_fields P) (FIELD_SIZE * 11))).

Definition struct_hash (P : platform) (root : list byte) (n_chunks : Z) : list byte :=
  hash_abi_encoded_tx_fields P (encoded_tx_fields P root n_chunks).

Definition domain_separator_hash (P : platform) (root : list byte) (n_chunks : Z)
  : list byte :=
  returned (compute_domain_separator_hash P root n_chunks).

Definition tx_hash (P : platform) (root : list byte) (n_chunks : Z) : list byte :=
  returned (compute_tx_hash P root n_chunks (stack_tx_hash P)).

(** The chunk indices of the payload loop: [5], ..., [n_chunks - 1]. *)
Definition payload_indices (n_chunks : Z) : list Z :=
  map (fun k => 5 + Z.of_nat k) (seq 0 (Z.to_nat (n_chunks - 5))).

(** ABI word of a field: zero bytes on the left up to 32 bytes. *)
Definition left_pad32 (field : list byte) : list byte :=
  repeat x00 (32 - length field) ++ field.

(** A DER integer of at most 33 bytes as the 32-byte half of the answer: a
    33-byte integer loses its first byte, a shorter one is right-aligned. *)
Definition right_align32 (component : list byte) : list byte :=
  if (length component =? 33)%nat then tl component
  else left_pad32 component.

Definition der_r (sig : buffer) : list byte :=
  read sig 4 (Z.to_nat (b2z (sig 3))).

Definition der_s (sig : buffer) : list byte :=
  let r_length := b2z (sig 3) in
  read sig (4 + r_length + 2) (Z.to_nat (b2z (sig (4 + r_length + 1)))).

(** The answers and the signing requests in a log. *)
Definition is_reply (e : event) : bool :=
  match e with
  | SendSW _ | SendResponse _ _ | Sign _ _ => true
  | _ => false
  end.

Definition replies (log : list event) : list event := filter is_reply log.

(** What the payload hash absorbs when every retrieval succeeds. *)
Definition payload_message (P : platform) (root : list byte) (n_chunks : Z)
  : list byte :=
  read (chunk_of P root n_chunks 4) 0 4
  ++ flat_map (fun i => read (chunk_of P root n_chunks i) 0 32
                        ++ read (chunk_of P root n_chunks i) 32 32)
       (payload_indices n_chunks).

(** The eleven ABI words of the transaction struct. *)
Definition tx_fields_layout (P : platform) (root : list byte) (n_chunks : Z)
  : list byte :=
  let chunk := chunk_of P root n_chunks in
  safe_tx_typehash
  ++ left_pad32 (read (chunk 0) 0 20)
  ++ read (chunk 1) 0 32
  ++ payload_hash P root n_chunks
  ++ left_pad32 (read (chunk 3) 0 1)
  ++ read (chunk 1) 32 32
  ++ read (chunk 2) 1 32
  ++ read (chunk 2) 32 32
  ++ left_pad32 (read (chunk 0) 20 20)
  ++ left_pad32 (read (chunk 0) 40 20)
  ++ read (chunk 3) 0 32.

(** Byte 0 of the answer (line 821). *)
Definition recovery_byte (P : platform) (info : Z) : byte :=
  z2b (27 + 4 + (if Z.land info (CX_ECCINFO_PARITY_ODD P) =? 0 then 0 else 1)).

(** The number a string of decimal digits denotes. *)
Definition decimal_value (digits : list byte) : Z :=
  fold_left (fun acc c => acc * 10 + (b2z c - 48)) digits 0.

(** An ASCII decimal digit. *)
Definition is_digit (c : byte) : bool := (48 <=? b2z c) && (b2z c <=? 57).

(** The concrete request of the examples. *)
Definition demo_root : list byte := repeat xab 32.
Definition demo_platform : platform := Demo.platform_of Demo.none_missing false.

(** ** Vocabulary of the further properties *)

(** The test the fetch helpers make on the returned length. *)
Definition retrieved_b (P : platform) (root : list byte) (n_chunks index : Z) : bool :=
  negb (fst (call_get_merkle_leaf_element P root n_chunks index) <? 0).

(** The bytes a fetch contributes to a hash: nothing when retrieval fails. *)
Definition piece (P : platform) (root : list byte) (n_chunks index off : Z)
    (len : nat) : list byte :=
  if retrieved_b P root n_chunks index
  then read (chunk_of P root n_chunks index) off len
  else [].

(** What a fetch adds to the log: nothing, or the report of its failure. *)
Definition notice (P : platform) (root : list byte) (n_chunks index : Z)
  : list event :=
  if retrieved_b P root n_chunks index then []
  else [SendSW SW_WRONG_DATA_LENGTH; UiPostProcessing false].

(** The chunk indices [compute_tx_hash] fetches, in the order of the calls:
    the payload pass, the nine fields, the verifying contract. *)
Definition fetch_order (n_chunks : Z) : list Z :=
  4 :: flat_map (fun i => [i; i]) (payload_indices n_chunks)
  ++ [0; 1; 3; 1; 2; 2; 0; 0; 3] ++ [7].

(** A 32-byte slot of the encoded fields: the encoded word when its chunk is
    retrieved, else what the array held there before. *)
Definition slot (P : platform) (root : list byte) (n_chunks index offset : Z)
    (word : list byte) : list byte :=
  if retrieved_b P root n_chunks index then word
  else read (stack_abi_encoded_tx_fields P) offset 32.

(** A run of [memcpy]s of 32-byte words into an array, each at a word index
    and each carried out or not. *)
Fixpoint apply_writes (b : buffer) (ws : list (bool * Z * list byte)) : buffer :=
  match ws with
  | [] => b
  | (c, k, d) :: rest =>
      apply_writes (if c then write b (32 * k) d else b) rest
  end.

(** The redeemer script of a request as [display_data_content_and_confirm]
    hands it to the script helpers, and what they answer. *)
Definition script_of (P : platform) (root : list byte) (n_chunks : Z) : buffer :=
  shift (chunk_of P root n_chunks DATA_CHUNK_INDEX_2) (CHUNK_SECOND_PART + 1).

Definition script_len_of (P : platform) (root : list byte) (n_chunks : Z) : Z :=
  redeemer_script_len P (chunk_of P root n_chunks DATA_CHUNK_INDEX_2).

Definition script_type_of (P : platform) (root : list byte) (n_chunks : Z) : Z :=
  get_script_type P (script_of P root n_chunks) (script_len_of P root n_chunks).

Definition script_address_of (P : platform) (root : list byte) (n_chunks : Z)
  : Z * list byte :=
  get_script_address P (script_of P root n_chunks) (script_len_of P root n_chunks).

(** The two tests of lines 231-249: the helpers decoded the script and the
    address belongs to the path. *)
Definition address_accepted (P : platform) (root : list byte) (n_chunks : Z)
    (path : list Z) (path_len : Z) : bool :=
  negb ((script_type_of P root n_chunks =? -1)
        || (fst (script_address_of P root n_chunks) =? -1))
  && check_address P path path_len (snd (script_address_of P root n_chunks))
       (to_uint8 (fst (script_address_of P root n_chunks)))
       (to_uint8 (script_type_of P root n_chunks)).

(** The amount text of a request, empty when [format_fpu64] fails. *)
Definition amount_text (P : platform) (root : list byte) (n_chunks : Z) : list byte :=
  match format_value_with_ticker P
          (read_u64_be (chunk_of P root n_chunks DATA_CHUNK_INDEX_1)
             (CHUNK_SECOND_PART + 24)) with
  | Some value_with_ticker => shown value_with_ticker
  | None => []
  end.

(** The confirmation step of the handler. *)
Definition confirmation (P : platform) (root : list byte) (n_chunks : Z)
    (path : list Z) (path_len : Z) : M bool :=
  if autoapprove P then ret true
  else display_data_content_and_confirm P root (to_size_t P n_chunks) path path_len.

(** Kinds of events. *)
Definition is_sign (e : event) : bool :=
  match e with Sign _ _ => true | _ => false end.

Definition is_response (e : event) : bool :=
  match e with SendResponse _ _ => true | _ => false end.

Definition quiet (e : event) : bool := negb (is_sign e) && negb (is_response e).

(** The status words of a log, in order. *)
Definition statuses (log : list event) : list status_word :=
  flat_map (fun e => match e with
                     | SendSW sw => [sw]
                     | SendResponse _ sw => [sw]
                     | _ => []
                     end) log.

(** Every status word is followed at once by the notification of the user
    interface: of a failure after [SEND_SW], of a success after
    [SEND_RESPONSE]. *)
Fixpoint notified (log : list event) : bool :=
  match log with
  | [] => true
  | SendSW _ :: rest =>
      match rest with
      | UiPostProcessing false :: rest' => notified rest'
      | _ => false
      end
  | SendResponse _ _ :: rest =>
      match rest with
      | UiPostProcessing true :: rest' => notified rest'
      | _ => false
      end
  | _ :: rest => notified rest
  end.

(** The last status word of a log. *)
Definition final_status (log : list event) : option status_word :=
  last (map Some (statuses log)) None.

(** A platform with another build flag, another address helper and other
    leftovers in the local arrays; everything else as in [P]. *)
Definition adjusted (P : platform) (auto : bool)
    (script_address : buffer -> Z -> Z * list byte)
    (value_with_ticker abi_encoded_tx_fields : buffer) : platform := {|
  size_t_bits := size_t_bits P;
  autoapprove := auto;
  coin := coin P;
  MAX_BIP32_PATH_STEPS := MAX_BIP32_PATH_STEPS P;
  MAX_ADDRESS_LENGTH_STR := MAX_ADDRESS_LENGTH_STR P;
  CX_ECCINFO_PARITY_ODD := CX_ECCINFO_PARITY_ODD P;
  keccak256 := keccak256 P;
  sha256 := sha256 P;
  varint := varint P;
  buffer_read_u8 := buffer_read_u8 P;
  buffer_read_bip32_path := buffer_read_bip32_path P;
  buffer_read_varint := buffer_read_varint P;
  buffer_read_bytes := buffer_read_bytes P;
  call_get_merkle_leaf_element := call_get_merkle_leaf_element P;
  get_script_type := get_script_type P;
  get_script_address := script_address;
  crypto_get_compressed_pubkey_at_path := crypto_get_compressed_pubkey_at_path P;
  get_address_from_compressed_public_key := get_address_from_compressed_public_key P;
  ui_validate_withdraw_data_and_confirm := ui_validate_withdraw_data_and_confirm P;
  format_hex := format_hex P;
  crypto_ecdsa_sign_sha256_hash_with_key := crypto_ecdsa_sign_sha256_hash_with_key P;
  stack_value_with_ticker := value_with_ticker;
  stack_abi_encoded_tx_fields := abi_encoded_tx_fields;
  stack_tx_hash := stack_tx_hash P
|}.

(** [P] built with or without [HAVE_AUTOAPPROVE_FOR_PERF_TESTS]. *)
Definition with_autoapprove (P : platform) (auto : bool) : platform :=
  adjusted P auto (get_script_address P) (stack_value_with_ticker P)
    (stack_abi_encoded_tx_fields P).

(** The concrete platform with a script that pays to a foreign address. *)
Definition demo_foreign_address : platform :=
  adjusted demo_platform false (fun _ _ => (4, c_str "3J98")) zeroed zeroed.

(** The concrete platform without chunk 1 and with bytes [0xee] left in the
    array of the encoded transaction. *)
Definition demo_stale_stack : platform :=
  adjusted (Demo.platform_of (Demo.only 1) false) false
    (fun _ _ => (4, c_str "bc1q")) zeroed (fun _ => xee).

(** * Properties *)

(** ** Arrays *)

Lemma read_length (b : buffer) (off : Z) (len : nat) :
  length (read b off len) = len.
Proof. unfold read. now rewrite length_map, length_seq. Qed.

Lemma read_nth (b : buffer) (off : Z) (len k : nat) :
  (k < len)%nat -> nth k (read b off len) x00 = b (off + Z.of_nat k).
Proof.
  intros Hk. unfold read.
  rewrite (nth_indep _ x00 (b (off + Z.of_nat 0))) by now rewrite length_map, length_seq.
  rewrite (map_nth (fun k => b (off + Z.of_nat k))), seq_nth by exact Hk.
  reflexivity.
Qed.

Lemma read_ext (b b' : buffer) (off : Z) (len : nat) :
  (forall i, off <= i < off + Z.of_nat len -> b i = b' i) ->
  read b off len = read b' off len.
Proof.
  intros H. unfold read. apply map_ext_in. intros k Hk.
  apply in_seq in Hk. apply H. lia.
Qed.

Lemma read_app (b : buffer) (off : Z) (n m : nat) :
  read b off (n + m) = read b off n ++ read b (off + Z.of_nat n) m.
Proof.
  unfold read. rewrite seq_app, map_app. f_equal. simpl.
  clear. revert n. induction m as [|m IH]; intros n; [reflexivity|].
  simpl. f_equal.
  - f_equal. lia.
  - rewrite (IH (S n)). rewrite <- (seq_shift m 0), map_map.
    apply map_ext. intros k. f_equal. lia.
Qed.

Lemma list_eq_nth (l l' : list byte) :
  length l = length l' ->
  (forall k, (k < length l)%nat -> nth k l x00 = nth k l' x00) ->
  l = l'.
Proof. intros Hlen H. now apply (nth_ext l l' x00 x00). Qed.

Lemma read_of_nth (b : buffer) (off : Z) (l : list byte) :
  (forall k, (k < length l)%nat -> b (off + Z.of_nat k) = nth k l x00) ->
  read b off (length l) = l.
Proof.
  intros H. apply list_eq_nth.
  - apply read_length.
  - intros k Hk. rewrite read_length in Hk. rewrite read_nth by exact Hk. now apply H.
Qed.

Lemma write_inside (b : buffer) (off : Z) (data : list byte) (i : Z) :
  off <= i < off + Z.of_nat (length data) ->
  write b off data i = nth (Z.to_nat (i - off)) data x00.
Proof.
  intros H. unfold write.
  replace ((off <=? i) && (i <? off + Z.of_nat (length data))) with true; [reflexivity|].
  symmetry. apply andb_true_intro. split; [apply Z.leb_le | apply Z.ltb_lt]; lia.
Qed.

Lemma write_outside (b : buffer) (off : Z) (data : list byte) (i : Z) :
  i < off \/ off + Z.of_nat (length data) <= i ->
  write b off data i = b i.
Proof.
  intros H. unfold write.
  replace ((off <=? i) && (i <? off + Z.of_nat (length data))) with false; [reflexivity|].
  symmetry. apply andb_false_iff.
  destruct H; [left; apply Z.leb_gt | right; apply Z.ltb_ge]; lia.
Qed.

Lemma read_write_same (b : buffer) (off : Z) (data : list byte) :
  read (write b off data) off (length data) = data.
Proof.
  apply read_of_nth. intros k Hk.
  rewrite write_inside by lia. f_equal. lia.
Qed.

Lemma read_write_other (b : buffer) (off off' : Z) (data : list byte) (len : nat) :
  off' + Z.of_nat len <= off \/ off + Z.of_nat (length data) <= off' ->
  read (write b off data) off' len = read b off' len.
Proof.
  intros H. apply read_ext. intros i Hi. apply write_outside. lia.
Qed.

Lemma read_write_exact (b : buffer) (off : Z) (data : list byte) (len : nat) :
  length data = len -> read (write b off data) off len = data.
Proof. intros <-. apply read_write_same. Qed.

Lemma read_shift (b : buffer) (base off : Z) (len : nat) :
  read (shift b base) off len = read b (base + off) len.
Proof. unfold read, shift. apply map_ext. intros k. f_equal. lia. Qed.

Lemma read_repeat (b : buffer) (off : Z) (len : nat) (c : byte) :
  (forall i, off <= i < off + Z.of_nat len -> b i = c) ->
  read b off len = repeat c len.
Proof.
  intros H. rewrite <- (repeat_length c len) at 1. apply read_of_nth.
  intros k Hk. rewrite repeat_length in Hk. rewrite nth_repeat_lt by exact Hk.
  apply H. lia.
Qed.

(** ** Computations only append to the log *)

Lemma appends_ret {A} (a : A) : appends (ret a).
Proof. intros log. unfold ret, returned, events. simpl. now rewrite app_nil_r. Qed.

Lemma bind_ret {A B} (a : A) (k : A -> M B) : bind (ret a) k = k a.
Proof. reflexivity. Qed.

Lemma appends_emit (e : event) : appends (emit e).
Proof. intros log. reflexivity. Qed.

Lemma appends_bind {A B} (m : M A) (k : A -> M B) :
  appends m -> (forall a, appends (k a)) -> appends (bind m k).
Proof.
  intros Hm Hk log. unfold returned, events, bind.
  rewrite (Hm log), (Hm []). rewrite (Hk (returned m) (log ++ events m)).
  rewrite (Hk (returned m) ([] ++ events m)). simpl. now rewrite app_assoc.
Qed.

Lemma returned_bind {A B} (m : M A) (k : A -> M B) :
  appends m -> (forall a, appends (k a)) ->
  returned (bind m k) = returned (k (returned m)).
Proof.
  intros Hm Hk. unfold returned at 1. unfold bind.
  rewrite (Hm []). now rewrite (Hk (returned m)).
Qed.

Lemma events_bind {A B} (m : M A) (k : A -> M B) :
  appends m -> (forall a, appends (k a)) ->
  events (bind m k) = events m ++ events (k (returned m)).
Proof.
  intros Hm Hk. unfold events at 1. unfold bind.
  rewrite (Hm []). now rewrite (Hk (returned m)).
Qed.

Create HintDb appends.
#[export] Hint Resolve appends_ret appends_emit : appends.

Ltac appends_step :=
  lazymatch goal with
  | |- appends (bind _ _) => apply appends_bind; [| intros ?]
  | |- appends (ret _) => apply appends_ret
  | |- appends (emit _) => apply appends_emit
  | |- appends (let '(_, _) := ?p in _) => destruct p
  | |- appends (if ?c then _ else _) => destruct c
  | |- appends (match ?o with Some _ => _ | None => _ end) => destruct o
  end.

Section Appends.

Variable P : platform.

Lemma appends_fetch_and_add_chunk_to_hash root n ctx index off size :
  appends (fetch_and_add_chunk_to_hash P root n ctx index off size).
Proof. unfold fetch_and_add_chunk_to_hash. repeat appends_step. Qed.

Lemma appends_fetch_and_add_chunk_to_buffer root n index off size out out_off :
  appends (fetch_and_add_chunk_to_buffer P root n index off size out out_off).
Proof. unfold fetch_and_add_chunk_to_buffer. repeat appends_step. Qed.

Lemma appends_hash_tx_data_loop root n count :
  forall i ctx, appends (hash_tx_data_loop P root n count i ctx).
Proof.
  induction count as [|count IH]; intros i ctx; simpl.
  - apply appends_ret.
  - apply appends_bind; [apply appends_fetch_and_add_chunk_to_hash | intros ctx1].
    apply appends_bind; [apply appends_fetch_and_add_chunk_to_hash | intros ctx2].
    apply IH.
Qed.

Lemma appends_fetch_and_hash_tx_data root n ctx :
  appends (fetch_and_hash_tx_data P root n ctx).
Proof.
  unfold fetch_and_hash_tx_data.
  apply appends_bind; [apply appends_fetch_and_add_chunk_to_hash | intros ctx1].
  apply appends_bind; [apply appends_hash_tx_data_loop | intros ctx2].
  apply appends_ret.
Qed.

Lemma appends_fetch_and_abi_encode_tx_fields root n data_hash out size :
  appends (fetch_and_abi_encode_tx_fields P root n data_hash out size).
Proof.
  unfold fetch_and_abi_encode_tx_fields.
  destruct (size <? FIELD_SIZE * 11).
  - repeat appends_step.
  - repeat (apply appends_bind;
            [apply appends_fetch_and_add_chunk_to_buffer | intros ?]).
    apply appends_ret.
Qed.

Lemma appends_compute_domain_separator_hash root n :
  appends (compute_domain_separator_hash P root n).
Proof.
  unfold compute_domain_separator_hash.
  apply appends_bind; [apply appends_fetch_and_add_chunk_to_hash | intros ctx].
  apply appends_ret.
Qed.

End Appends.

#[export] Hint Resolve appends_fetch_and_add_chunk_to_hash
  appends_fetch_and_add_chunk_to_buffer appends_hash_tx_data_loop
  appends_fetch_and_hash_tx_data appends_fetch_and_abi_encode_tx_fields
  appends_compute_domain_separator_hash : appends.

Ltac appends_auto :=
  intros; cbv zeta;
  repeat first [ solve [auto with appends] | appends_step ].

(** ** Streaming hash engine *)

Section HashEngine.

Variable P : platform.
Variable root : list byte.
Variable n_chunks : Z.

Lemma fetch_and_add_chunk_to_hash_retrieved ctx index off size :
  retrieved P root n_chunks index ->
  fetch_and_add_chunk_to_hash P root n_chunks ctx index off size
  = ret (ctx ++ read (chunk_of P root n_chunks index) off (Z.to_nat size)).
Proof.
  unfold retrieved, chunk_of, fetch_and_add_chunk_to_hash.
  destruct (call_get_merkle_leaf_element P root n_chunks index) as [len c].
  simpl. intros H.
  replace (len <? 0) with false by (symmetry; apply Z.ltb_ge; lia).
  reflexivity.
Qed.

Lemma hash_tx_data_loop_retrieved count :
  forall i ctx,
    (forall j, i <= j < i + Z.of_nat count -> retrieved P root n_chunks j) ->
    hash_tx_data_loop P root n_chunks count i ctx
    = ret (ctx ++ flat_map (fun j => read (chunk_of P root n_chunks j) 0 32 ++ read (chunk_of P root n_chunks j) 32 32)
                    (map (fun k => i + Z.of_nat k) (seq 0 count))).
Proof.
  induction count as [|count IH]; intros i ctx H.
  - simpl. now rewrite app_nil_r.
  - cbn [hash_tx_data_loop].
    rewrite fetch_and_add_chunk_to_hash_retrieved, bind_ret by (apply H; lia).
    rewrite fetch_and_add_chunk_to_hash_retrieved, bind_ret by (apply H; lia).
    rewrite IH by (intros j Hj; apply H; lia).
    f_equal. cbn [seq map flat_map].
    rewrite Z.add_0_r, <- !app_assoc. do 3 f_equal.
    rewrite <- seq_shift, map_map. f_equal.
    apply map_ext. intros k. lia.
Qed.

Lemma fetch_and_add_chunk_to_buffer_retrieved index off size out out_off :
  retrieved P root n_chunks index ->
  fetch_and_add_chunk_to_buffer P root n_chunks index off size out out_off
  = ret (write out out_off
           (if size <? 32
            then read (add_leading_zeroes zeroed 32 (shift (chunk_of P root n_chunks index) off) size) 0 32
            else read (write zeroed 0 (read (chunk_of P root n_chunks index) off (Z.to_nat size)))
                   0 (Z.to_nat size))).
Proof.
  unfold retrieved, chunk_of, fetch_and_add_chunk_to_buffer.
  destruct (call_get_merkle_leaf_element P root n_chunks index) as [len c].
  simpl. intros H.
  replace (len <? 0) with false by (symmetry; apply Z.ltb_ge; lia).
  destruct (size <? 32); reflexivity.
Qed.

Lemma fetch_and_abi_encode_tx_fields_succeeds data_hash out :
  fst (returned (fetch_and_abi_encode_tx_fields P root n_chunks data_hash out
                 (FIELD_SIZE * 11))) = true.
Proof.
  unfold fetch_and_abi_encode_tx_fields.
  change (FIELD_SIZE * 11 <? FIELD_SIZE * 11) with false. cbv iota.
  repeat (rewrite returned_bind by appends_auto).
  reflexivity.
Qed.

Lemma tx_hash_unfold :
  tx_hash P root n_chunks
  = keccak256 P (abi_encode_packed (domain_separator_hash P root n_chunks)
                   (struct_hash P root n_chunks)).
Proof.
  unfold tx_hash, compute_tx_hash.
  rewrite returned_bind by appends_auto.
  rewrite returned_bind by appends_auto.
  fold (payload_hash P root n_chunks).
  pose proof (fetch_and_abi_encode_tx_fields_succeeds (payload_hash P root n_chunks)
                (stack_abi_encoded_tx_fields P)) as Hok.
  unfold struct_hash, encoded_tx_fields.
  destruct (returned (fetch_and_abi_encode_tx_fields P root n_chunks _ _ _))
    as [ok fields].
  simpl in Hok. subst ok. cbn [negb snd].
  rewrite returned_bind by appends_auto.
  reflexivity.
Qed.

End HashEngine.

Section Hashes.

Variable P : platform.
Variable root : list byte.
Variable n_chunks : Z.

Lemma payload_hash_retrieved :
  Forall (retrieved P root n_chunks) (4 :: payload_indices n_chunks) ->
  payload_hash P root n_chunks = keccak256 P (payload_message P root n_chunks).
Proof.
  intros H. inversion H as [|? ? H4 Hrest]; subst.
  unfold payload_hash, fetch_and_hash_tx_data.
  rewrite fetch_and_add_chunk_to_hash_retrieved, bind_ret by exact H4.
  rewrite hash_tx_data_loop_retrieved, bind_ret.
  - unfold returned, ret, cx_hash_last, payload_message, payload_indices,
      cx_keccak_init_no_throw. simpl. now rewrite app_nil_r.
  - intros j Hj. rewrite Forall_forall in Hrest. apply Hrest.
    unfold payload_indices. apply in_map_iff. exists (Z.to_nat (j - 5)).
    split; [lia | apply in_seq; lia].
Qed.

Lemma payload_hash_is_digest :
  exists m, payload_hash P root n_chunks = keccak256 P m.
Proof.
  unfold payload_hash, fetch_and_hash_tx_data.
  rewrite returned_bind by appends_auto.
  rewrite returned_bind by appends_auto.
  eexists. reflexivity.
Qed.

Lemma domain_separator_hash_is_digest :
  exists m, domain_separator_hash P root n_chunks = keccak256 P m.
Proof.
  unfold domain_separator_hash, compute_domain_separator_hash.
  rewrite returned_bind by appends_auto.
  eexists. reflexivity.
Qed.

Lemma domain_separator_hash_retrieved :
  retrieved P root n_chunks 7 ->
  domain_separator_hash P root n_chunks
  = keccak256 P (domain_separator_typehash ++ abi_encoded_chain_id (coin P)
                 ++ read (chunk_of P root n_chunks 7) 0 32).
Proof.
  intros H7. unfold domain_separator_hash, compute_domain_separator_hash.
  rewrite fetch_and_add_chunk_to_hash_retrieved, bind_ret by exact H7.
  unfold returned, ret, cx_hash_last, cx_hash_update, cx_keccak_init_no_throw.
  cbn [fst]. now rewrite app_nil_r, <- app_assoc.
Qed.

Lemma add_leading_zeroes_read (dest src : buffer) (dest_size src_size : nat) :
  (src_size <= dest_size)%nat ->
  read (add_leading_zeroes dest (Z.of_nat dest_size) src (Z.of_nat src_size))
    0 dest_size
  = repeat x00 (dest_size - src_size) ++ read src 0 src_size.
Proof.
  intros Hle. unfold add_leading_zeroes.
  replace (Z.of_nat dest_size <? Z.of_nat src_size) with false
    by (symmetry; apply Z.ltb_ge; lia).
  rewrite !Nat2Z.id.
  replace dest_size with ((dest_size - src_size) + src_size)%nat at 3 by lia.
  rewrite read_app. f_equal.
  - rewrite read_write_other by (rewrite read_length; lia).
    apply read_repeat. intros i Hi.
    rewrite write_inside by (rewrite repeat_length; lia).
    apply nth_repeat_lt. lia.
  - replace (0 + Z.of_nat (dest_size - src_size))
      with (Z.of_nat dest_size - Z.of_nat src_size) by lia.
    apply read_write_exact, read_length.
Qed.

Lemma left_pad32_read (b : buffer) (off len : Z) :
  0 <= len <= 32 ->
  read (add_leading_zeroes zeroed 32 (shift b off) len) 0 32
  = left_pad32 (read b off (Z.to_nat len)).
Proof.
  intros Hle. unfold left_pad32.
  pose proof (add_leading_zeroes_read zeroed (shift b off) 32 (Z.to_nat len)) as E.
  rewrite Z2Nat.id in E by lia. change (Z.of_nat 32) with 32 in E.
  rewrite E by lia.
  now rewrite read_shift, read_length, Z.add_0_r.
Qed.

Lemma encoded_tx_fields_retrieved :
  Forall (retrieved P root n_chunks) [0; 1; 2; 3] ->
  length (payload_hash P root n_chunks) = 32%nat ->
  read (encoded_tx_fields P root n_chunks) 0 352 = tx_fields_layout P root n_chunks.
Proof.
  intros H Hlen.
  inversion H as [|? ? H0 Ha]; subst. inversion Ha as [|? ? H1 Hb]; subst.
  inversion Hb as [|? ? H2 Hc]; subst. inversion Hc as [|? ? H3 _]; subst.
  unfold encoded_tx_fields, fetch_and_abi_encode_tx_fields, tx_fields_layout.
  change (FIELD_SIZE * 11 <? FIELD_SIZE * 11) with false. cbv iota zeta.
  repeat (rewrite fetch_and_add_chunk_to_buffer_retrieved, bind_ret by assumption).
  unfold returned, ret. cbn [fst snd].
  unfold FIELD_SIZE, ADDRESS_SIZE_IN_BYTES.
  change (Z.to_nat 32) with 32%nat. change (Z.of_nat 20) with 20.
  change (20 <? 32) with true. change (1 <? 32) with true.
  change (32 <? 32) with false. cbv iota.
  rewrite (firstn_all2 (n := 32) (payload_hash P root n_chunks)) by lia.
  change 352%nat with (32 + (32 + (32 + (32 + (32 + (32 + (32 + (32 + (32 + (32 + 32))))))))))%nat.
  repeat rewrite read_app.
  repeat match goal with
  | |- context [read _ (?x + ?y) _] =>
      let v := eval vm_compute in (x + y) in change (x + y) with v
  | |- context [write _ (?x + ?y) _] =>
      let v := eval vm_compute in (x + y) in change (x + y) with v
  end.
  repeat match goal with
  | |- context [read (write ?b ?off ?d) ?off' 32] =>
      first
        [ rewrite (read_write_other b off off' d 32)
            by (rewrite ?read_length, ?Hlen; simpl; lia)
        | rewrite (read_write_exact b off d 32)
            by (rewrite ?read_length, ?Hlen; reflexivity) ]
  end.
  rewrite (left_pad32_read (chunk_of P root n_chunks 0) 0 20), (left_pad32_read (chunk_of P root n_chunks 3) 0 1),
    (left_pad32_read (chunk_of P root n_chunks 0) 20 20), (left_pad32_read (chunk_of P root n_chunks 0) 40 20) by lia.
  reflexivity.
Qed.

End Hashes.

(** ** Signature encoding *)

Lemma b2z_range (b : byte) : 0 <= b2z b <= 255.
Proof.
  unfold b2z. pose proof (Byte.to_N_bounded b). lia.
Qed.

Lemma copy_down_at (dst src : buffer) (dst_off src_off : Z) (n : nat) (i : Z) :
  copy_down dst dst_off src src_off n i
  = if (dst_off <=? i) && (i <? dst_off + Z.of_nat n)
    then src (src_off + (i - dst_off))
    else dst i.
Proof.
  revert dst. induction n as [|n IH]; intros dst.
  - cbn [copy_down].
    destruct (Z.leb_spec dst_off i), (Z.ltb_spec i (dst_off + Z.of_nat 0));
      cbn [andb]; try reflexivity; lia.
  - cbn [copy_down]. rewrite IH.
    destruct (Z.leb_spec dst_off i), (Z.ltb_spec i (dst_off + Z.of_nat n)),
      (Z.ltb_spec i (dst_off + Z.of_nat (S n))); cbn [andb];
      try reflexivity; try lia.
    + rewrite write_inside by (cbn [length]; lia).
      replace (Z.to_nat (i - (dst_off + Z.of_nat n))) with 0%nat by lia.
      cbn [nth]. f_equal. lia.
    + apply write_outside. cbn [length]. lia.
    + apply write_outside. cbn [length]. lia.
Qed.

Lemma nth_tl (l : list byte) (k : nat) : nth k (tl l) x00 = nth (S k) l x00.
Proof. destruct l; [destruct k|]; reflexivity. Qed.

Lemma right_align32_length (src : buffer) (off : Z) (n : nat) :
  (n <= 33)%nat -> length (right_align32 (read src off n)) = 32%nat.
Proof.
  intros Hn. unfold right_align32, left_pad32. rewrite read_length.
  destruct (Nat.eqb_spec n 33) as [->|Hne].
  - reflexivity.
  - rewrite length_app, repeat_length, read_length. lia.
Qed.

Lemma right_align32_nth (src : buffer) (off : Z) (n k : nat) :
  (n <= 33)%nat -> (k < 32)%nat ->
  nth k (right_align32 (read src off n)) x00
  = if 32 - Z.of_nat n <=? Z.of_nat k
    then src (off + (Z.of_nat k - (32 - Z.of_nat n)))
    else x00.
Proof.
  intros Hn Hk. unfold right_align32, left_pad32. rewrite read_length.
  destruct (Nat.eqb_spec n 33) as [->|Hne].
  - rewrite nth_tl, read_nth by lia.
    destruct (Z.leb_spec (32 - Z.of_nat 33) (Z.of_nat k)); [f_equal; lia | lia].
  - destruct (Z.leb_spec (32 - Z.of_nat n) (Z.of_nat k)).
    + rewrite app_nth2 by (rewrite repeat_length; lia).
      rewrite repeat_length, read_nth by lia. f_equal. lia.
    + rewrite app_nth1 by (rewrite repeat_length; lia).
      apply nth_repeat_lt. lia.
Qed.

Section Encoder.

Variable P : platform.

Lemma respond_with_signature_rejects (sig : buffer) (info : Z) :
  33 < b2z (sig 3) \/ 33 < b2z (sig (4 + b2z (sig 3) + 1)) ->
  events (respond_with_signature P sig info)
  = [SendSW SW_BAD_STATE; UiPostProcessing false].
Proof.
  intros H. unfold respond_with_signature.
  replace ((b2z (sig 3) >? 33) || (b2z (sig (4 + b2z (sig 3) + 1)) >? 33))
    with true; [reflexivity|].
  symmetry. apply orb_true_iff. rewrite !Z.gtb_ltb, !Z.ltb_lt. exact H.
Qed.

Lemma respond_with_signature_answers (sig : buffer) (info : Z) :
  0 < b2z (sig 3) <= 33 ->
  b2z (sig (4 + b2z (sig 3) + 1)) <= 33 ->
  events (respond_with_signature P sig info)
  = [SendResponse (recovery_byte P info :: right_align32 (der_r sig)
                     ++ right_align32 (der_s sig)) SW_OK;
     UiPostProcessing true].
Proof.
  intros Hr Hs. unfold respond_with_signature, der_r, der_s.
  set (r := b2z (sig 3)) in *. set (s := b2z (sig (4 + r + 1))) in *.
  assert (0 <= s) by apply b2z_range.
  replace ((r >? 33) || (s >? 33)) with false
    by (symmetry; apply orb_false_iff; rewrite !Z.gtb_ltb, !Z.ltb_ge; lia).
  unfold events, bind, emit. cbn [snd app]. do 2 f_equal.
  fold (recovery_byte P info).
  change 65%nat with (1 + (32 + 32))%nat. rewrite !read_app.
  change (0 + Z.of_nat 1) with 1. change (1 + Z.of_nat 32) with 33.
  rewrite (read_write_exact _ 0 [recovery_byte P info] 1 eq_refl).
  cbn [app]. f_equal.
  rewrite !read_write_other by (cbn [length]; lia).
  f_equal.
  - apply list_eq_nth.
    + now rewrite read_length, right_align32_length by lia.
    + intros k Hk. rewrite read_length in Hk.
      rewrite read_nth, right_align32_nth by lia.
      rewrite !copy_down_at, !Z2Nat.id by lia.
      destruct (Z.leb_spec (1 + 32 - r) (1 + Z.of_nat k)),
        (Z.ltb_spec (1 + Z.of_nat k) (1 + 32 - r + r)),
        (Z.leb_spec (32 - r) (Z.of_nat k)); cbn [andb]; try lia.
      * f_equal. lia.
      * destruct (Z.leb_spec (1 + 32 + 32 - s) (1 + Z.of_nat k)),
          (Z.ltb_spec (1 + Z.of_nat k) (1 + 32 + 32 - s + s));
          cbn [andb]; try reflexivity; lia.
  - apply list_eq_nth.
    + now rewrite read_length, right_align32_length by lia.
    + intros k Hk. rewrite read_length in Hk.
      rewrite read_nth, right_align32_nth by lia.
      rewrite !copy_down_at, !Z2Nat.id by lia.
      destruct (Z.leb_spec (1 + 32 - r) (33 + Z.of_nat k)),
        (Z.ltb_spec (33 + Z.of_nat k) (1 + 32 - r + r)); cbn [andb]; try lia.
      destruct (Z.leb_spec (1 + 32 + 32 - s) (33 + Z.of_nat k)),
        (Z.ltb_spec (33 + Z.of_nat k) (1 + 32 + 32 - s + s)),
        (Z.leb_spec (32 - s) (Z.of_nat k)); cbn [andb]; try reflexivity; try lia.
      f_equal. lia.
Qed.

End Encoder.

(** ** Amount rendering and the confirmation screen *)

Lemma format_u64_digits_length (fuel : nat) :
  forall n acc,
    (length (format_u64_digits fuel n acc) <= fuel + length acc)%nat.
Proof.
  induction fuel as [|fuel IH]; intros n acc; cbn [format_u64_digits].
  - lia.
  - destruct (n / 10 =? 0).
    + cbn [length]. lia.
    + specialize (IH (n / 10) (digit (n mod 10) :: acc)). cbn [length] in IH. lia.
Qed.

Lemma format_fpu64_fits (value : Z) :
  exists text, format_fpu64 (AMOUNT_SIZE_IN_CHARS + 1) value 18 = Some text.
Proof.
  unfold format_fpu64.
  pose proof (format_u64_digits_length 20 value []) as Hlen. cbn [length] in Hlen.
  set (buffer := format_u64_digits 20 value []) in *.
  match goal with
  | |- exists text, (if _ <=? Z.of_nat (length ?t) then _ else _) = _ =>
      assert (Hfit : (length t <= 21)%nat)
  end.
  { destruct (Nat.leb_spec (length buffer) 18).
    - rewrite !length_app, repeat_length.
      change (length (c_str "0.")) with 2%nat. lia.
    - rewrite !length_app, length_firstn, length_skipn.
      change (length (c_str ".")) with 1%nat. lia. }
  match goal with
  | |- exists text, (if ?c then _ else _) = _ =>
      replace c with false
        by (symmetry; apply Z.leb_gt; unfold AMOUNT_SIZE_IN_CHARS; lia)
  end.
  eexists. reflexivity.
Qed.

(** The twenty rounds of [format_u64_digits] are enough: the digits of an
    unsigned 64-bit value denote that value. *)
Lemma decimal_fold (l : list byte) (a : Z) :
  fold_left (fun acc c => acc * 10 + (b2z c - 48)) l a
  = a * 10 ^ Z.of_nat (length l) + decimal_value l.
Proof.
  unfold decimal_value. revert a. induction l as [|c l IH]; intros a.
  - cbn. lia.
  - cbn [fold_left length]. rewrite IH, (IH (0 * 10 + _)).
    rewrite Nat2Z.inj_succ, Z.pow_succ_r by lia. lia.
Qed.

Lemma b2z_digit (d : Z) : 0 <= d <= 9 -> b2z (digit d) = 48 + d.
Proof.
  intros H.
  assert (E : d = 0 \/ d = 1 \/ d = 2 \/ d = 3 \/ d = 4 \/ d = 5 \/ d = 6
              \/ d = 7 \/ d = 8 \/ d = 9) by lia.
  repeat (destruct E as [E|E]; [rewrite E; reflexivity|]).
  rewrite E. reflexivity.
Qed.

Lemma format_u64_digits_value (fuel : nat) :
  forall n acc,
    0 <= n < 10 ^ Z.of_nat fuel ->
    decimal_value (format_u64_digits fuel n acc)
    = n * 10 ^ Z.of_nat (length acc) + decimal_value acc.
Proof.
  induction fuel as [|fuel IH]; intros n acc Hn.
  - cbn in Hn. assert (n = 0) by lia. subst n. cbn [format_u64_digits]. lia.
  - cbn [format_u64_digits].
    pose proof (Z.div_mod n 10 ltac:(lia)) as Hdm.
    pose proof (Z.mod_pos_bound n 10 ltac:(lia)) as Hm.
    assert (Hcons : decimal_value (digit (n mod 10) :: acc)
                    = (n mod 10) * 10 ^ Z.of_nat (length acc) + decimal_value acc).
    { unfold decimal_value at 1. cbn [fold_left].
      rewrite decimal_fold, b2z_digit by lia. f_equal. f_equal. lia. }
    destruct (Z.eqb_spec (n / 10) 0) as [E|E].
    + rewrite Hcons. f_equal. f_equal. lia.
    + rewrite IH.
      * rewrite Hcons. cbn [length]. rewrite Nat2Z.inj_succ, Z.pow_succ_r by lia. lia.
      * rewrite Nat2Z.inj_succ, Z.pow_succ_r in Hn by lia.
        split; [apply Z.div_pos; lia | apply Z.div_lt_upper_bound; lia].
Qed.

Lemma format_u64_digits_u64 (value : Z) :
  0 <= value < 2 ^ 64 ->
  decimal_value (format_u64_digits 20 value []) = value.
Proof.
  intros H. rewrite format_u64_digits_value.
  - cbn [length decimal_value fold_left]. lia.
  - change (10 ^ Z.of_nat 20) with 100000000000000000000.
    change (2 ^ 64) with 18446744073709551616 in H. lia.
Qed.

Lemma to_size_t_0 (P : platform) : to_size_t P 0 = 0.
Proof. unfold to_size_t. apply Zmod_0_l. Qed.

Lemma SIZE_MAX_nonneg (P : platform) : 0 <= SIZE_MAX P.
Proof.
  unfold SIZE_MAX.
  assert (0 < 2 ^ Z.of_N (size_t_bits P)) by (apply Z.pow_pos_nonneg; lia).
  lia.
Qed.

Lemma to_size_t_minus_1 (P : platform) : to_size_t P (0 - 1) = SIZE_MAX P.
Proof.
  unfold to_size_t. pose proof (SIZE_MAX_nonneg P).
  symmetry. apply (Z.mod_unique _ _ (-1)); lia.
Qed.

Lemma redeemer_script_len_of_zero (P : platform) (data_chunk : buffer) :
  read_u16_be data_chunk 30 = 0 ->
  redeemer_script_len P data_chunk = SIZE_MAX P.
Proof.
  intros H. unfold redeemer_script_len. rewrite H, to_size_t_0.
  cbn [Z.gtb Z.compare]. apply to_size_t_minus_1.
Qed.

Lemma display_calls_script_helpers (P : platform) root n_chunks path path_len :
  let len := redeemer_script_len P (chunk_of P root n_chunks DATA_CHUNK_INDEX_2) in
  exists rest,
    events (display_data_content_and_confirm P root n_chunks path path_len)
    = UiResetStreamingIndex :: GetScriptType len :: GetScriptAddress len :: rest.
Proof.
  intros len. unfold display_data_content_and_confirm, format_value_with_ticker.
  destruct (format_fpu64_fits
              (read_u64_be (snd (call_get_merkle_leaf_element P root n_chunks
                                   DATA_CHUNK_INDEX_1)) (CHUNK_SECOND_PART + 24)))
    as [text ->].
  fold (chunk_of P root n_chunks DATA_CHUNK_INDEX_2). fold len.
  destruct (get_script_address P _ len) as [addr_len addr].
  unfold events, bind, emit, ret. cbn [snd app].
  destruct (_ || _); [|destruct (negb _)]; cbn [snd app]; eexists; reflexivity.
Qed.

(** The text on the screen depends on the array only through its first 57
    bytes. *)
Lemma trim_scan_ext (b b' : buffer) (n : nat) :
  (forall i, 0 <= i <= Z.of_nat n -> b i = b' i) ->
  trim_scan b n = trim_scan b' n.
Proof.
  induction n as [|n IH]; intros H; [reflexivity|].
  cbn [trim_scan]. rewrite <- (H (Z.of_nat (S n))) by lia.
  destruct (is_trimmed _); [|reflexivity].
  apply IH. intros i Hi. apply H. lia.
Qed.

Lemma cstring_ext (b b' : buffer) (fuel : nat) :
  forall off,
    (forall i, off <= i < off + Z.of_nat fuel -> b i = b' i) ->
    cstring b off fuel = cstring b' off fuel.
Proof.
  induction fuel as [|fuel IH]; intros off H; [reflexivity|].
  cbn [cstring]. rewrite <- (H off) by lia.
  destruct (Byte.eqb _ _); [reflexivity|]. f_equal.
  apply IH. intros i Hi. apply H. lia.
Qed.

Lemma shown_trim_ext (b b' : buffer) :
  (forall i, 0 <= i < 57 -> b i = b' i) ->
  shown (trim_value_with_ticker b) = shown (trim_value_with_ticker b').
Proof.
  intros H. unfold shown, trim_value_with_ticker.
  change (sizeof_value_with_ticker - 1) with 56.
  change (Z.to_nat sizeof_value_with_ticker) with 57%nat.
  rewrite (trim_scan_ext b b' (Z.to_nat 56)) by (intros i Hi; apply H; lia).
  destruct (_ <? 56).
  - apply cstring_ext. intros i Hi. unfold write.
    destruct (_ && _); [reflexivity | apply H; lia].
  - apply cstring_ext. intros i Hi. apply H. lia.
Qed.

Lemma shown_on_cleared_stack (P : platform) (value_u64 : Z) :
  (forall i, 0 <= i < 57 -> stack_value_with_ticker P i = NUL) ->
  option_map shown (format_value_with_ticker P value_u64)
  = option_map
      (fun value =>
         shown (trim_value_with_ticker
                  (snprintf_stBTC zeroed sizeof_value_with_ticker value)))
      (format_fpu64 (AMOUNT_SIZE_IN_CHARS + 1) value_u64 18).
Proof.
  intros H. unfold format_value_with_ticker.
  destruct (format_fpu64 _ _ _) as [value|]; [|reflexivity].
  cbn [option_map]. apply (f_equal Some). apply shown_trim_ext.
  intros i Hi. unfold snprintf_stBTC, write.
  destruct (_ && _); [reflexivity | now apply H].
Qed.

(** What the trim leaves on the screen never ends with the decimal point,
    whatever the array held before. *)

Lemma last_app_nonempty (a b : list byte) (d : byte) :
  b <> [] -> last (a ++ b) d = last b d.
Proof.
  intros Hb. induction a as [|x a IH]; [reflexivity|].
  cbn [app last]. destruct (a ++ b) eqn:E; [|exact IH].
  apply app_eq_nil in E. now destruct E.
Qed.

Lemma Forall_last (Q : byte -> Prop) (l : list byte) (d : byte) :
  Forall Q l -> l <> [] -> Q (last l d).
Proof.
  intros H Hne. rewrite (app_removelast_last d Hne) in H.
  apply Forall_app in H. destruct H as [_ H]. now inversion H.
Qed.

Lemma last_read (b : buffer) (off : Z) (n : nat) (d : byte) :
  last (read b off (S n)) d = b (off + Z.of_nat n).
Proof.
  replace (S n) with (n + 1)%nat by lia. rewrite read_app.
  cbn [read seq map]. rewrite last_last. f_equal. lia.
Qed.

Lemma cstring_read (b : buffer) (n : nat) :
  forall off fuel,
    (n < fuel)%nat ->
    (forall k, (k < n)%nat -> b (off + Z.of_nat k) <> NUL) ->
    b (off + Z.of_nat n) = NUL ->
    cstring b off fuel = read b off n.
Proof.
  induction n as [|n IH]; intros off fuel Hfuel Hnn Hnul.
  - destruct fuel as [|fuel]; [lia|]. cbn [cstring].
    rewrite Z.add_0_r in Hnul. rewrite Hnul. reflexivity.
  - destruct fuel as [|fuel]; [lia|]. cbn [cstring].
    pose proof (Hnn 0%nat ltac:(lia)) as H0. rewrite Z.add_0_r in H0.
    destruct (Byte.eqb (b off) NUL) eqn:E;
      [apply Byte.byte_dec_bl in E; contradiction|].
    rewrite (IH (off + 1) fuel).
    + change (S n) with (1 + n)%nat. rewrite read_app.
      cbn [read seq map app]. now rewrite Z.add_0_r.
    + lia.
    + intros k Hk. replace (off + 1 + Z.of_nat k) with (off + Z.of_nat (S k)) by lia.
      apply Hnn. lia.
    + replace (off + 1 + Z.of_nat n) with (off + Z.of_nat (S n)) by lia. exact Hnul.
Qed.

Lemma trim_scan_le (b : buffer) (n : nat) : (trim_scan b n <= n)%nat.
Proof.
  induction n as [|n IH]; cbn [trim_scan]; [lia|].
  destruct (is_trimmed _); lia.
Qed.

Lemma trim_scan_above (b : buffer) (n j : nat) :
  (trim_scan b n < j <= n)%nat -> is_trimmed (b (Z.of_nat j)) = true.
Proof.
  induction n as [|n IH]; cbn [trim_scan]; [lia|].
  destruct (is_trimmed (b (Z.of_nat (S n)))) eqn:E; [|lia].
  intros Hj. destruct (Nat.eq_dec j (S n)) as [->|Hne]; [exact E|].
  apply IH. lia.
Qed.

Lemma trim_scan_stop (b : buffer) (n : nat) :
  trim_scan b n = 0%nat \/ is_trimmed (b (Z.of_nat (trim_scan b n))) = false.
Proof.
  induction n as [|n IH]; cbn [trim_scan]; [now left|].
  destruct (is_trimmed (b (Z.of_nat (S n)))) eqn:E; [exact IH | now right].
Qed.

Lemma is_digit_digit (n : Z) : is_digit (digit (n mod 10)) = true.
Proof.
  pose proof (Z.mod_pos_bound n 10 ltac:(lia)) as H.
  assert (E : n mod 10 = 0 \/ n mod 10 = 1 \/ n mod 10 = 2 \/ n mod 10 = 3
              \/ n mod 10 = 4 \/ n mod 10 = 5 \/ n mod 10 = 6 \/ n mod 10 = 7
              \/ n mod 10 = 8 \/ n mod 10 = 9) by lia.
  repeat (destruct E as [E|E]; [rewrite E; reflexivity|]).
  rewrite E. reflexivity.
Qed.

Lemma is_digit_plain (c : byte) :
  is_digit c = true -> c <> NUL /\ c <> "."%byte.
Proof. intros H. split; intros ->; discriminate H. Qed.

Lemma format_u64_digits_are_digits (fuel : nat) :
  forall n acc,
    Forall (fun c => is_digit c = true) acc ->
    Forall (fun c => is_digit c = true) (format_u64_digits fuel n acc).
Proof.
  induction fuel as [|fuel IH]; intros n acc Hacc; cbn [format_u64_digits].
  - exact Hacc.
  - assert (Forall (fun c => is_digit c = true) (digit (n mod 10) :: acc))
      by (constructor; [apply is_digit_digit | exact Hacc]).
    destruct (n / 10 =? 0); [assumption | now apply IH].
Qed.

Lemma format_u64_digits_nonempty (fuel : nat) (n : Z) :
  format_u64_digits (S fuel) n [] <> [].
Proof.
  cbn [format_u64_digits]. destruct (n / 10 =? 0); [discriminate|].
  pose proof (format_u64_digits_length fuel (n / 10) [digit (n mod 10)]).
  assert (forall f m acc, (length acc <= length (format_u64_digits f m acc))%nat)
    as Hmono.
  { clear. induction f as [|f IH]; intros m acc; cbn [format_u64_digits]; [lia|].
    destruct (m / 10 =? 0); [cbn [length]; lia|].
    specialize (IH (m / 10) (digit (m mod 10) :: acc)). cbn [length] in IH. lia. }
  specialize (Hmono fuel (n / 10) [digit (n mod 10)]). cbn [length] in Hmono.
  intros E. rewrite E in Hmono. cbn [length] in Hmono. lia.
Qed.

Lemma format_fpu64_text (dst_len value : Z) (text : list byte) :
  format_fpu64 dst_len value 18 = Some text ->
  Forall (fun c => c <> NUL) text
  /\ text <> []
  /\ last text x00 <> "."%byte
  /\ (length text <= 21)%nat.
Proof.
  unfold format_fpu64.
  pose proof (format_u64_digits_length 20 value []) as Hlen. cbn [length] in Hlen.
  pose proof (format_u64_digits_are_digits 20 value [] (Forall_nil _)) as Hdig.
  pose proof (format_u64_digits_nonempty 19 value) as Hne.
  set (buffer := format_u64_digits 20 value []) in *.
  assert (Hplain : Forall (fun c => c <> NUL) buffer).
  { eapply Forall_impl; [|exact Hdig]. intros c Hc. now apply is_digit_plain. }
  assert (Hlast : forall l, Forall (fun c => is_digit c = true) l -> l <> [] ->
                            last l x00 <> "."%byte).
  { intros l Hl Hl'. apply is_digit_plain. now apply Forall_last. }
  destruct (Nat.leb_spec (length buffer) 18) as [Hshort|Hlong].
  - destruct (_ <=? _); [intros [=]|].
    match goal with
    | |- Some ?t = Some _ -> _ =>
        intros E; assert (t = text) as <- by congruence; clear E
    end.
    repeat split.
    + apply Forall_app. split; [repeat constructor; intros E; discriminate E|].
      apply Forall_app. split; [|exact Hplain].
      apply Forall_forall. intros c Hc. apply repeat_spec in Hc. now subst c.
    + discriminate.
    + rewrite app_assoc, last_app_nonempty by exact Hne. now apply Hlast.
    + rewrite !length_app, repeat_length.
      change (length (c_str "0.")) with 2%nat. lia.
  - destruct (_ <=? _); [intros [=]|].
    match goal with
    | |- Some ?t = Some _ -> _ =>
        intros E; assert (t = text) as <- by congruence; clear E
    end.
    assert (Hsplit : buffer = firstn (length buffer - 18) buffer
                              ++ skipn (length buffer - 18) buffer)
      by (symmetry; apply firstn_skipn).
    assert (Htail : skipn (length buffer - 18) buffer <> []).
    { intros E. apply (f_equal (@length byte)) in E.
      rewrite length_skipn in E. cbn [length] in E. lia. }
    rewrite Hsplit in Hplain, Hdig.
    apply Forall_app in Hplain. destruct Hplain as [Hp1 Hp2].
    apply Forall_app in Hdig. destruct Hdig as [_ Hd2].
    repeat split.
    + apply Forall_app. split; [exact Hp1|].
      apply Forall_app. split; [|exact Hp2].
      repeat constructor; intros E; discriminate E.
    + intros E. apply app_eq_nil in E. destruct E as [_ E].
      apply app_eq_nil in E. destruct E as [E _]. discriminate E.
    + rewrite app_assoc, last_app_nonempty by exact Htail. now apply Hlast.
    + rewrite !length_app, length_firstn, length_skipn.
      change (length (c_str ".")) with 1%nat. lia.
Qed.

Lemma shown_never_ends_with_point (P : platform) (value_u64 : Z)
    (value_with_ticker : buffer) :
  format_value_with_ticker P value_u64 = Some value_with_ticker ->
  last (shown value_with_ticker) x00 <> "."%byte.
Proof.
  unfold format_value_with_ticker.
  destruct (format_fpu64 _ _ _) as [text|] eqn:Htext; [|discriminate].
  intros [= <-].
  destruct (format_fpu64_text _ _ _ Htext) as (Hplain & Hne & Hlast & Hlen).
  unfold snprintf_stBTC.
  set (s := c_str "stBTC " ++ text).
  assert (HL : (6 <= length s <= 27)%nat).
  { unfold s. rewrite length_app. change (length (c_str "stBTC ")) with 6%nat. lia. }
  change (Z.to_nat (sizeof_value_with_ticker - 1)) with 56%nat.
  rewrite (firstn_all2 (n := 56) s) by lia.
  set (B0 := write (stack_value_with_ticker P) 0 (s ++ [NUL])).
  assert (Hs : Forall (fun c => c <> NUL) s).
  { unfold s. apply Forall_app. split; [|exact Hplain].
    repeat constructor; intros E; discriminate E. }
  assert (HB0 : forall k, (k < length s)%nat -> B0 (Z.of_nat k) = nth k s x00).
  { intros k Hk. unfold B0. rewrite write_inside by (rewrite length_app; lia).
    rewrite Z.sub_0_r, Nat2Z.id. now apply app_nth1. }
  assert (HB0nul : B0 (Z.of_nat (length s)) = NUL).
  { unfold B0. rewrite write_inside by (rewrite length_app; cbn [length]; lia).
    rewrite Z.sub_0_r, Nat2Z.id, app_nth2, Nat.sub_diag by lia. reflexivity. }
  assert (Hnn : forall k, (k < length s)%nat -> B0 (Z.of_nat k) <> NUL).
  { intros k Hk. rewrite HB0 by exact Hk.
    rewrite Forall_nth in Hs. now apply Hs. }
  assert (H5 : is_trimmed (B0 (Z.of_nat 5)) = false).
  { rewrite HB0 by lia. unfold s. rewrite app_nth1; [reflexivity|].
    change (length (c_str "stBTC ")) with 6%nat. lia. }
  unfold shown, trim_value_with_ticker.
  change (sizeof_value_with_ticker - 1) with 56.
  change (Z.to_nat sizeof_value_with_ticker) with 57%nat.
  change (Z.to_nat 56) with 56%nat.
  pose proof (trim_scan_le B0 56) as Hi56.
  pose proof (trim_scan_stop B0 56) as Hstop.
  pose proof (trim_scan_above B0 56 5) as Habove.
  set (i := trim_scan B0 56) in *.
  assert (Hi5 : (5 <= i)%nat).
  { destruct (Nat.le_gt_cases 5 i) as [|Hlt]; [assumption|].
    rewrite Habove in H5 by lia. discriminate H5. }
  destruct Hstop as [Hstop|Hstop]; [lia|].
  assert (Hnotpoint : B0 (Z.of_nat i) <> "."%byte).
  { intros E. rewrite E in Hstop. discriminate Hstop. }
  destruct (Nat.lt_ge_cases i (length s)) as [Hin|Hout].
  - replace (Z.of_nat i <? 56) with true by (symmetry; apply Z.ltb_lt; lia).
    rewrite (cstring_read _ (S i)).
    + rewrite last_read, write_outside by (cbn [length]; lia).
      rewrite Z.add_0_l. exact Hnotpoint.
    + lia.
    + intros k Hk. rewrite write_outside by (cbn [length]; lia).
      rewrite Z.add_0_l. apply Hnn. lia.
    + rewrite write_inside by (cbn [length]; lia).
      replace (Z.to_nat (0 + Z.of_nat (S i) - (Z.of_nat i + 1))) with 0%nat by lia.
      reflexivity.
  - assert (Hgt : (length s < i)%nat).
    { destruct (Nat.eq_dec i (length s)) as [E|E]; [|lia].
      rewrite E, HB0nul in Hstop. discriminate Hstop. }
    assert (Hsame : forall k, (k <= length s)%nat ->
              (if Z.of_nat i <? 56 then write B0 (Z.of_nat i + 1) [NUL] else B0)
                (0 + Z.of_nat k) = B0 (Z.of_nat k)).
    { intros k Hk. rewrite Z.add_0_l. destruct (_ <? 56); [|reflexivity].
      apply write_outside. cbn [length]. lia. }
    rewrite (cstring_read _ (length s)).
    + rewrite (read_of_nth _ 0 s).
      * unfold s. rewrite last_app_nonempty by exact Hne. exact Hlast.
      * intros k Hk. rewrite Hsame by lia. now apply HB0.
    + lia.
    + intros k Hk. rewrite Hsame by lia. now apply Hnn.
    + rewrite Hsame by lia. exact HB0nul.
Qed.

(** ** The orchestrator *)

Section Orchestrator.

Variable P : platform.

Lemma appends_display_data_content_and_confirm root n path len :
  appends (display_data_content_and_confirm P root n path len).
Proof. unfold display_data_content_and_confirm. appends_auto. Qed.

Lemma appends_compute_tx_hash root n out :
  appends (compute_tx_hash P root n out).
Proof. unfold compute_tx_hash. appends_auto. Qed.

Lemma appends_sign_tx_hash path len tx_hash_str :
  appends (sign_tx_hash P path len tx_hash_str).
Proof. unfold sign_tx_hash. appends_auto. Qed.

Lemma appends_respond_with_signature sig info :
  appends (respond_with_signature P sig info).
Proof. unfold respond_with_signature. appends_auto. Qed.

#[local] Hint Resolve appends_display_data_content_and_confirm appends_compute_tx_hash
  appends_sign_tx_hash appends_respond_with_signature : appends.

(** Once the request is read and confirmed and [format_hex] has not returned
    0, the handler runs the hashing pass, the signing step and the encoding
    step one after the other, whatever the chunk retrievals and the signer
    return. *)
Lemma handler_withdraw_runs_to_the_encoder rb len path n root :
  read_request P rb = Some (len, path, n, root) ->
  len <= MAX_BIP32_PATH_STEPS P ->
  let confirm :=
    if autoapprove P then ret true
    else display_data_content_and_confirm P root (to_size_t P n) path len in
  let hash := compute_tx_hash P root (to_size_t P n) (stack_tx_hash P) in
  let sign := sign_tx_hash P path len (snd (format_hex P (returned hash))) in
  returned confirm = true ->
  fst (format_hex P (returned hash)) <> 0 ->
  events (handler_withdraw P rb)
  = events confirm ++ events hash ++ events sign
    ++ events (respond_with_signature P (snd (returned sign)) (fst (returned sign))).
Proof.
  intros Hread Hlen confirm hash sign Hconfirm Hhex.
  assert (Hc : appends confirm) by (unfold confirm; appends_auto).
  unfold handler_withdraw. rewrite Hread.
  replace (len >? MAX_BIP32_PATH_STEPS P) with false
    by (symmetry; rewrite Z.gtb_ltb; apply Z.ltb_ge; lia).
  fold confirm. rewrite events_bind; [|exact Hc|appends_auto].
  f_equal. rewrite Hconfirm. cbn [negb].
  fold hash. rewrite events_bind by (unfold hash; appends_auto). f_equal.
  destruct (format_hex P (returned hash)) as [written tx_hash_str] eqn:Hfmt.
  cbn [fst snd] in *.
  replace (written =? 0) with false by (symmetry; apply Z.eqb_neq; exact Hhex).
  rewrite events_bind by appends_auto. f_equal.
  fold sign. destruct (returned sign) as [info sig]. reflexivity.
Qed.

Lemma sign_tx_hash_calls_the_signer path len tx_hash_str :
  In (Sign path (bsm_digest_of P tx_hash_str))
    (events (sign_tx_hash P path len tx_hash_str)).
Proof.
  unfold sign_tx_hash.
  destruct (crypto_ecdsa_sign_sha256_hash_with_key P path len _)
    as [[sig_len sig] info].
  unfold events, bind, emit, ret.
  destruct (autoapprove P), (sig_len <? 0); cbn [snd app In]; auto.
Qed.

(** No chunk retrieval can keep the request from the signer: the hashing
    pass has no way to stop the handler. *)
Lemma retrieval_never_stops_the_signer rb len path n root :
  read_request P rb = Some (len, path, n, root) ->
  len <= MAX_BIP32_PATH_STEPS P ->
  returned (if autoapprove P then ret true
            else display_data_content_and_confirm P root (to_size_t P n) path len)
  = true ->
  fst (format_hex P (returned (compute_tx_hash P root (to_size_t P n)
                                 (stack_tx_hash P)))) <> 0 ->
  exists digest, In (Sign path digest) (events (handler_withdraw P rb)).
Proof.
  intros Hread Hlen Hconfirm Hhex.
  rewrite (handler_withdraw_runs_to_the_encoder rb len path n root
             Hread Hlen Hconfirm Hhex).
  eexists. rewrite !in_app_iff. right. right. left.
  apply sign_tx_hash_calls_the_signer.
Qed.

(** A failure of the signer is reported and then ignored: the encoding step
    runs on whatever the signature array holds. *)
Lemma signing_failure_is_not_checked path len tx_hash_str :
  let sign := sign_tx_hash P path len tx_hash_str in
  let digest := bsm_digest_of P tx_hash_str in
  forall sig_len sig info,
    crypto_ecdsa_sign_sha256_hash_with_key P path len digest = (sig_len, sig, info) ->
    sig_len < 0 ->
    b2z (sig 3) <= 33 ->
    b2z (sig (4 + b2z (sig 3) + 1)) <= 33 ->
    exists data,
      replies (events sign
               ++ events (respond_with_signature P (snd (returned sign))
                            (fst (returned sign))))
      = [Sign path digest; SendSW SW_BAD_STATE; SendResponse data SW_OK].
Proof.
  intros sign digest sig_len sig info Hsig Hneg Hr Hs.
  unfold sign, sign_tx_hash. fold digest. rewrite Hsig.
  replace (sig_len <? 0) with true by (symmetry; apply Z.ltb_lt; exact Hneg).
  unfold respond_with_signature, returned, events, bind, emit, ret.
  destruct (autoapprove P); cbn [fst snd app];
    (replace ((b2z (sig 3) >? 33) || (b2z (sig (4 + b2z (sig 3) + 1)) >? 33))
       with false
       by (symmetry; apply orb_false_iff; rewrite !Z.gtb_ltb, !Z.ltb_ge; lia));
    eexists; reflexivity.
Qed.

(** On a read and confirmed request whose signature array holds a
    non-empty [r] and two lengths of at most 33, the log of the handler ends
    with the 65-byte answer. *)
Lemma handler_withdraw_answers rb len path n root :
  read_request P rb = Some (len, path, n, root) ->
  len <= MAX_BIP32_PATH_STEPS P ->
  let confirm :=
    if autoapprove P then ret true
    else display_data_content_and_confirm P root (to_size_t P n) path len in
  let hash := compute_tx_hash P root (to_size_t P n) (stack_tx_hash P) in
  let sign := sign_tx_hash P path len (snd (format_hex P (returned hash))) in
  let sig := snd (returned sign) in
  let info := fst (returned sign) in
  returned confirm = true ->
  fst (format_hex P (returned hash)) <> 0 ->
  0 < b2z (sig 3) <= 33 ->
  b2z (sig (4 + b2z (sig 3) + 1)) <= 33 ->
  events (handler_withdraw P rb)
  = events confirm ++ events hash ++ events sign
    ++ [SendResponse (recovery_byte P info :: right_align32 (der_r sig)
                        ++ right_align32 (der_s sig)) SW_OK;
        UiPostProcessing true].
Proof.
  intros Hread Hlen confirm hash sign sig info Hconfirm Hhex Hr Hs.
  rewrite (handler_withdraw_runs_to_the_encoder rb len path n root
             Hread Hlen Hconfirm Hhex).
  fold hash sign sig info.
  now rewrite (respond_with_signature_answers P sig info Hr Hs).
Qed.

End Orchestrator.

(** ** The concrete platform *)

Lemma demo_digest_length (m : list byte) : length (Demo.pad32 m) = 32%nat.
Proof.
  unfold Demo.pad32. rewrite length_firstn, length_app, repeat_length. lia.
Qed.

Lemma demo_retrieved (index : Z) :
  0 <= index < 12 -> retrieved demo_platform demo_root 12 index.
Proof.
  intros H. unfold retrieved, demo_platform, Demo.platform_of, Demo.platform_with.
  cbn [call_get_merkle_leaf_element]. unfold Demo.leaf, Demo.none_missing.
  replace (12 <=? index) with false by (symmetry; apply Z.leb_gt; lia).
  cbn [orb fst]. lia.
Qed.

(** ** The definitions at work *)

(** The concrete request runs to a 65-byte answer. *)
Example demo_request_is_signed :
  replies (events (handler_withdraw demo_platform Demo.request))
  = [Sign [] (bsm_digest_of demo_platform
                (Demo.hex (tx_hash demo_platform demo_root 12)));
     SendResponse (x1f :: repeat x11 32 ++ repeat x22 32) SW_OK].
Proof. vm_compute. reflexivity. Qed.

(** A refusal of the user ends the request before any hashing. *)
Example demo_request_denied :
  events (handler_withdraw (Demo.platform_with Demo.none_missing false false)
            Demo.request)
  = [UiResetStreamingIndex; GetScriptType 31; GetScriptAddress 31;
     UiValidate (c_str "stBTC 9.838547192930733711") (c_str "bc1q");
     SendSW SW_DENY; UiPostProcessing false].
Proof. vm_compute. reflexivity. Qed.

(** Two 33-byte DER integers lose their pad byte. *)
Example long_components_lose_their_pad :
  events (respond_with_signature demo_platform
            (of_list ([x30; x46; x02; x21; x00] ++ repeat x91 32
                      ++ [x02; x21; x00] ++ repeat xa2 32)) 1)
  = [SendResponse (x20 :: repeat x91 32 ++ repeat xa2 32) SW_OK;
     UiPostProcessing true].
Proof. vm_compute. reflexivity. Qed.

(** One unit is shown as one unit. *)
Example one_unit_shown :
  option_map shown (format_value_with_ticker demo_platform 1000000000000000000)
  = Some (c_str "stBTC 1").
Proof. vm_compute. reflexivity. Qed.

(** A fractional amount keeps its significant digits. *)
Example fraction_shown :
  option_map shown (format_value_with_ticker demo_platform 1230000000000000)
  = Some (c_str "stBTC 0.00123").
Proof. vm_compute. reflexivity. Qed.

(** * Statements of the specification *)

(** C1 (code defect).  When the signer fails, [sign_tx_hash] sends [BadState]
    and returns [-1], but [handler_withdraw] does not look at the returned
    value: on the concrete request, with a signer that fails and leaves the
    signature array cleared, the handler sends [BadState] and then a 65-byte
    response with status [Ok]. *)
Theorem failed_signing_still_answered_ok :
  exists digest,
    replies (events (handler_withdraw (Demo.platform_of Demo.none_missing true)
                       Demo.request))
    = [Sign [] digest; SendSW SW_BAD_STATE;
       SendResponse (x20 :: repeat x00 64) SW_OK].
Proof. eexists. vm_compute. reflexivity. Qed.

(** C2 (code defect).  A failed retrieval of chunk 4 during the hashing pass
    makes [fetch_and_add_chunk_to_hash] send [WrongDataLength], but the
    request goes on: on the concrete request with chunk 4 missing, the signer
    is invoked afterwards and a response with status [Ok] is sent. *)
Theorem failed_retrieval_still_signed :
  exists digest data,
    replies (events (handler_withdraw (Demo.platform_of (Demo.only 4) false)
                       Demo.request))
    = [SendSW SW_WRONG_DATA_LENGTH; Sign [] digest; SendResponse data SW_OK]
    /\ length data = 65%nat.
Proof. do 2 eexists. vm_compute. split; reflexivity. Qed.

(** C3 (code defect).  For the amount zero the trim also removes the digit
    in front of the decimal point: when the array behind the text is clear,
    the confirmation screen gets the ticker and a blank, with no [0]. *)
Theorem zero_amount_loses_its_digit (P : platform) :
  (forall i, 0 <= i < 57 -> stack_value_with_ticker P i = NUL) ->
  format_fpu64 (AMOUNT_SIZE_IN_CHARS + 1) 0 18
  = Some (c_str "0.000000000000000000")
  /\ option_map shown (format_value_with_ticker P 0) = Some (c_str "stBTC ").
Proof.
  intros H. split; [reflexivity|].
  rewrite shown_on_cleared_stack by exact H. vm_compute. reflexivity.
Qed.

Lemma zero_amount_loses_its_digit_witness :
  (forall i, 0 <= i < 57 -> stack_value_with_ticker demo_platform i = NUL)
  /\ option_map shown (format_value_with_ticker demo_platform 0)
     = Some (c_str "stBTC ").
Proof.
  split; [intros i Hi; reflexivity|].
  apply (zero_amount_loses_its_digit demo_platform). intros i Hi. reflexivity.
Defined.

(** C4, as stated, fails: the message hashed last is not 34 bytes long. *)
Lemma tx_hash_message_is_not_34_bytes :
  ~ (let message := [x19; x01] ++ domain_separator_hash demo_platform demo_root 12
                    ++ struct_hash demo_platform demo_root 12 in
     tx_hash demo_platform demo_root 12 = keccak256 demo_platform message
     /\ length message = 34%nat).
Proof. vm_compute. intros [_ H]. discriminate H. Qed.

(** C4 (amended).  The hash handed to the signing step is the Keccak-256 of
    exactly 66 bytes: [0x19 0x01], then the 32-byte domain-separator hash,
    then the 32-byte struct hash, which is the Keccak-256 of the 352-byte
    array of encoded fields. *)
Theorem tx_hash_is_keccak_of_66_bytes (P : platform) (root : list byte) (n_chunks : Z) :
  (forall m, length (keccak256 P m) = 32%nat) ->
  let message := [x19; x01] ++ domain_separator_hash P root n_chunks
                 ++ struct_hash P root n_chunks in
  tx_hash P root n_chunks = keccak256 P message
  /\ length message = 66%nat
  /\ length (domain_separator_hash P root n_chunks) = 32%nat
  /\ length (struct_hash P root n_chunks) = 32%nat
  /\ struct_hash P root n_chunks
     = keccak256 P (read (encoded_tx_fields P root n_chunks) 0 352).
Proof.
  intros H32 message.
  assert (Hd : length (domain_separator_hash P root n_chunks) = 32%nat).
  { destruct (domain_separator_hash_is_digest P root n_chunks) as [m ->]. apply H32. }
  assert (Hs : length (struct_hash P root n_chunks) = 32%nat) by apply H32.
  repeat split; try assumption.
  - rewrite tx_hash_unfold. unfold abi_encode_packed, message.
    change (Z.to_nat KECCAK_256_HASH_SIZE) with 32%nat.
    now rewrite !firstn_all2 by lia.
  - unfold message. rewrite !length_app, Hd, Hs. reflexivity.
Qed.

Lemma tx_hash_is_keccak_of_66_bytes_witness :
  (forall m, length (keccak256 demo_platform m) = 32%nat)
  /\ tx_hash demo_platform demo_root 12
     = keccak256 demo_platform
         ([x19; x01] ++ domain_separator_hash demo_platform demo_root 12
          ++ struct_hash demo_platform demo_root 12).
Proof.
  split; [exact demo_digest_length|].
  exact (proj1 (tx_hash_is_keccak_of_66_bytes demo_platform demo_root 12
                  demo_digest_length)).
Defined.

(** C5.  When chunk 4 and the chunks 5 to [n_chunks - 1] are retrieved, the
    payload hash is the Keccak-256 of the first 4 bytes of chunk 4 followed,
    for each index from 5 to [n_chunks - 1] in increasing order, by bytes
    [0,32) and then bytes [32,64) of that chunk. *)
Theorem payload_hash_is_keccak_of_selector_and_words
    (P : platform) (root : list byte) (n_chunks : Z) :
  Forall (retrieved P root n_chunks) (4 :: payload_indices n_chunks) ->
  payload_hash P root n_chunks
  = keccak256 P
      (read (chunk_of P root n_chunks 4) 0 4
       ++ flat_map (fun i => read (chunk_of P root n_chunks i) 0 32
                             ++ read (chunk_of P root n_chunks i) 32 32)
            (map (fun k => 5 + Z.of_nat k) (seq 0 (Z.to_nat (n_chunks - 5))))).
Proof. apply payload_hash_retrieved. Qed.

Lemma payload_hash_is_keccak_of_selector_and_words_witness :
  Forall (retrieved demo_platform demo_root 12) (4 :: payload_indices 12)
  /\ payload_hash demo_platform demo_root 12
     = keccak256 demo_platform (payload_message demo_platform demo_root 12).
Proof.
  assert (H : Forall (retrieved demo_platform demo_root 12)
                (4 :: payload_indices 12))
    by (repeat constructor; apply demo_retrieved; lia).
  split; [exact H|].
  exact (payload_hash_is_keccak_of_selector_and_words demo_platform demo_root 12 H).
Defined.

(** C6.  When chunks 0 to 3 are retrieved, the struct hash is the Keccak-256
    of a 352-byte array of eleven 32-byte words, in this order: the struct
    type hash, [to] (chunk 0, bytes [0,20)), [value] (chunk 1, [0,32)), the
    payload hash, [operation] (chunk 3, [0,1)), [safeTxGas] (chunk 1,
    [32,64)), [baseGas] (chunk 2, [1,33)), [gasPrice] (chunk 2, [32,64)),
    [gasToken] (chunk 0, [20,40)), [refundReceiver] (chunk 0, [40,60)) and
    [nonce] (chunk 3, [0,32)); a field shorter than 32 bytes is padded with
    zero bytes on the left, the two hashes are copied as they are. *)
Theorem struct_hash_is_keccak_of_eleven_words
    (P : platform) (root : list byte) (n_chunks : Z) :
  (forall m, length (keccak256 P m) = 32%nat) ->
  Forall (retrieved P root n_chunks) [0; 1; 2; 3] ->
  let chunk := chunk_of P root n_chunks in
  let words :=
    [ safe_tx_typehash;
      left_pad32 (read (chunk 0) 0 20);
      read (chunk 1) 0 32;
      payload_hash P root n_chunks;
      left_pad32 (read (chunk 3) 0 1);
      read (chunk 1) 32 32;
      read (chunk 2) 1 32;
      read (chunk 2) 32 32;
      left_pad32 (read (chunk 0) 20 20);
      left_pad32 (read (chunk 0) 40 20);
      read (chunk 3) 0 32 ] in
  read (encoded_tx_fields P root n_chunks) 0 352 = concat words
  /\ struct_hash P root n_chunks = keccak256 P (concat words)
  /\ Forall (fun word => length word = 32%nat) words
  /\ length (concat words) = 352%nat.
Proof.
  intros H32 Hret chunk words.
  assert (Hp : length (payload_hash P root n_chunks) = 32%nat).
  { destruct (payload_hash_is_digest P root n_chunks) as [m ->]. apply H32. }
  assert (Hfields : read (encoded_tx_fields P root n_chunks) 0 352 = concat words).
  { rewrite (encoded_tx_fields_retrieved P root n_chunks Hret Hp).
    unfold tx_fields_layout, words, chunk. cbn [concat].
    now rewrite app_nil_r. }
  assert (Hwords : Forall (fun word => length word = 32%nat) words).
  { unfold words, left_pad32.
    repeat constructor;
      rewrite ?length_app, ?repeat_length, ?read_length; try reflexivity;
      exact Hp. }
  repeat split; try assumption.
  - unfold struct_hash, hash_abi_encoded_tx_fields, cx_hash_last,
      cx_keccak_init_no_throw.
    change (Z.to_nat (FIELD_SIZE * 11)) with 352%nat. now rewrite Hfields.
  - rewrite <- Hfields. apply read_length.
Qed.

Lemma struct_hash_is_keccak_of_eleven_words_witness :
  (forall m, length (keccak256 demo_platform m) = 32%nat)
  /\ Forall (retrieved demo_platform demo_root 12) [0; 1; 2; 3]
  /\ struct_hash demo_platform demo_root 12
     = keccak256 demo_platform (tx_fields_layout demo_platform demo_root 12).
Proof.
  assert (H : Forall (retrieved demo_platform demo_root 12) [0; 1; 2; 3])
    by (repeat constructor; apply demo_retrieved; lia).
  split; [exact demo_digest_length | split; [exact H|]].
  destruct (struct_hash_is_keccak_of_eleven_words demo_platform demo_root 12
              demo_digest_length H) as (_ & Hs & _).
  rewrite Hs. unfold tx_fields_layout. cbn [concat]. now rewrite app_nil_r.
Defined.

(** C7.  When chunk 7 is retrieved, the domain-separator hash is the
    Keccak-256 of the 32-byte domain type hash, then the 32-byte big-endian
    chain identifier of the configured network, then bytes [0,32) of chunk 7. *)
Theorem domain_separator_hash_is_keccak_of_three_words
    (P : platform) (root : list byte) (n_chunks : Z) :
  retrieved P root n_chunks 7 ->
  domain_separator_hash P root n_chunks
  = keccak256 P (domain_separator_typehash ++ abi_encoded_chain_id (coin P)
                 ++ read (chunk_of P root n_chunks 7) 0 32)
  /\ length domain_separator_typehash = 32%nat
  /\ length (abi_encoded_chain_id (coin P)) = 32%nat
  /\ be_value (abi_encoded_chain_id (coin P)) = chain_id (coin P).
Proof.
  intros H7. split; [now apply domain_separator_hash_retrieved|].
  destruct (coin P); repeat split; reflexivity.
Qed.

Lemma domain_separator_hash_is_keccak_of_three_words_witness :
  retrieved demo_platform demo_root 12 7
  /\ domain_separator_hash demo_platform demo_root 12
     = keccak256 demo_platform
         (domain_separator_typehash ++ abi_encoded_chain_id COIN_VARIANT_ACRE
          ++ read (chunk_of demo_platform demo_root 12 7) 0 32).
Proof.
  assert (H : retrieved demo_platform demo_root 12 7)
    by (apply demo_retrieved; lia).
  split; [exact H|].
  exact (proj1 (domain_separator_hash_is_keccak_of_three_words
                  demo_platform demo_root 12 H)).
Defined.

(** C8.  For a DER signature whose [r] is not empty: when neither length
    exceeds 33, the handler answers with status [Ok] and exactly 65 bytes,
    byte 0 being [27 + 4 + parity], bytes 1..33 [r] and bytes 33..65 [s],
    each right-aligned on 32 bytes with zero padding and, when 33 bytes
    long, without its first byte; when a length exceeds 33 the handler sends
    [BadState] and no response. *)
Theorem signature_answer_layout (P : platform) (sig : buffer) (info : Z) :
  let r_length := b2z (sig 3) in
  let s_length := b2z (sig (4 + r_length + 1)) in
  let parity := if Z.land info (CX_ECCINFO_PARITY_ODD P) =? 0 then 0 else 1 in
  0 < r_length ->
  (r_length <= 33 -> s_length <= 33 ->
   exists data,
     events (respond_with_signature P sig info)
     = [SendResponse data SW_OK; UiPostProcessing true]
     /\ length data = 65%nat
     /\ b2z (nth 0 data x00) = 27 + 4 + parity
     /\ firstn 32 (skipn 1 data) = right_align32 (der_r sig)
     /\ skipn 33 data = right_align32 (der_s sig))
  /\ (33 < r_length \/ 33 < s_length ->
      events (respond_with_signature P sig info)
      = [SendSW SW_BAD_STATE; UiPostProcessing false]).
Proof.
  intros r_length s_length parity Hr. split.
  - intros Hr33 Hs33.
    assert (Hlr : length (right_align32 (der_r sig)) = 32%nat).
    { apply right_align32_length. unfold r_length in Hr33. lia. }
    assert (Hls : length (right_align32 (der_s sig)) = 32%nat).
    { apply right_align32_length. unfold s_length, r_length in Hs33. lia. }
    exists (recovery_byte P info :: right_align32 (der_r sig)
            ++ right_align32 (der_s sig)).
    split; [apply respond_with_signature_answers; unfold r_length in *; lia|].
    split; [cbn [length]; rewrite length_app, Hlr, Hls; reflexivity|].
    split.
    { cbn [nth]. unfold recovery_byte. fold parity.
      destruct (Z.land info (CX_ECCINFO_PARITY_ODD P) =? 0); reflexivity. }
    split.
    + rewrite (skipn_cons 0). cbn [skipn].
      rewrite firstn_app, Hlr, Nat.sub_diag, firstn_O, app_nil_r.
      apply firstn_all2. lia.
    + rewrite (skipn_cons 32).
      rewrite skipn_app, Hlr, Nat.sub_diag, skipn_all2 by lia. reflexivity.
  - intros H. apply respond_with_signature_rejects. exact H.
Qed.

Lemma signature_answer_layout_witness :
  0 < b2z (of_list Demo.der_signature 3)
  /\ events (respond_with_signature demo_platform (of_list Demo.der_signature) 0)
     = [SendResponse (x1f :: repeat x11 32 ++ repeat x22 32) SW_OK;
        UiPostProcessing true].
Proof.
  assert (H : 0 < b2z (of_list Demo.der_signature 3)) by reflexivity.
  split; [exact H|].
  destruct (signature_answer_layout demo_platform (of_list Demo.der_signature) 0 H)
    as [Hok _].
  destruct Hok as (data & Hev & _); [vm_compute; discriminate ..|].
  vm_compute. reflexivity.
Defined.

(** C9.  The only nonzero 64-bit amount whose rendering has an integer part
    ending in [0] and a fractional part of zeros is 10 units.  When the
    array behind the text is clear, the trim goes through the fractional
    zeros, the decimal point and the last digit of the integer part: the
    confirmation screen shows 1 unit. *)
Theorem ten_units_shown_as_one (P : platform) (value_u64 : Z) :
  (forall i, 0 <= i < 57 -> stack_value_with_ticker P i = NUL) ->
  0 < value_u64 < 2 ^ 64 ->
  value_u64 mod 10 ^ 18 = 0 ->
  (value_u64 / 10 ^ 18) mod 10 = 0 ->
  format_fpu64 (AMOUNT_SIZE_IN_CHARS + 1) value_u64 18
  = Some (c_str "10.000000000000000000")
  /\ option_map shown (format_value_with_ticker P value_u64)
     = Some (c_str "stBTC 1").
Proof.
  intros Hstack Hrange Hfrac Hint.
  assert (value_u64 = 10000000000000000000) as ->.
  { change (10 ^ 18) with 1000000000000000000 in *.
    change (2 ^ 64) with 18446744073709551616 in *.
    pose proof (Z.div_mod value_u64 1000000000000000000).
    pose proof (Z.div_mod (value_u64 / 1000000000000000000) 10).
    lia. }
  split; [reflexivity|].
  rewrite shown_on_cleared_stack by exact Hstack. vm_compute. reflexivity.
Qed.

Lemma ten_units_shown_as_one_witness :
  0 < 10000000000000000000 < 2 ^ 64
  /\ option_map shown (format_value_with_ticker demo_platform 10000000000000000000)
     = Some (c_str "stBTC 1").
Proof.
  split; [split; reflexivity|].
  apply (ten_units_shown_as_one demo_platform 10000000000000000000).
  - intros i Hi. reflexivity.
  - split; reflexivity.
  - reflexivity.
  - reflexivity.
Defined.

(** C10.  When the 16-bit length read from chunk 10 at bytes [30,32) is 0,
    [get_script_type] and [get_script_address] are called with the length
    [0 - 1] in [size_t], that is [SIZE_MAX]: the length is neither rejected
    nor kept at 0. *)
Theorem zero_script_length_wraps_to_SIZE_MAX
    (P : platform) (root : list byte) (n_chunks : Z) (path : list Z) (path_len : Z) :
  read_u16_be (chunk_of P root n_chunks DATA_CHUNK_INDEX_2) 30 = 0 ->
  redeemer_script_len P (chunk_of P root n_chunks DATA_CHUNK_INDEX_2)
  = 2 ^ Z.of_N (size_t_bits P) - 1
  /\ exists rest,
       events (display_data_content_and_confirm P root n_chunks path path_len)
       = UiResetStreamingIndex :: GetScriptType (SIZE_MAX P)
         :: GetScriptAddress (SIZE_MAX P) :: rest.
Proof.
  intros H0.
  pose proof (redeemer_script_len_of_zero P _ H0) as Hlen.
  split; [exact Hlen|].
  destruct (display_calls_script_helpers P root n_chunks path path_len)
    as [rest Hev].
  cbv zeta in Hev. rewrite Hlen in Hev. now exists rest.
Qed.

Lemma zero_script_length_wraps_to_SIZE_MAX_witness :
  read_u16_be (chunk_of (Demo.platform_of (Demo.only 10) false) demo_root 12
                 DATA_CHUNK_INDEX_2) 30 = 0
  /\ redeemer_script_len (Demo.platform_of (Demo.only 10) false)
       (chunk_of (Demo.platform_of (Demo.only 10) false) demo_root 12
          DATA_CHUNK_INDEX_2)
     = 4294967295.
Proof.
  split; [reflexivity|].
  exact (proj1 (zero_script_length_wraps_to_SIZE_MAX
                  (Demo.platform_of (Demo.only 10) false) demo_root 12 [] 0
                  eq_refl)).
Defined.

(** * Lemmas of the further properties *)

Lemma events_ret {A} (a : A) : events (ret a) = [].
Proof. reflexivity. Qed.

Lemma returned_ret {A} (a : A) : returned (ret a) = a.
Proof. reflexivity. Qed.

Lemma events_emit (e : event) : events (emit e) = [e].
Proof. reflexivity. Qed.

(** ** The hashing pass under failing retrievals *)

Section HashingPass.

Variable P : platform.
Variable root : list byte.
Variable n_chunks : Z.

Lemma retrieved_b_true index :
  retrieved_b P root n_chunks index = true <-> retrieved P root n_chunks index.
Proof.
  unfold retrieved_b, retrieved. rewrite negb_true_iff, Z.ltb_ge. reflexivity.
Qed.

Lemma fetch_and_add_chunk_to_hash_run ctx index off size :
  returned (fetch_and_add_chunk_to_hash P root n_chunks ctx index off size)
  = ctx ++ piece P root n_chunks index off (Z.to_nat size)
  /\ events (fetch_and_add_chunk_to_hash P root n_chunks ctx index off size)
     = notice P root n_chunks index.
Proof.
  unfold fetch_and_add_chunk_to_hash, piece, notice, retrieved_b, chunk_of.
  destruct (call_get_merkle_leaf_element P root n_chunks index) as [len c].
  cbn [fst snd]. destruct (len <? 0); cbn [negb].
  - split; [now rewrite app_nil_r | reflexivity].
  - split; reflexivity.
Qed.

Lemma hash_tx_data_loop_run count :
  forall i ctx,
    let indices := map (fun k => i + Z.of_nat k) (seq 0 count) in
    returned (hash_tx_data_loop P root n_chunks count i ctx)
    = ctx ++ flat_map (fun j => piece P root n_chunks j 0 32
                                ++ piece P root n_chunks j 32 32) indices
    /\ events (hash_tx_data_loop P root n_chunks count i ctx)
       = flat_map (notice P root n_chunks) (flat_map (fun j => [j; j]) indices).
Proof.
  induction count as [|count IH]; intros i ctx indices.
  - split; [cbn; now rewrite app_nil_r | reflexivity].
  - assert (Hind : indices = i :: map (fun k => (i + 1) + Z.of_nat k) (seq 0 count)).
    { unfold indices. cbn [seq map]. rewrite Z.add_0_r. f_equal.
      rewrite <- seq_shift, map_map. apply map_ext. intros k. lia. }
    rewrite Hind. cbn [hash_tx_data_loop].
    destruct (fetch_and_add_chunk_to_hash_run ctx i 0 32) as [R1 E1].
    split.
    + rewrite returned_bind by appends_auto. rewrite R1.
      rewrite returned_bind by appends_auto.
      destruct (fetch_and_add_chunk_to_hash_run
                  (ctx ++ piece P root n_chunks i 0 (Z.to_nat 32)) i 32 32) as [R2 _].
      rewrite R2. destruct (IH (i + 1)
        ((ctx ++ piece P root n_chunks i 0 (Z.to_nat 32))
         ++ piece P root n_chunks i 32 (Z.to_nat 32))) as [R3 _].
      rewrite R3. cbn [flat_map]. change (Z.to_nat 32) with 32%nat.
      now rewrite <- !app_assoc.
    + rewrite events_bind by appends_auto. rewrite E1, R1.
      rewrite events_bind by appends_auto.
      destruct (fetch_and_add_chunk_to_hash_run
                  (ctx ++ piece P root n_chunks i 0 (Z.to_nat 32)) i 32 32) as [R2 E2].
      rewrite E2, R2. destruct (IH (i + 1)
        ((ctx ++ piece P root n_chunks i 0 (Z.to_nat 32))
         ++ piece P root n_chunks i 32 (Z.to_nat 32))) as [_ E3].
      rewrite E3. cbn [flat_map app]. rewrite <- ?app_assoc. reflexivity.
Qed.

Lemma fetch_and_hash_tx_data_run :
  payload_hash P root n_chunks
  = keccak256 P
      (piece P root n_chunks 4 0 4
       ++ flat_map (fun i => piece P root n_chunks i 0 32
                             ++ piece P root n_chunks i 32 32)
            (payload_indices n_chunks))
  /\ events (fetch_and_hash_tx_data P root n_chunks cx_keccak_init_no_throw)
     = flat_map (notice P root n_chunks)
         (4 :: flat_map (fun i => [i; i]) (payload_indices n_chunks)).
Proof.
  unfold payload_hash, fetch_and_hash_tx_data.
  destruct (fetch_and_add_chunk_to_hash_run cx_keccak_init_no_throw 4 0 4) as [R1 E1].
  destruct (hash_tx_data_loop_run (Z.to_nat (n_chunks - 5)) 5
              (cx_keccak_init_no_throw ++ piece P root n_chunks 4 0 (Z.to_nat 4)))
    as [R2 E2].
  split.
  - rewrite returned_bind by appends_auto. rewrite R1.
    rewrite returned_bind by appends_auto. rewrite R2.
    unfold returned, ret, cx_hash_last, cx_keccak_init_no_throw, payload_indices.
    cbn [fst app]. now rewrite app_nil_r.
  - rewrite events_bind by appends_auto. rewrite E1, R1.
    rewrite events_bind by appends_auto. rewrite E2.
    rewrite events_ret. cbn [flat_map]. now rewrite app_nil_r.
Qed.

Lemma compute_domain_separator_hash_run :
  domain_separator_hash P root n_chunks
  = keccak256 P (domain_separator_typehash ++ abi_encoded_chain_id (coin P)
                 ++ piece P root n_chunks 7 0 32)
  /\ events (compute_domain_separator_hash P root n_chunks)
     = notice P root n_chunks 7.
Proof.
  unfold domain_separator_hash, compute_domain_separator_hash.
  match goal with
  | |- context [fetch_and_add_chunk_to_hash P root n_chunks ?c 7 0 32] =>
      destruct (fetch_and_add_chunk_to_hash_run c 7 0 32) as [R E]
  end.
  split.
  - rewrite returned_bind by appends_auto. rewrite R.
    unfold returned, ret, cx_hash_last, cx_hash_update, cx_keccak_init_no_throw.
    cbn [fst app]. now rewrite app_nil_r, <- app_assoc.
  - rewrite events_bind by appends_auto. rewrite E.
    rewrite events_ret. now rewrite app_nil_r.
Qed.

End HashingPass.

Section EncodedFields.

Variable P : platform.
Variable root : list byte.
Variable n_chunks : Z.

Lemma fetch_and_add_chunk_to_buffer_run index off size out out_off :
  returned (fetch_and_add_chunk_to_buffer P root n_chunks index off size out out_off)
  = (if retrieved_b P root n_chunks index
     then write out out_off
            (if size <? 32
             then read (add_leading_zeroes zeroed 32
                          (shift (chunk_of P root n_chunks index) off) size) 0 32
             else read (write zeroed 0
                          (read (chunk_of P root n_chunks index) off (Z.to_nat size)))
                    0 (Z.to_nat size))
     else out)
  /\ events (fetch_and_add_chunk_to_buffer P root n_chunks index off size out out_off)
     = notice P root n_chunks index.
Proof.
  unfold fetch_and_add_chunk_to_buffer, notice, retrieved_b, chunk_of.
  destruct (call_get_merkle_leaf_element P root n_chunks index) as [len c].
  cbn [fst snd]. destruct (len <? 0); cbn [negb].
  - split; reflexivity.
  - destruct (size <? 32); split; reflexivity.
Qed.

Lemma read_if_write_other (c : bool) (b : buffer) (off off' : Z)
    (d : list byte) (len : nat) :
  off' + Z.of_nat len <= off \/ off + Z.of_nat (length d) <= off' ->
  read (if c then write b off d else b) off' len = read b off' len.
Proof. intros H. destruct c; [now apply read_write_other | reflexivity]. Qed.

Lemma read_if_write_same (c : bool) (b : buffer) (off : Z) (d : list byte)
    (len : nat) :
  length d = len ->
  read (if c then write b off d else b) off len
  = if c then d else read b off len.
Proof. intros H. destruct c; [now apply read_write_exact | reflexivity]. Qed.

Lemma fetch_and_abi_encode_tx_fields_log data_hash out :
  events (fetch_and_abi_encode_tx_fields P root n_chunks data_hash out
            (FIELD_SIZE * 11))
  = flat_map (notice P root n_chunks) [0; 1; 3; 1; 2; 2; 0; 0; 3].
Proof.
  unfold fetch_and_abi_encode_tx_fields.
  change (FIELD_SIZE * 11 <? FIELD_SIZE * 11) with false. cbv iota zeta.
  repeat (rewrite events_bind by appends_auto;
          rewrite (proj2 (fetch_and_add_chunk_to_buffer_run _ _ _ _ _))).
  rewrite events_ret. cbn [flat_map]. now rewrite <- ?app_assoc, ?app_nil_r.
Qed.

Lemma read_apply_writes_other (ws : list (bool * Z * list byte)) :
  forall b k,
    Forall (fun e => length (snd e) = 32%nat) ws ->
    ~ In k (map (fun e => snd (fst e)) ws) ->
    read (apply_writes b ws) (32 * k) 32 = read b (32 * k) 32.
Proof.
  induction ws as [|[[c j] d] rest IH]; intros b k Hlen Hk; [reflexivity|].
  cbn [apply_writes]. inversion Hlen as [|? ? Hd Hrest]; subst. cbn [snd] in Hd.
  cbn [map fst snd In] in Hk.
  rewrite IH by (try assumption; intros H; apply Hk; now right).
  apply read_if_write_other. rewrite Hd.
  assert (j <> k) by (intros ->; apply Hk; now left). lia.
Qed.

Lemma read_apply_writes_at (ws : list (bool * Z * list byte)) :
  forall b c k d,
    Forall (fun e => length (snd e) = 32%nat) ws ->
    NoDup (map (fun e => snd (fst e)) ws) ->
    In (c, k, d) ws ->
    read (apply_writes b ws) (32 * k) 32
    = if c then d else read b (32 * k) 32.
Proof.
  induction ws as [|[[c' j] d'] rest IH]; intros b c k d Hlen Hnd Hin;
    [contradiction|].
  cbn [apply_writes]. inversion Hlen as [|? ? Hd Hrest]; subst. cbn [snd] in Hd.
  cbn [map fst snd] in Hnd. inversion Hnd as [|? ? Hj Hnd']; subst.
  destruct Hin as [E|Hin].
  - inversion E; subst. rewrite read_apply_writes_other by assumption.
    now apply read_if_write_same.
  - rewrite (IH _ c k d) by assumption.
    assert (j <> k).
    { intros ->. apply Hj. apply in_map_iff. now exists (c, k, d). }
    rewrite read_if_write_other by (rewrite Hd; lia). reflexivity.
Qed.

Lemma encoded_tx_fields_run :
  length (payload_hash P root n_chunks) = 32%nat ->
  let chunk := chunk_of P root n_chunks in
  read (encoded_tx_fields P root n_chunks) 0 352
  = concat
      [ safe_tx_typehash;
        slot P root n_chunks 0 32 (left_pad32 (read (chunk 0) 0 20));
        slot P root n_chunks 1 64 (read (chunk 1) 0 32);
        payload_hash P root n_chunks;
        slot P root n_chunks 3 128 (left_pad32 (read (chunk 3) 0 1));
        slot P root n_chunks 1 160 (read (chunk 1) 32 32);
        slot P root n_chunks 2 192 (read (chunk 2) 1 32);
        slot P root n_chunks 2 224 (read (chunk 2) 32 32);
        slot P root n_chunks 0 256 (left_pad32 (read (chunk 0) 20 20));
        slot P root n_chunks 0 288 (left_pad32 (read (chunk 0) 40 20));
        slot P root n_chunks 3 320 (read (chunk 3) 0 32) ].
Proof.
  intros Hlen chunk.
  set (r := retrieved_b P root n_chunks).
  set (ws :=
    [ (true, 0, safe_tx_typehash);
      (r 0, 1, left_pad32 (read (chunk 0) 0 20));
      (r 1, 2, read (chunk 1) 0 32);
      (true, 3, payload_hash P root n_chunks);
      (r 3, 4, left_pad32 (read (chunk 3) 0 1));
      (r 1, 5, read (chunk 1) 32 32);
      (r 2, 6, read (chunk 2) 1 32);
      (r 2, 7, read (chunk 2) 32 32);
      (r 0, 8, left_pad32 (read (chunk 0) 20 20));
      (r 0, 9, left_pad32 (read (chunk 0) 40 20));
      (r 3, 10, read (chunk 3) 0 32) ]).
  assert (Hbuf : encoded_tx_fields P root n_chunks
                 = apply_writes (stack_abi_encoded_tx_fields P) ws).
  { unfold encoded_tx_fields, fetch_and_abi_encode_tx_fields.
    change (FIELD_SIZE * 11 <? FIELD_SIZE * 11) with false. cbv iota zeta.
    repeat (rewrite returned_bind by appends_auto;
            rewrite (proj1 (fetch_and_add_chunk_to_buffer_run _ _ _ _ _))).
    rewrite returned_ret. cbn [snd].
    unfold FIELD_SIZE, ADDRESS_SIZE_IN_BYTES.
    change (Z.to_nat 32) with 32%nat.
    change (20 <? 32) with true. change (1 <? 32) with true.
    change (32 <? 32) with false. cbv iota.
    rewrite (firstn_all2 (n := 32) (payload_hash P root n_chunks)) by lia.
    rewrite !left_pad32_read by lia.
    rewrite !read_write_exact by apply read_length.
    reflexivity. }
  assert (Hws : Forall (fun e => length (snd e) = 32%nat) ws).
  { unfold ws, left_pad32.
    repeat constructor; cbn [snd];
      rewrite ?length_app, ?repeat_length, ?read_length; try reflexivity;
      exact Hlen. }
  assert (Hnd : NoDup (map (fun e => snd (fst e)) ws)).
  { unfold ws. cbn [map fst snd].
    repeat (constructor; [cbn [In]; intuition discriminate|]). constructor. }
  assert (Hword : forall c k d, In (c, k, d) ws ->
            read (encoded_tx_fields P root n_chunks) (32 * k) 32
            = if c then d else read (stack_abi_encoded_tx_fields P) (32 * k) 32).
  { intros c k d Hin. rewrite Hbuf. now apply read_apply_writes_at. }
  change 352%nat with (32 + (32 + (32 + (32 + (32 + (32 + (32 + (32 + (32 + (32 + 32))))))))))%nat.
  repeat rewrite read_app.
  repeat match goal with
  | |- context [read _ (?x + ?y) _] =>
      let v := eval vm_compute in (x + y) in change (x + y) with v
  end.
  assert (Hall : Forall (fun e : bool * Z * list byte =>
            read (encoded_tx_fields P root n_chunks) (32 * snd (fst e)) 32
            = if fst (fst e) then snd e
              else read (stack_abi_encoded_tx_fields P) (32 * snd (fst e)) 32) ws).
  { apply Forall_forall. intros [[c k] d] Hin. now apply Hword. }
  unfold ws in Hall. cbn [fst snd] in Hall.
  repeat match type of Hall with
  | Forall _ (_ :: _) =>
      let H := fresh "Hw" in
      inversion Hall as [|? ? H Hall']; subst; clear Hall; rename Hall' into Hall;
      match type of H with
      | context [32 * ?k] =>
          let v := eval vm_compute in (32 * k) in change (32 * k) with v in H
      end;
      rewrite H; clear H
  end.
  unfold slot. fold r. cbn [concat]. now rewrite app_nil_r.
Qed.

Lemma compute_tx_hash_log out :
  events (compute_tx_hash P root n_chunks out)
  = flat_map (notice P root n_chunks) (fetch_order n_chunks).
Proof.
  unfold compute_tx_hash.
  rewrite events_bind by appends_auto.
  rewrite (proj2 (fetch_and_hash_tx_data_run P root n_chunks)).
  fold (payload_hash P root n_chunks).
  rewrite events_bind by appends_auto.
  rewrite fetch_and_abi_encode_tx_fields_log.
  pose proof (fetch_and_abi_encode_tx_fields_succeeds P root n_chunks
                (payload_hash P root n_chunks) (stack_abi_encoded_tx_fields P)) as Hok.
  destruct (returned (fetch_and_abi_encode_tx_fields P root n_chunks _ _ _))
    as [ok fields].
  cbn [fst] in Hok. subst ok. cbn [negb].
  rewrite events_bind by appends_auto.
  rewrite (proj2 (compute_domain_separator_hash_run P root n_chunks)).
  rewrite events_ret, app_nil_r.
  unfold fetch_order. cbn [flat_map]. rewrite !flat_map_app. cbn [flat_map].
  now rewrite <- ?app_assoc, ?app_nil_r.
Qed.

Lemma compute_tx_hash_returned out :
  returned (compute_tx_hash P root n_chunks out)
  = keccak256 P (abi_encode_packed (domain_separator_hash P root n_chunks)
                   (struct_hash P root n_chunks)).
Proof.
  unfold compute_tx_hash.
  rewrite returned_bind by appends_auto.
  rewrite returned_bind by appends_auto.
  fold (payload_hash P root n_chunks).
  pose proof (fetch_and_abi_encode_tx_fields_succeeds P root n_chunks
                (payload_hash P root n_chunks) (stack_abi_encoded_tx_fields P)) as Hok.
  unfold struct_hash, encoded_tx_fields.
  destruct (returned (fetch_and_abi_encode_tx_fields P root n_chunks _ _ _))
    as [ok fields].
  simpl in Hok. subst ok. cbn [negb snd].
  rewrite returned_bind by appends_auto.
  reflexivity.
Qed.

End EncodedFields.

(** ** The log of a request *)

Section RequestLog.

Variable P : platform.

Lemma display_data_content_and_confirm_run root n path len :
  let l := script_len_of P root n in
  let address := snd (script_address_of P root n) in
  let text := amount_text P root n in
  events (display_data_content_and_confirm P root n path len)
  = UiResetStreamingIndex :: GetScriptType l :: GetScriptAddress l
    :: (if address_accepted P root n path len
        then [UiValidate text address]
        else [SendSW SW_INCORRECT_DATA; UiPostProcessing false])
  /\ returned (display_data_content_and_confirm P root n path len)
     = address_accepted P root n path len
       && ui_validate_withdraw_data_and_confirm P text address.
Proof.
  intros l address text.
  unfold display_data_content_and_confirm, text, amount_text, address,
    address_accepted, script_type_of, script_address_of, l, script_len_of,
    script_of, chunk_of.
  destruct (format_fpu64_fits
              (read_u64_be (snd (call_get_merkle_leaf_element P root n
                                   DATA_CHUNK_INDEX_1)) (CHUNK_SECOND_PART + 24)))
    as [value Hvalue].
  unfold format_value_with_ticker. rewrite Hvalue.
  destruct (get_script_address P _ _) as [alen addr]. cbn [fst snd].
  unfold events, returned, bind, emit, ret.
  destruct (_ || _); cbn [negb andb fst snd app]; [split; reflexivity|].
  destruct (check_address P path len addr _ _); cbn [negb fst snd app];
    split; reflexivity.
Qed.

Lemma appends_confirmation root n path len :
  appends (confirmation P root n path len).
Proof. unfold confirmation. appends_auto. apply appends_display_data_content_and_confirm. Qed.

(** The log of the handler, branch by branch. *)
Lemma handler_withdraw_log rb :
  events (handler_withdraw P rb)
  = match read_request P rb with
    | None => [SendSW SW_WRONG_DATA_LENGTH; UiPostProcessing false]
    | Some (len, path, n, root) =>
        if len >? MAX_BIP32_PATH_STEPS P
        then [SendSW SW_INCORRECT_DATA; UiPostProcessing false]
        else
          let confirm := confirmation P root n path len in
          let hash := compute_tx_hash P root (to_size_t P n) (stack_tx_hash P) in
          let sign := sign_tx_hash P path len (snd (format_hex P (returned hash))) in
          events confirm
          ++ (if returned confirm
              then events hash
                   ++ (if fst (format_hex P (returned hash)) =? 0
                       then [SendSW SW_BAD_STATE; UiPostProcessing false]
                       else events sign
                            ++ events (respond_with_signature P
                                         (snd (returned sign)) (fst (returned sign))))
              else [SendSW SW_DENY; UiPostProcessing false])
    end.
Proof.
  unfold handler_withdraw.
  destruct (read_request P rb) as [[[[len path] n] root]|]; [|reflexivity].
  destruct (len >? MAX_BIP32_PATH_STEPS P); [reflexivity|]. cbv zeta.
  fold (confirmation P root n path len).
  rewrite events_bind;
    [|apply appends_confirmation
     |intros a; appends_auto;
      first [apply appends_compute_tx_hash | apply appends_sign_tx_hash
            | apply appends_respond_with_signature]].
  f_equal. destruct (returned (confirmation P root n path len)); cbn [negb];
    [|reflexivity].
  rewrite events_bind;
    [|apply appends_compute_tx_hash
     |intros a; appends_auto;
      first [apply appends_sign_tx_hash | apply appends_respond_with_signature]].
  f_equal.
  destruct (format_hex P (returned (compute_tx_hash P root (to_size_t P n)
                                      (stack_tx_hash P)))) as [written text].
  cbn [fst snd]. destruct (written =? 0); [reflexivity|].
  rewrite events_bind;
    [|apply appends_sign_tx_hash
     |intros a; appends_auto; apply appends_respond_with_signature].
  f_equal. destruct (returned (sign_tx_hash P path len text)) as [info sig].
  reflexivity.
Qed.

End RequestLog.

(** ** Shapes of the logs *)

Lemma statuses_app (a b : list event) :
  statuses (a ++ b) = statuses a ++ statuses b.
Proof. unfold statuses. apply flat_map_app. Qed.

Lemma notified_app (a b : list event) :
  notified a = true -> notified (a ++ b) = notified b.
Proof.
  remember (length a) as k eqn:Hk.
  revert a Hk. induction k as [k IH] using lt_wf_ind. intros a Hk Ha.
  destruct a as [|e a]; [reflexivity|].
  destruct e; cbn [notified app] in *;
    try (apply (IH (length a)); [subst k; cbn [length]; lia | reflexivity | exact Ha]).
  - destruct a as [|e a]; [discriminate|].
    destruct e as [| |flag| | | | | |]; try discriminate.
    destruct flag; try discriminate. cbn [app].
    apply (IH (length a)); [subst k; cbn [length]; lia | reflexivity | exact Ha].
  - destruct a as [|e a]; [discriminate|].
    destruct e as [| |flag| | | | | |]; try discriminate.
    destruct flag; try discriminate. cbn [app].
    apply (IH (length a)); [subst k; cbn [length]; lia | reflexivity | exact Ha].
Qed.

Lemma notified_app_true (a b : list event) :
  notified a = true -> notified b = true -> notified (a ++ b) = true.
Proof. intros Ha Hb. now rewrite notified_app. Qed.

Section Shapes.

Variable P : platform.

Lemma notice_cases root n index :
  notice P root n index = []
  \/ notice P root n index = [SendSW SW_WRONG_DATA_LENGTH; UiPostProcessing false].
Proof. unfold notice. destruct (retrieved_b P root n index); auto. Qed.

Lemma quiet_notices root n (indices : list Z) :
  forallb quiet (flat_map (notice P root n) indices) = true.
Proof.
  induction indices as [|i indices IH]; [reflexivity|].
  cbn [flat_map]. rewrite forallb_app, IH.
  destruct (notice_cases root n i) as [-> | ->]; reflexivity.
Qed.

Lemma notified_notices root n (indices : list Z) :
  notified (flat_map (notice P root n) indices) = true.
Proof.
  induction indices as [|i indices IH]; [reflexivity|].
  cbn [flat_map]. apply notified_app_true; [|exact IH].
  destruct (notice_cases root n i) as [-> | ->]; reflexivity.
Qed.

Lemma quiet_confirmation root n path len :
  forallb quiet (events (confirmation P root n path len)) = true.
Proof.
  unfold confirmation. destruct (autoapprove P); [reflexivity|].
  destruct (display_data_content_and_confirm_run P root (to_size_t P n) path len)
    as [-> _].
  destruct (address_accepted P root (to_size_t P n) path len); reflexivity.
Qed.

Lemma notified_confirmation root n path len :
  notified (events (confirmation P root n path len)) = true.
Proof.
  unfold confirmation. destruct (autoapprove P); [reflexivity|].
  destruct (display_data_content_and_confirm_run P root (to_size_t P n) path len)
    as [-> _].
  destruct (address_accepted P root (to_size_t P n) path len); reflexivity.
Qed.

Lemma sign_tx_hash_run path len tx_hash_str :
  let digest := bsm_digest_of P tx_hash_str in
  let signed := crypto_ecdsa_sign_sha256_hash_with_key P path len digest in
  events (sign_tx_hash P path len tx_hash_str)
  = (if autoapprove P then [] else [UiPreProcessing])
    ++ Sign path digest
       :: (if fst (fst signed) <? 0
           then [SendSW SW_BAD_STATE; UiPostProcessing false] else [])
  /\ returned (sign_tx_hash P path len tx_hash_str)
     = (if fst (fst signed) <? 0 then to_uint32 (-1) else to_uint32 (snd signed),
        snd (fst signed)).
Proof.
  intros digest signed. unfold sign_tx_hash. fold digest. fold signed.
  destruct signed as [[sig_len sig] info]. cbn [fst snd].
  unfold events, returned, bind, emit, ret.
  destruct (autoapprove P), (sig_len <? 0); split; reflexivity.
Qed.

Lemma respond_with_signature_shape sig info :
  events (respond_with_signature P sig info)
  = [SendSW SW_BAD_STATE; UiPostProcessing false]
  \/ (b2z (sig 3) <= 33 /\ b2z (sig (4 + b2z (sig 3) + 1)) <= 33
      /\ exists data, length data = 65%nat
         /\ events (respond_with_signature P sig info)
            = [SendResponse data SW_OK; UiPostProcessing true]).
Proof.
  unfold respond_with_signature.
  destruct (Z.gtb_spec (b2z (sig 3)) 33); [left; reflexivity|].
  destruct (Z.gtb_spec (b2z (sig (4 + b2z (sig 3) + 1))) 33); [left; reflexivity|].
  right. cbn [orb]. split; [lia|]. split; [lia|].
  eexists. split; [|reflexivity]. apply read_length.
Qed.

End Shapes.

(** ** Strings, lengths and the trim in general *)

Lemma bytes_eqb_eq (a b : list byte) : bytes_eqb a b = true <-> a = b.
Proof.
  revert b. induction a as [|x a IH]; intros [|y b]; cbn [bytes_eqb];
    try (split; [discriminate | intros [=]]); [tauto|].
  rewrite andb_true_iff, IH. split.
  - intros [E ->]. apply Byte.byte_dec_bl in E. now subst.
  - intros [= -> ->]. split; [apply Byte.byte_dec_lb|]; reflexivity.
Qed.

Lemma read_u16_be_range (b : buffer) (off : Z) :
  0 <= read_u16_be b off < 65536.
Proof.
  unfold read_u16_be, be_value. cbn [read seq map fold_left].
  pose proof (b2z_range (b (off + Z.of_nat 0))).
  pose proof (b2z_range (b (off + Z.of_nat 1))). lia.
Qed.

Lemma to_size_t_small (P : platform) (z : Z) :
  0 <= z < 2 ^ Z.of_N (size_t_bits P) -> to_size_t P z = z.
Proof.
  intros H. unfold to_size_t, SIZE_MAX.
  replace (2 ^ Z.of_N (size_t_bits P) - 1 + 1) with (2 ^ Z.of_N (size_t_bits P)) by lia.
  now apply Z.mod_small.
Qed.

Lemma trim_scan_unique (b : buffer) (n m : nat) :
  (m <= n)%nat ->
  (forall j, (m < j <= n)%nat -> is_trimmed (b (Z.of_nat j)) = true) ->
  is_trimmed (b (Z.of_nat m)) = false ->
  trim_scan b n = m.
Proof.
  intros Hm Habove Hat.
  pose proof (trim_scan_le b n) as Hle.
  pose proof (trim_scan_above b n m) as Hup.
  destruct (trim_scan_stop b n) as [H0|Hstop].
  - destruct (Nat.eq_dec m 0) as [->|Hne]; [exact H0|].
    rewrite Hup in Hat by lia. discriminate Hat.
  - destruct (Nat.lt_trichotomy (trim_scan b n) m) as [Hlt|[E|Hgt]];
      [|exact E|].
    + rewrite Hup in Hat by lia. discriminate Hat.
    + rewrite Habove in Hstop by lia. discriminate Hstop.
Qed.

Lemma read_write_prefix (stack : buffer) (s tail : list byte) (k : nat) :
  (k <= length s)%nat -> read (write stack 0 (s ++ tail)) 0 k = firstn k s.
Proof.
  intros Hk. apply list_eq_nth.
  - rewrite read_length, length_firstn. lia.
  - intros j Hj. rewrite read_length in Hj. rewrite read_nth by exact Hj.
    rewrite write_inside by (rewrite length_app; lia).
    replace (Z.to_nat (0 + Z.of_nat j - 0)) with j by lia.
    rewrite app_nth1 by lia. rewrite nth_firstn.
    destruct (Nat.ltb_spec j k); [reflexivity | lia].
Qed.

(** The text on the screen, from the index the trim loop stops at. *)
Lemma shown_of_trim_scan (stack : buffer) (value : list byte) :
  Forall (fun c => c <> NUL) value ->
  (length value <= 50)%nat ->
  let s := c_str "stBTC " ++ value in
  let i := trim_scan (snprintf_stBTC stack sizeof_value_with_ticker value) 56 in
  (5 <= i <= 56)%nat
  /\ (i <> length s)
  /\ shown (trim_value_with_ticker
              (snprintf_stBTC stack sizeof_value_with_ticker value))
     = if (i <? length s)%nat then firstn (S i) s else s.
Proof.
  intros Hplain Hlen s i.
  assert (HL : (6 <= length s <= 56)%nat).
  { unfold s. rewrite length_app. change (length (c_str "stBTC ")) with 6%nat. lia. }
  set (B0 := write stack 0 (s ++ [NUL])).
  assert (HB : snprintf_stBTC stack sizeof_value_with_ticker value = B0).
  { unfold snprintf_stBTC.
    change (Z.to_nat (sizeof_value_with_ticker - 1)) with 56%nat.
    fold s. now rewrite (firstn_all2 (n := 56) s) by lia. }
  subst i. rewrite HB. clear HB. set (i := trim_scan B0 56).
  assert (Hs : Forall (fun c => c <> NUL) s).
  { unfold s. apply Forall_app. split; [|exact Hplain].
    repeat constructor; intros E; discriminate E. }
  assert (HB0 : forall k, (k < length s)%nat -> B0 (Z.of_nat k) = nth k s x00).
  { intros k Hk. unfold B0. rewrite write_inside by (rewrite length_app; lia).
    rewrite Z.sub_0_r, Nat2Z.id. now apply app_nth1. }
  assert (HB0nul : B0 (Z.of_nat (length s)) = NUL).
  { unfold B0. rewrite write_inside by (rewrite length_app; cbn [length]; lia).
    rewrite Z.sub_0_r, Nat2Z.id, app_nth2, Nat.sub_diag by lia. reflexivity. }
  assert (Hnn : forall k, (k < length s)%nat -> B0 (Z.of_nat k) <> NUL).
  { intros k Hk. rewrite HB0 by exact Hk.
    rewrite Forall_nth in Hs. now apply Hs. }
  assert (H5 : is_trimmed (B0 (Z.of_nat 5)) = false).
  { rewrite HB0 by lia. unfold s. rewrite app_nth1; [reflexivity|].
    change (length (c_str "stBTC ")) with 6%nat. lia. }
  pose proof (trim_scan_le B0 56) as Hi56.
  pose proof (trim_scan_stop B0 56) as Hstop.
  pose proof (trim_scan_above B0 56 5) as Habove.
  fold i in Hi56, Hstop, Habove.
  assert (Hi5 : (5 <= i)%nat).
  { destruct (Nat.le_gt_cases 5 i) as [|Hlt]; [assumption|].
    rewrite Habove in H5 by lia. discriminate H5. }
  destruct Hstop as [Hstop|Hstop]; [lia|].
  assert (Hne : i <> length s).
  { intros E. rewrite E, HB0nul in Hstop. discriminate Hstop. }
  split; [lia|]. split; [exact Hne|].
  unfold shown, trim_value_with_ticker.
  change (sizeof_value_with_ticker - 1) with 56.
  change (Z.to_nat sizeof_value_with_ticker) with 57%nat.
  change (Z.to_nat 56) with 56%nat. fold i.
  destruct (Nat.ltb_spec i (length s)) as [Hin|Hout].
  - replace (Z.of_nat i <? 56) with true by (symmetry; apply Z.ltb_lt; lia).
    rewrite (cstring_read _ (S i)).
    + rewrite read_write_other by (cbn [length]; lia).
      apply read_write_prefix. lia.
    + lia.
    + intros k Hk. rewrite write_outside by (cbn [length]; lia).
      rewrite Z.add_0_l. apply Hnn. lia.
    + rewrite write_inside by (cbn [length]; lia).
      replace (Z.to_nat (0 + Z.of_nat (S i) - (Z.of_nat i + 1))) with 0%nat by lia.
      reflexivity.
  - assert (Hsame : forall k, (k <= length s)%nat ->
              (if Z.of_nat i <? 56 then write B0 (Z.of_nat i + 1) [NUL] else B0)
                (0 + Z.of_nat k) = B0 (Z.of_nat k)).
    { intros k Hk. rewrite Z.add_0_l. destruct (_ <? 56); [|reflexivity].
      apply write_outside. cbn [length]. lia. }
    rewrite (cstring_read _ (length s)).
    + apply read_of_nth. intros k Hk. rewrite Hsame by lia. now apply HB0.
    + lia.
    + intros k Hk. rewrite Hsame by lia. now apply Hnn.
    + rewrite Hsame by lia. exact HB0nul.
Qed.

Lemma nth_last (l : list byte) (d : byte) :
  nth (length l - 1) l d = last l d.
Proof.
  induction l as [|x l IH]; [reflexivity|].
  destruct l as [|y l]; [reflexivity|].
  cbn [length last] in *. rewrite <- IH.
  replace (S (S (length l)) - 1)%nat with (S (S (length l) - 1))%nat by lia.
  reflexivity.
Qed.

(** ** What a log can hold *)

Section Members.

Variable P : platform.

Lemma in_notices root n (indices : list Z) (e : event) :
  In e (flat_map (notice P root n) indices) ->
  e = SendSW SW_WRONG_DATA_LENGTH \/ e = UiPostProcessing false.
Proof.
  intros H. apply in_flat_map in H. destruct H as (i & _ & H).
  destruct (notice_cases P root n i) as [E|E]; rewrite E in H;
    cbn [In] in H; intuition auto.
Qed.

Lemma in_confirmation root n path len (e : event) :
  In e (events (confirmation P root n path len)) ->
  e = UiResetStreamingIndex
  \/ e = GetScriptType (script_len_of P root (to_size_t P n))
  \/ e = GetScriptAddress (script_len_of P root (to_size_t P n))
  \/ e = SendSW SW_INCORRECT_DATA
  \/ e = UiPostProcessing false
  \/ (autoapprove P = false
      /\ address_accepted P root (to_size_t P n) path len = true
      /\ e = UiValidate (amount_text P root (to_size_t P n))
               (snd (script_address_of P root (to_size_t P n)))).
Proof.
  unfold confirmation. destruct (autoapprove P); [intros []|].
  destruct (display_data_content_and_confirm_run P root (to_size_t P n) path len)
    as [-> _].
  destruct (address_accepted P root (to_size_t P n) path len);
    cbn [In]; intuition auto.
Qed.

Lemma returned_confirmation root n path len :
  returned (confirmation P root n path len) = true
  <-> autoapprove P = true
      \/ (address_accepted P root (to_size_t P n) path len = true
          /\ ui_validate_withdraw_data_and_confirm P
               (amount_text P root (to_size_t P n))
               (snd (script_address_of P root (to_size_t P n))) = true).
Proof.
  unfold confirmation. destruct (autoapprove P).
  - split; [now left | reflexivity].
  - destruct (display_data_content_and_confirm_run P root (to_size_t P n) path len)
      as [_ ->].
    rewrite andb_true_iff. split; [now right | intros [[=]|H]; exact H].
Qed.

Lemma in_sign_tx_hash path len tx_hash_str (e : event) :
  In e (events (sign_tx_hash P path len tx_hash_str)) ->
  e = UiPreProcessing
  \/ e = Sign path (bsm_digest_of P tx_hash_str)
  \/ e = SendSW SW_BAD_STATE
  \/ e = UiPostProcessing false.
Proof.
  destruct (sign_tx_hash_run P path len tx_hash_str) as [-> _].
  destruct (autoapprove P), (_ <? 0); cbn [In app]; intuition auto.
Qed.

Lemma in_respond_with_signature sig info (e : event) :
  In e (events (respond_with_signature P sig info)) ->
  e = SendSW SW_BAD_STATE
  \/ e = UiPostProcessing false
  \/ e = UiPostProcessing true
  \/ exists data, e = SendResponse data SW_OK /\ length data = 65%nat.
Proof.
  destruct (respond_with_signature_shape P sig info)
    as [-> | (_ & _ & data & Hlen & ->)]; cbn [In]; intuition eauto.
Qed.

Lemma quiet_filters (log : list event) :
  forallb quiet log = true ->
  filter is_sign log = [] /\ filter is_response log = [].
Proof.
  induction log as [|e log IH]; [now split|].
  cbn [forallb filter]. rewrite andb_true_iff. intros [He Hlog].
  destruct (IH Hlog) as [-> ->].
  unfold quiet in He. rewrite andb_true_iff, !negb_true_iff in He.
  destruct He as [-> ->]. now split.
Qed.

Lemma quiet_compute_tx_hash root n out :
  forallb quiet (events (compute_tx_hash P root n out)) = true.
Proof. rewrite compute_tx_hash_log. apply quiet_notices. Qed.

Lemma notified_compute_tx_hash root n out :
  notified (events (compute_tx_hash P root n out)) = true.
Proof. rewrite compute_tx_hash_log. apply notified_notices. Qed.

Lemma notified_sign_tx_hash path len tx_hash_str :
  notified (events (sign_tx_hash P path len tx_hash_str)) = true.
Proof.
  destruct (sign_tx_hash_run P path len tx_hash_str) as [-> _].
  destruct (autoapprove P), (_ <? 0); reflexivity.
Qed.

Lemma notified_respond_with_signature sig info :
  notified (events (respond_with_signature P sig info)) = true.
Proof.
  destruct (respond_with_signature_shape P sig info)
    as [-> | (_ & _ & data & Hlen & ->)]; reflexivity.
Qed.

Lemma final_status_app (a b : list event) :
  statuses b <> [] -> final_status (a ++ b) = final_status b.
Proof.
  intros Hb. unfold final_status. rewrite statuses_app, map_app.
  destruct (statuses b) as [|sw rest] eqn:E; [contradiction|].
  clear. induction (map Some (statuses a)) as [|x l IH]; [reflexivity|].
  cbn [app]. change (last (x :: l ++ map Some (sw :: rest)) None)
    with (match l ++ map Some (sw :: rest) with
          | [] => x
          | _ :: _ => last (l ++ map Some (sw :: rest)) None
          end).
  destruct (l ++ map Some (sw :: rest)) eqn:E; [|exact IH].
  apply app_eq_nil in E. destruct E as [_ E]. discriminate E.
Qed.

End Members.

(** ** Further examples *)

(** With chunk 1 out of reach, words 2 and 5 of the encoded transaction are
    what the array held before. *)
Example stale_words_are_hashed :
  read (encoded_tx_fields demo_stale_stack demo_root 12) 64 32 = repeat xee 32
  /\ read (encoded_tx_fields demo_stale_stack demo_root 12) 160 32 = repeat xee 32.
Proof. split; vm_compute; reflexivity. Qed.

(** An empty [r] before a 33-byte [s]: the first byte of [s] stays in the
    half of [r]. *)
Example empty_r_keeps_the_first_byte_of_s :
  events (respond_with_signature demo_platform
            (of_list ([x30; x25; x02; x00; x02; x21; xaa] ++ repeat x22 32)) 0)
  = [SendResponse (x1f :: repeat x00 31 ++ [xaa] ++ repeat x22 32) SW_OK;
     UiPostProcessing true].
Proof. vm_compute. reflexivity. Qed.

(** * Further properties of the code *)

Ltac in_list :=
  repeat match goal with
         | |- _ \/ _ => first [left; reflexivity | right]
         end.

(** X1.  The payload hash, whatever the retrievals do: the Keccak-256 of
    four bytes of chunk 4 and of both halves of the chunks [5] to
    [n_chunks - 1], in that order, in which every piece whose retrieval
    failed is missing.  A failed retrieval shortens the hashed message; it
    does not stop the hash. *)
Theorem payload_hash_skips_failed_retrievals (P : platform) (root : list byte)
    (n_chunks : Z) :
  payload_hash P root n_chunks
  = keccak256 P
      (piece P root n_chunks 4 0 4
       ++ flat_map (fun i => piece P root n_chunks i 0 32
                             ++ piece P root n_chunks i 32 32)
            (payload_indices n_chunks)).
Proof. apply fetch_and_hash_tx_data_run. Qed.

(** X2.  The domain separator hash, whatever the retrieval does: the
    Keccak-256 of the type hash, the chain id word and the first 32 bytes of
    chunk 7, or of the first two alone when chunk 7 cannot be retrieved. *)
Theorem domain_separator_hash_skips_failed_retrieval (P : platform)
    (root : list byte) (n_chunks : Z) :
  domain_separator_hash P root n_chunks
  = keccak256 P (domain_separator_typehash ++ abi_encoded_chain_id (coin P)
                 ++ (if retrieved_b P root n_chunks 7
                     then read (chunk_of P root n_chunks 7) 0 32 else [])).
Proof. apply compute_domain_separator_hash_run. Qed.

(** X3.  The eleven words of the encoded transaction, whatever the
    retrievals do, when the payload hash has 32 bytes: words 0 and 3 are the
    type hash and the payload hash; each of the nine fetched words holds its
    field when its chunk is retrieved and otherwise the 32 bytes the local
    array held before, which the code never initialises. *)
Theorem unretrieved_field_keeps_stack_bytes (P : platform) (root : list byte)
    (n_chunks : Z) :
  length (payload_hash P root n_chunks) = 32%nat ->
  let chunk := chunk_of P root n_chunks in
  read (encoded_tx_fields P root n_chunks) 0 352
  = concat
      [ safe_tx_typehash;
        slot P root n_chunks 0 32 (left_pad32 (read (chunk 0) 0 20));
        slot P root n_chunks 1 64 (read (chunk 1) 0 32);
        payload_hash P root n_chunks;
        slot P root n_chunks 3 128 (left_pad32 (read (chunk 3) 0 1));
        slot P root n_chunks 1 160 (read (chunk 1) 32 32);
        slot P root n_chunks 2 192 (read (chunk 2) 1 32);
        slot P root n_chunks 2 224 (read (chunk 2) 32 32);
        slot P root n_chunks 0 256 (left_pad32 (read (chunk 0) 20 20));
        slot P root n_chunks 0 288 (left_pad32 (read (chunk 0) 40 20));
        slot P root n_chunks 3 320 (read (chunk 3) 0 32) ].
Proof. apply encoded_tx_fields_run. Qed.

Lemma unretrieved_field_keeps_stack_bytes_witness :
  let P := demo_stale_stack in
  let chunk := chunk_of P demo_root 12 in
  length (payload_hash P demo_root 12) = 32%nat
  /\ read (encoded_tx_fields P demo_root 12) 0 352
     = concat
         [ safe_tx_typehash;
           slot P demo_root 12 0 32 (left_pad32 (read (chunk 0) 0 20));
           slot P demo_root 12 1 64 (read (chunk 1) 0 32);
           payload_hash P demo_root 12;
           slot P demo_root 12 3 128 (left_pad32 (read (chunk 3) 0 1));
           slot P demo_root 12 1 160 (read (chunk 1) 32 32);
           slot P demo_root 12 2 192 (read (chunk 2) 1 32);
           slot P demo_root 12 2 224 (read (chunk 2) 32 32);
           slot P demo_root 12 0 256 (left_pad32 (read (chunk 0) 20 20));
           slot P demo_root 12 0 288 (left_pad32 (read (chunk 0) 40 20));
           slot P demo_root 12 3 320 (read (chunk 3) 0 32) ].
Proof.
  intros P chunk.
  assert (H : length (payload_hash P demo_root 12) = 32%nat) by reflexivity.
  split; [exact H|].
  exact (unretrieved_field_keeps_stack_bytes P demo_root 12 H).
Defined.

(** X4.  [compute_tx_hash] always writes its output: whatever the output
    array held, it ends as the Keccak-256 of the two prefix bytes, the domain
    separator hash and the struct hash, since the encoder is handed an array
    of exactly the size it asks for and its refusal is never met.  The log of
    the call is one failure notice, a status [WrongDataLength] and the user
    interface notification, for each retrieval that failed, in the order the
    chunks are fetched: 4, each payload chunk twice, 0, 1, 3, 1, 2, 2, 0, 0,
    3 and 7. *)
Theorem compute_tx_hash_always_hashes (P : platform) (root : list byte)
    (n_chunks : Z) (output_buffer : list byte) :
  returned (compute_tx_hash P root n_chunks output_buffer)
  = keccak256 P (abi_encode_packed (domain_separator_hash P root n_chunks)
                   (struct_hash P root n_chunks))
  /\ events (compute_tx_hash P root n_chunks output_buffer)
     = flat_map (notice P root n_chunks) (fetch_order n_chunks).
Proof.
  split; [apply compute_tx_hash_returned | apply compute_tx_hash_log].
Qed.

(** X5.  [add_leading_zeroes] on a destination that is large enough: the
    destination ends with the source bytes, everything before them in the
    destination is zero, and no byte outside the destination changes.  On a
    destination that is too small nothing is written at all. *)
Theorem add_leading_zeroes_contract (dest_buffer src_buffer : buffer)
    (dest_size src_size : Z) :
  0 <= src_size ->
  let result := add_leading_zeroes dest_buffer dest_size src_buffer src_size in
  (dest_size < src_size -> forall i, result i = dest_buffer i)
  /\ (src_size <= dest_size ->
      forall i,
        result i
        = if (0 <=? i) && (i <? dest_size - src_size) then x00
          else if (dest_size - src_size <=? i) && (i <? dest_size)
               then src_buffer (i - (dest_size - src_size))
               else dest_buffer i).
Proof.
  intros Hsrc result. unfold result, add_leading_zeroes. split.
  - intros Hlt i. now replace (dest_size <? src_size) with true
      by (symmetry; apply Z.ltb_lt; lia).
  - intros Hle i.
    replace (dest_size <? src_size) with false by (symmetry; apply Z.ltb_ge; lia).
    destruct (Z.leb_spec 0 i), (Z.ltb_spec i (dest_size - src_size)),
      (Z.leb_spec (dest_size - src_size) i), (Z.ltb_spec i dest_size);
      cbn [andb]; try lia.
    + rewrite write_outside by (rewrite read_length; lia).
      rewrite write_inside by (rewrite repeat_length; lia).
      apply nth_repeat_lt. lia.
    + rewrite write_inside by (rewrite read_length; lia).
      rewrite read_nth by lia. f_equal. lia.
    + rewrite !write_outside
        by (rewrite ?read_length, ?repeat_length; lia). reflexivity.
    + rewrite !write_outside
        by (rewrite ?read_length, ?repeat_length; lia). reflexivity.
Qed.

Lemma add_leading_zeroes_contract_witness :
  let result := add_leading_zeroes (fun _ => xee) 4 (of_list [x01; x02]) 2 in
  0 <= 2
  /\ (4 < 2 -> forall i, result i = xee)
  /\ (2 <= 4 ->
      forall i,
        result i
        = if (0 <=? i) && (i <? 4 - 2) then x00
          else if (4 - 2 <=? i) && (i <? 4)
               then of_list [x01; x02] (i - (4 - 2))
               else xee).
Proof.
  intros result.
  assert (H : 0 <= 2) by lia.
  split; [exact H|].
  exact (add_leading_zeroes_contract (fun _ => xee) (of_list [x01; x02]) 4 2 H).
Defined.

(** X6.  [check_address] accepts an address exactly when its length is
    between 1 and [MAX_ADDRESS_LENGTH_STR], the public key of the path can be
    derived, the address of that key for the given type can be built, and
    that address is the given one, character by character. *)
Theorem check_address_accepts_exactly (P : platform) (bip32_path : list Z)
    (bip32_path_len : Z) (address_to_check : list byte)
    (address_to_check_len address_type : Z) :
  check_address P bip32_path bip32_path_len address_to_check
    address_to_check_len address_type = true
  <-> (1 <= address_to_check_len <= MAX_ADDRESS_LENGTH_STR P
       /\ exists compressed_public_key,
            crypto_get_compressed_pubkey_at_path P bip32_path bip32_path_len
            = Some compressed_public_key
            /\ get_address_from_compressed_public_key P address_type
                 compressed_public_key
               = Some address_to_check).
Proof.
  unfold check_address.
  destruct (Z.gtb_spec address_to_check_len (MAX_ADDRESS_LENGTH_STR P)).
  { split; [discriminate | intros [? _]; lia]. }
  destruct (Z.ltb_spec address_to_check_len 1).
  { split; [discriminate | intros [? _]; lia]. }
  destruct (crypto_get_compressed_pubkey_at_path P bip32_path bip32_path_len)
    as [key|].
  2:{ split; [discriminate | intros (_ & key & [=] & _)]. }
  destruct (get_address_from_compressed_public_key P address_type key)
    as [recovered|] eqn:E.
  2:{ split; [discriminate|]. intros (_ & key' & [= <-] & E').
      rewrite E in E'. discriminate E'. }
  rewrite bytes_eqb_eq. split.
  - intros ->. split; [lia|]. now exists key.
  - intros (_ & key' & [= <-] & E'). rewrite E in E'. now injection E'.
Qed.

(** X7.  On a platform whose [size_t] has at least 16 bits, a script length
    field that is not zero gives the script helpers a length of the field
    capped at 32, less one: at most 31, so that the script they read ends
    inside the 64-byte chunk. *)
Theorem nonzero_script_length_stays_in_chunk (P : platform)
    (data_chunk : buffer) :
  (16 <= size_t_bits P)%N ->
  read_u16_be data_chunk 30 <> 0 ->
  redeemer_script_len P data_chunk = Z.min (read_u16_be data_chunk 30) 32 - 1
  /\ 0 <= redeemer_script_len P data_chunk
  /\ CHUNK_SECOND_PART + 1 + redeemer_script_len P data_chunk
     <= CHUNK_SIZE_IN_BYTES.
Proof.
  intros Hbits Hfield.
  pose proof (read_u16_be_range data_chunk 30) as Hrange.
  assert (Hpow : 2 ^ 16 <= 2 ^ Z.of_N (size_t_bits P))
    by (apply Z.pow_le_mono_r; lia).
  change (2 ^ 16) with 65536 in Hpow.
  unfold redeemer_script_len. cbv zeta.
  rewrite (to_size_t_small P (read_u16_be data_chunk 30)) by lia.
  assert (E : (if read_u16_be data_chunk 30 >? 32
               then 32 else read_u16_be data_chunk 30)
              = Z.min (read_u16_be data_chunk 30) 32).
  { destruct (Z.gtb_spec (read_u16_be data_chunk 30) 32); lia. }
  rewrite E. rewrite to_size_t_small by lia.
  unfold CHUNK_SECOND_PART, CHUNK_SIZE_IN_BYTES. lia.
Qed.

Lemma nonzero_script_length_stays_in_chunk_witness :
  (16 <= size_t_bits demo_platform)%N
  /\ read_u16_be (Demo.chunk 10) 30 <> 0
  /\ redeemer_script_len demo_platform (Demo.chunk 10) = 31.
Proof.
  assert (H1 : (16 <= size_t_bits demo_platform)%N) by (vm_compute; discriminate).
  assert (H2 : read_u16_be (Demo.chunk 10) 30 <> 0) by (vm_compute; discriminate).
  split; [exact H1|]. split; [exact H2|].
  destruct (nonzero_script_length_stays_in_chunk demo_platform (Demo.chunk 10) H1 H2)
    as [E _].
  rewrite E. reflexivity.
Defined.

(** X8.  Whatever the array of the amount held before and whatever text
    without NUL of at most 50 characters [format_fpu64] delivered, the
    screen gets the ticker [stBTC], the space, and a prefix of that text:
    the trim only cuts at the end, it never reaches the ticker and never
    changes a character. *)
Theorem screen_text_is_a_prefix (stack : buffer) (value : list byte) :
  Forall (fun c => c <> NUL) value ->
  (length value <= 50)%nat ->
  exists kept dropped,
    value = kept ++ dropped
    /\ shown (trim_value_with_ticker
                (snprintf_stBTC stack sizeof_value_with_ticker value))
       = c_str "stBTC " ++ kept.
Proof.
  intros Hplain Hlen.
  destruct (shown_of_trim_scan stack value Hplain Hlen) as (Hi & _ & ->).
  set (i := trim_scan _ 56) in *.
  destruct (Nat.ltb_spec i (length (c_str "stBTC " ++ value))) as [Hin|Hout].
  - exists (firstn (S i - 6) value), (skipn (S i - 6) value).
    split; [symmetry; apply firstn_skipn|].
    rewrite firstn_app. change (length (c_str "stBTC ")) with 6%nat.
    rewrite (firstn_all2 (n := S i) (c_str "stBTC ")); [reflexivity|].
    change (length (c_str "stBTC ")) with 6%nat. lia.
  - exists value, []. split; [now rewrite app_nil_r | reflexivity].
Qed.

Lemma screen_text_is_a_prefix_witness :
  Forall (fun c => c <> NUL) (c_str "1.50")
  /\ (length (c_str "1.50") <= 50)%nat
  /\ exists kept dropped,
       c_str "1.50" = kept ++ dropped
       /\ shown (trim_value_with_ticker
                   (snprintf_stBTC zeroed sizeof_value_with_ticker (c_str "1.50")))
          = c_str "stBTC " ++ kept.
Proof.
  assert (H1 : Forall (fun c => c <> NUL) (c_str "1.50"))
    by (repeat constructor; discriminate).
  assert (H2 : (length (c_str "1.50") <= 50)%nat) by (cbn; lia).
  split; [exact H1|]. split; [exact H2|].
  exact (screen_text_is_a_prefix zeroed (c_str "1.50") H1 H2).
Defined.

(** X9.  When the array of the amount is clear before the call, the trim
    drops every trailing [0] and [.] of the text, across the decimal point
    and into the integer part: for a text that is [kept] followed by
    characters [0] and [.] only, where [kept] is empty or ends with another
    character, the screen gets [stBTC], the space and [kept]. *)
Theorem cleared_trim_drops_trailing_zeros_and_points (stack : buffer)
    (kept dropped : list byte) :
  (forall i, 0 <= i < 57 -> stack i = NUL) ->
  Forall (fun c => c <> NUL) kept ->
  Forall (fun c => c = "0"%byte \/ c = "."%byte) dropped ->
  (length (kept ++ dropped) <= 50)%nat ->
  is_trimmed (last (c_str "stBTC " ++ kept) x00) = false ->
  shown (trim_value_with_ticker
           (snprintf_stBTC stack sizeof_value_with_ticker (kept ++ dropped)))
  = c_str "stBTC " ++ kept.
Proof.
  intros Hclear Hkept Hdropped Hlen Hlast.
  assert (Hplain : Forall (fun c => c <> NUL) (kept ++ dropped)).
  { apply Forall_app. split; [exact Hkept|].
    eapply Forall_impl; [|exact Hdropped].
    intros c [-> | ->]; discriminate. }
  destruct (shown_of_trim_scan stack (kept ++ dropped) Hplain Hlen)
    as (_ & _ & ->).
  rewrite length_app in Hlen.
  set (s := c_str "stBTC " ++ kept ++ dropped).
  set (m := (5 + length kept)%nat).
  assert (Hs : length s = (6 + length kept + length dropped)%nat).
  { unfold s. rewrite !length_app. change (length (c_str "stBTC ")) with 6%nat. lia. }
  assert (HB : snprintf_stBTC stack sizeof_value_with_ticker (kept ++ dropped)
               = write stack 0 (s ++ [NUL])).
  { unfold snprintf_stBTC.
    change (Z.to_nat (sizeof_value_with_ticker - 1)) with 56%nat.
    fold s. now rewrite (firstn_all2 (n := 56) s) by lia. }
  rewrite HB.
  assert (Hscan : trim_scan (write stack 0 (s ++ [NUL])) 56 = m).
  { apply trim_scan_unique.
    - unfold m. lia.
    - intros j Hj. unfold m in Hj.
      destruct (Nat.lt_ge_cases j (length s)) as [Hin|Hout].
      + rewrite write_inside by (rewrite length_app; lia).
        rewrite Z.sub_0_r, Nat2Z.id, app_nth1 by lia.
        unfold s. rewrite app_assoc, app_nth2
          by (rewrite length_app; change (length (c_str "stBTC ")) with 6%nat; lia).
        rewrite length_app. change (length (c_str "stBTC ")) with 6%nat.
        rewrite Forall_forall in Hdropped.
        destruct (Hdropped (nth (j - (6 + length kept)) dropped x00)) as [-> | ->];
          [|reflexivity..].
        apply nth_In. lia.
      + destruct (Nat.eq_dec j (length s)) as [->|Hne].
        * rewrite write_inside by (rewrite length_app; cbn [length]; lia).
          rewrite Z.sub_0_r, Nat2Z.id, app_nth2, Nat.sub_diag by lia. reflexivity.
        * rewrite write_outside by (rewrite length_app; cbn [length]; lia).
          rewrite Hclear by lia. reflexivity.
    - rewrite write_inside by (rewrite length_app; unfold m; lia).
      rewrite Z.sub_0_r, Nat2Z.id, app_nth1 by (unfold m; lia).
      unfold s. rewrite app_assoc, app_nth1
        by (rewrite length_app; change (length (c_str "stBTC ")) with 6%nat;
            unfold m; lia).
      replace m with (length (c_str "stBTC " ++ kept) - 1)%nat
        by (rewrite length_app; change (length (c_str "stBTC ")) with 6%nat;
            unfold m; lia).
      rewrite nth_last. exact Hlast. }
  rewrite Hscan.
  replace (m <? length s)%nat with true
    by (symmetry; apply Nat.ltb_lt; unfold m; lia).
  unfold s. rewrite app_assoc, firstn_app.
  rewrite (firstn_all2 (n := S m))
    by (rewrite length_app; change (length (c_str "stBTC ")) with 6%nat;
        unfold m; lia).
  replace (S m - length (c_str "stBTC " ++ kept))%nat with 0%nat
    by (rewrite length_app; change (length (c_str "stBTC ")) with 6%nat;
        unfold m; lia).
  cbn [firstn]. now rewrite app_nil_r.
Qed.

Lemma cleared_trim_drops_trailing_zeros_and_points_witness :
  (forall i, 0 <= i < 57 -> zeroed i = NUL)
  /\ Forall (fun c => c <> NUL) (c_str "2")
  /\ Forall (fun c => c = "0"%byte \/ c = "."%byte) (c_str "00.000")
  /\ (length (c_str "2" ++ c_str "00.000") <= 50)%nat
  /\ is_trimmed (last (c_str "stBTC " ++ c_str "2") x00) = false
  /\ shown (trim_value_with_ticker
              (snprintf_stBTC zeroed sizeof_value_with_ticker
                 (c_str "2" ++ c_str "00.000")))
     = c_str "stBTC " ++ c_str "2".
Proof.
  assert (H1 : forall i, 0 <= i < 57 -> zeroed i = NUL) by reflexivity.
  assert (H2 : Forall (fun c => c <> NUL) (c_str "2"))
    by (repeat constructor; discriminate).
  assert (H3 : Forall (fun c => c = "0"%byte \/ c = "."%byte) (c_str "00.000"))
    by (repeat constructor; auto).
  assert (H4 : (length (c_str "2" ++ c_str "00.000") <= 50)%nat) by (cbn; lia).
  assert (H5 : is_trimmed (last (c_str "stBTC " ++ c_str "2") x00) = false)
    by reflexivity.
  repeat (split; [assumption|]).
  exact (cleared_trim_drops_trailing_zeros_and_points zeroed (c_str "2")
           (c_str "00.000") H1 H2 H3 H4 H5).
Defined.

(** X10.  A text whose last character is neither [0] nor [.] reaches the
    screen in full behind the ticker, whatever the array held before. *)
Theorem significant_last_character_keeps_text (stack : buffer)
    (value : list byte) :
  Forall (fun c => c <> NUL) value ->
  (length value <= 50)%nat ->
  is_trimmed (last (c_str "stBTC " ++ value) x00) = false ->
  shown (trim_value_with_ticker
           (snprintf_stBTC stack sizeof_value_with_ticker value))
  = c_str "stBTC " ++ value.
Proof.
  intros Hplain Hlen Hlast.
  destruct (shown_of_trim_scan stack value Hplain Hlen) as (Hi & Hne & ->).
  set (s := c_str "stBTC " ++ value) in *.
  assert (HL : (6 <= length s <= 56)%nat).
  { unfold s. rewrite length_app. change (length (c_str "stBTC ")) with 6%nat. lia. }
  assert (HB : snprintf_stBTC stack sizeof_value_with_ticker value
               = write stack 0 (s ++ [NUL])).
  { unfold snprintf_stBTC.
    change (Z.to_nat (sizeof_value_with_ticker - 1)) with 56%nat.
    fold s. now rewrite (firstn_all2 (n := 56) s) by lia. }
  rewrite HB in *.
  set (i := trim_scan _ 56) in *.
  destruct (Nat.ltb_spec i (length s)) as [Hin|Hout]; [|reflexivity].
  destruct (Nat.eq_dec (S i) (length s)) as [E|E].
  - rewrite E. apply firstn_all.
  - exfalso.
    pose proof (trim_scan_above (write stack 0 (s ++ [NUL])) 56 (length s - 1)) as Hup.
    fold i in Hup.
    rewrite write_inside in Hup by (rewrite length_app; lia).
    rewrite Z.sub_0_r, Nat2Z.id, app_nth1 in Hup by lia.
    rewrite <- (nth_last s x00) in Hlast.
    rewrite Hup in Hlast by lia. discriminate Hlast.
Qed.

Lemma significant_last_character_keeps_text_witness :
  Forall (fun c => c <> NUL) (c_str "10.05")
  /\ (length (c_str "10.05") <= 50)%nat
  /\ is_trimmed (last (c_str "stBTC " ++ c_str "10.05") x00) = false
  /\ shown (trim_value_with_ticker
              (snprintf_stBTC (fun _ => "0"%byte) sizeof_value_with_ticker
                 (c_str "10.05")))
     = c_str "stBTC " ++ c_str "10.05".
Proof.
  assert (H1 : Forall (fun c => c <> NUL) (c_str "10.05"))
    by (repeat constructor; discriminate).
  assert (H2 : (length (c_str "10.05") <= 50)%nat) by (cbn; lia).
  assert (H3 : is_trimmed (last (c_str "stBTC " ++ c_str "10.05") x00) = false)
    by reflexivity.
  repeat (split; [assumption|]).
  exact (significant_last_character_keeps_text (fun _ => "0"%byte)
           (c_str "10.05") H1 H2 H3).
Defined.

(** X11.  A redeemer script that the helpers cannot decode, or whose
    address is not the one of the path, is answered twice: the confirmation
    step sends [IncorrectData] and returns false, and the handler then sends
    [Deny].  The user is not asked and nothing is signed. *)
Theorem rejected_address_is_answered_twice (P : platform) (rb : list byte)
    (len : Z) (path : list Z) (n : Z) (root : list byte) :
  read_request P rb = Some (len, path, n, root) ->
  len <= MAX_BIP32_PATH_STEPS P ->
  autoapprove P = false ->
  address_accepted P root (to_size_t P n) path len = false ->
  events (handler_withdraw P rb)
  = [UiResetStreamingIndex;
     GetScriptType (script_len_of P root (to_size_t P n));
     GetScriptAddress (script_len_of P root (to_size_t P n));
     SendSW SW_INCORRECT_DATA; UiPostProcessing false;
     SendSW SW_DENY; UiPostProcessing false].
Proof.
  intros Hread Hlen Hauto Hrej.
  rewrite handler_withdraw_log, Hread.
  replace (len >? MAX_BIP32_PATH_STEPS P) with false
    by (symmetry; rewrite Z.gtb_ltb; apply Z.ltb_ge; lia).
  cbv zeta. unfold confirmation. rewrite Hauto.
  destruct (display_data_content_and_confirm_run P root (to_size_t P n) path len)
    as [-> ->].
  rewrite Hrej. reflexivity.
Qed.

Lemma rejected_address_is_answered_twice_witness :
  read_request demo_foreign_address Demo.request = Some (0, [], 12, demo_root)
  /\ 0 <= MAX_BIP32_PATH_STEPS demo_foreign_address
  /\ autoapprove demo_foreign_address = false
  /\ address_accepted demo_foreign_address demo_root
       (to_size_t demo_foreign_address 12) [] 0 = false
  /\ events (handler_withdraw demo_foreign_address Demo.request)
     = [UiResetStreamingIndex; GetScriptType 31; GetScriptAddress 31;
        SendSW SW_INCORRECT_DATA; UiPostProcessing false;
        SendSW SW_DENY; UiPostProcessing false].
Proof.
  assert (H1 : read_request demo_foreign_address Demo.request
               = Some (0, [], 12, demo_root)) by reflexivity.
  assert (H2 : 0 <= MAX_BIP32_PATH_STEPS demo_foreign_address)
    by (vm_compute; discriminate).
  assert (H3 : autoapprove demo_foreign_address = false) by reflexivity.
  assert (H4 : address_accepted demo_foreign_address demo_root
                 (to_size_t demo_foreign_address 12) [] 0 = false)
    by (vm_compute; reflexivity).
  repeat (split; [assumption|]).
  rewrite (rejected_address_is_answered_twice demo_foreign_address Demo.request
             0 [] 12 demo_root H1 H2 H3 H4).
  vm_compute. reflexivity.
Defined.

(** X12.  The handler asks the signer only for a request that was read,
    whose path is not longer than [MAX_BIP32_PATH_STEPS], that was confirmed
    (by the user, for an address that [check_address] accepted, or by an
    autoapprove build) and whose hash [format_hex] could render.  The key is
    the one of the path of the request and the digest is the message-signing
    digest of the hexadecimal text of the transaction hash. *)
Theorem signature_requires_confirmation (P : platform) (rb : list byte)
    (path : list Z) (digest : list byte) :
  In (Sign path digest) (events (handler_withdraw P rb)) ->
  exists len n root,
    read_request P rb = Some (len, path, n, root)
    /\ len <= MAX_BIP32_PATH_STEPS P
    /\ (autoapprove P = true
        \/ (address_accepted P root (to_size_t P n) path len = true
            /\ ui_validate_withdraw_data_and_confirm P
                 (amount_text P root (to_size_t P n))
                 (snd (script_address_of P root (to_size_t P n))) = true))
    /\ fst (format_hex P (tx_hash P root (to_size_t P n))) <> 0
    /\ digest
       = bsm_digest_of P (snd (format_hex P (tx_hash P root (to_size_t P n)))).
Proof.
  rewrite handler_withdraw_log.
  destruct (read_request P rb) as [[[[len path'] n] root]|].
  2:{ cbn [In]. intros [[=]|[[=]|[]]]. }
  destruct (Z.gtb_spec len (MAX_BIP32_PATH_STEPS P)) as [Hlong|Hlen].
  { cbn [In]. intros [[=]|[[=]|[]]]. }
  cbv zeta. fold (tx_hash P root (to_size_t P n)).
  intros Hin. apply in_app_or in Hin. destruct Hin as [Hin|Hin].
  { apply in_confirmation in Hin.
    destruct Hin as [H|[H|[H|[H|[H|(_ & _ & H)]]]]]; discriminate H. }
  destruct (returned (confirmation P root n path' len)) eqn:Hconfirm.
  2:{ cbn [In] in Hin. destruct Hin as [[=]|[[=]|[]]]. }
  apply in_app_or in Hin. destruct Hin as [Hin|Hin].
  { rewrite compute_tx_hash_log in Hin. apply in_notices in Hin.
    destruct Hin as [H|H]; discriminate H. }
  destruct (Z.eqb_spec (fst (format_hex P (tx_hash P root (to_size_t P n)))) 0)
    as [Hhex|Hhex].
  { cbn [In] in Hin. destruct Hin as [[=]|[[=]|[]]]. }
  apply in_app_or in Hin. destruct Hin as [Hin|Hin].
  - apply in_sign_tx_hash in Hin.
    destruct Hin as [H|[H|[H|H]]]; try discriminate H.
    injection H as -> ->.
    exists len, n, root. split; [reflexivity|]. split; [exact Hlen|].
    split; [now apply returned_confirmation|]. split; [exact Hhex | reflexivity].
  - apply in_respond_with_signature in Hin.
    destruct Hin as [H|[H|[H|(data & H & _)]]]; discriminate H.
Qed.

Lemma signature_requires_confirmation_witness :
  let digest :=
    bsm_digest_of demo_platform (Demo.hex (tx_hash demo_platform demo_root 12)) in
  In (Sign [] digest) (events (handler_withdraw demo_platform Demo.request))
  /\ exists len n root,
       read_request demo_platform Demo.request = Some (len, [], n, root)
       /\ len <= MAX_BIP32_PATH_STEPS demo_platform
       /\ (autoapprove demo_platform = true
           \/ (address_accepted demo_platform root (to_size_t demo_platform n)
                 [] len = true
               /\ ui_validate_withdraw_data_and_confirm demo_platform
                    (amount_text demo_platform root (to_size_t demo_platform n))
                    (snd (script_address_of demo_platform root
                            (to_size_t demo_platform n))) = true))
       /\ fst (format_hex demo_platform
                 (tx_hash demo_platform root (to_size_t demo_platform n))) <> 0
       /\ digest
          = bsm_digest_of demo_platform
              (snd (format_hex demo_platform
                      (tx_hash demo_platform root (to_size_t demo_platform n)))).
Proof.
  intros digest.
  assert (H : In (Sign [] digest)
                (events (handler_withdraw demo_platform Demo.request)))
    by (vm_compute; in_list).
  split; [exact H|].
  exact (signature_requires_confirmation demo_platform Demo.request [] digest H).
Defined.

(** X13.  The user is asked to confirm only an address that
    [check_address] accepted for the path of the request, on a build without
    autoapprove, and what the screen gets is the address the script helper
    decoded and the amount text of the request. *)
Theorem prompt_shows_an_accepted_address (P : platform) (rb : list byte)
    (text address : list byte) :
  In (UiValidate text address) (events (handler_withdraw P rb)) ->
  exists len path n root,
    read_request P rb = Some (len, path, n, root)
    /\ len <= MAX_BIP32_PATH_STEPS P
    /\ autoapprove P = false
    /\ address_accepted P root (to_size_t P n) path len = true
    /\ address = snd (script_address_of P root (to_size_t P n))
    /\ text = amount_text P root (to_size_t P n).
Proof.
  rewrite handler_withdraw_log.
  destruct (read_request P rb) as [[[[len path] n] root]|].
  2:{ cbn [In]. intros [[=]|[[=]|[]]]. }
  destruct (Z.gtb_spec len (MAX_BIP32_PATH_STEPS P)) as [Hlong|Hlen].
  { cbn [In]. intros [[=]|[[=]|[]]]. }
  cbv zeta. intros Hin. apply in_app_or in Hin. destruct Hin as [Hin|Hin].
  { apply in_confirmation in Hin.
    destruct Hin as [H|[H|[H|[H|[H|(Hauto & Hacc & H)]]]]]; try discriminate H.
    injection H as -> ->. exists len, path, n, root. auto 10. }
  destruct (returned (confirmation P root n path len)).
  2:{ cbn [In] in Hin. destruct Hin as [[=]|[[=]|[]]]. }
  apply in_app_or in Hin. destruct Hin as [Hin|Hin].
  { rewrite compute_tx_hash_log in Hin. apply in_notices in Hin.
    destruct Hin as [H|H]; discriminate H. }
  destruct (_ =? 0).
  { cbn [In] in Hin. destruct Hin as [[=]|[[=]|[]]]. }
  apply in_app_or in Hin. destruct Hin as [Hin|Hin].
  - apply in_sign_tx_hash in Hin.
    destruct Hin as [H|[H|[H|H]]]; discriminate H.
  - apply in_respond_with_signature in Hin.
    destruct Hin as [H|[H|[H|(data & H & _)]]]; discriminate H.
Qed.

Lemma prompt_shows_an_accepted_address_witness :
  In (UiValidate (c_str "stBTC 9.838547192930733711") (c_str "bc1q"))
    (events (handler_withdraw demo_platform Demo.request))
  /\ exists len path n root,
       read_request demo_platform Demo.request = Some (len, path, n, root)
       /\ len <= MAX_BIP32_PATH_STEPS demo_platform
       /\ autoapprove demo_platform = false
       /\ address_accepted demo_platform root (to_size_t demo_platform n)
            path len = true
       /\ c_str "bc1q"
          = snd (script_address_of demo_platform root (to_size_t demo_platform n))
       /\ c_str "stBTC 9.838547192930733711"
          = amount_text demo_platform root (to_size_t demo_platform n).
Proof.
  assert (H : In (UiValidate (c_str "stBTC 9.838547192930733711") (c_str "bc1q"))
                (events (handler_withdraw demo_platform Demo.request)))
    by (vm_compute; in_list).
  split; [exact H|].
  exact (prompt_shows_an_accepted_address demo_platform Demo.request _ _ H).
Defined.

(** X14.  Response data leave the device only as the last status of a
    request: a response in the log of the handler is 65 bytes with status
    [Ok], it is followed by the success notification of the user interface
    and by nothing else, and no other response precedes it. *)
Theorem response_is_the_last_status (P : platform) (rb : list byte)
    (data : list byte) (sw : status_word) :
  In (SendResponse data sw) (events (handler_withdraw P rb)) ->
  sw = SW_OK
  /\ length data = 65%nat
  /\ exists before,
       events (handler_withdraw P rb)
       = before ++ [SendResponse data sw; UiPostProcessing true]
       /\ filter is_response before = [].
Proof.
  rewrite handler_withdraw_log.
  destruct (read_request P rb) as [[[[len path] n] root]|].
  2:{ cbn [In]. intros [[=]|[[=]|[]]]. }
  destruct (Z.gtb_spec len (MAX_BIP32_PATH_STEPS P)) as [Hlong|Hlen].
  { cbn [In]. intros [[=]|[[=]|[]]]. }
  cbv zeta. intros Hin. apply in_app_or in Hin. destruct Hin as [Hin|Hin].
  { apply in_confirmation in Hin.
    destruct Hin as [H|[H|[H|[H|[H|(_ & _ & H)]]]]]; discriminate H. }
  destruct (returned (confirmation P root n path len)).
  2:{ cbn [In] in Hin. destruct Hin as [[=]|[[=]|[]]]. }
  apply in_app_or in Hin. destruct Hin as [Hin|Hin].
  { rewrite compute_tx_hash_log in Hin. apply in_notices in Hin.
    destruct Hin as [H|H]; discriminate H. }
  destruct (_ =? 0).
  { cbn [In] in Hin. destruct Hin as [[=]|[[=]|[]]]. }
  apply in_app_or in Hin. destruct Hin as [Hin|Hin].
  { apply in_sign_tx_hash in Hin.
    destruct Hin as [H|[H|[H|H]]]; discriminate H. }
  match type of Hin with
  | In _ (events (respond_with_signature P ?sig ?info)) =>
      destruct (respond_with_signature_shape P sig info)
        as [E | (_ & _ & data' & Hdata & E)]; rewrite E in Hin |- *
  end.
  { cbn [In] in Hin. destruct Hin as [[=]|[[=]|[]]]. }
  cbn [In] in Hin. destruct Hin as [H|[[=]|[]]]. injection H as -> ->.
  split; [reflexivity|]. split; [exact Hdata|].
  eexists. split; [rewrite !app_assoc; reflexivity|].
  rewrite !filter_app.
  rewrite (proj2 (quiet_filters _ (quiet_confirmation P root n path len))).
  rewrite (proj2 (quiet_filters _ (quiet_compute_tx_hash P root _ _))).
  destruct (sign_tx_hash_run P path len
              (snd (format_hex P (returned (compute_tx_hash P root (to_size_t P n)
                                              (stack_tx_hash P)))))) as [-> _].
  destruct (autoapprove P), (_ <? 0); reflexivity.
Qed.

Lemma response_is_the_last_status_witness :
  let data := x1f :: repeat x11 32 ++ repeat x22 32 in
  In (SendResponse data SW_OK)
    (events (handler_withdraw demo_platform Demo.request))
  /\ SW_OK = SW_OK
  /\ length data = 65%nat
  /\ exists before,
       events (handler_withdraw demo_platform Demo.request)
       = before ++ [SendResponse data SW_OK; UiPostProcessing true]
       /\ filter is_response before = [].
Proof.
  intros data.
  assert (H : In (SendResponse data SW_OK)
                (events (handler_withdraw demo_platform Demo.request)))
    by (vm_compute; in_list).
  split; [exact H|].
  exact (response_is_the_last_status demo_platform Demo.request data SW_OK H).
Defined.

(** X15.  One request reaches the signer at most once. *)
Theorem handler_signs_at_most_once (P : platform) (rb : list byte) :
  (length (filter is_sign (events (handler_withdraw P rb))) <= 1)%nat.
Proof.
  rewrite handler_withdraw_log.
  destruct (read_request P rb) as [[[[len path] n] root]|]; [|cbn; lia].
  destruct (len >? MAX_BIP32_PATH_STEPS P); [cbn; lia|].
  cbv zeta. rewrite filter_app.
  rewrite (proj1 (quiet_filters _ (quiet_confirmation P root n path len))).
  destruct (returned (confirmation P root n path len)); [|cbn; lia].
  rewrite filter_app.
  rewrite (proj1 (quiet_filters _ (quiet_compute_tx_hash P root _ _))).
  destruct (_ =? 0); [cbn; lia|].
  rewrite filter_app.
  match goal with
  | |- context [events (respond_with_signature P ?sig ?info)] =>
      destruct (respond_with_signature_shape P sig info)
        as [E | (_ & _ & data' & Hdata & E)]; rewrite E
  end;
    match goal with
    | |- context [events (sign_tx_hash P ?p ?l ?t)] =>
        destruct (sign_tx_hash_run P p l t) as [-> _]
    end;
    destruct (autoapprove P), (_ <? 0); cbn; lia.
Qed.

(** X16.  Every request is answered, and every answer is announced to the
    user interface: the log of the handler holds at least one status word,
    each status sent without data is followed at once by the failure
    notification and each response by the success notification. *)
Theorem every_status_is_notified (P : platform) (rb : list byte) :
  notified (events (handler_withdraw P rb)) = true
  /\ statuses (events (handler_withdraw P rb)) <> [].
Proof.
  rewrite handler_withdraw_log.
  destruct (read_request P rb) as [[[[len path] n] root]|];
    [|split; [reflexivity | discriminate]].
  destruct (len >? MAX_BIP32_PATH_STEPS P);
    [split; [reflexivity | discriminate]|].
  cbv zeta.
  assert (Hne : forall a b : list status_word, b <> [] -> a ++ b <> []).
  { intros a b Hb E. apply app_eq_nil in E. now destruct E. }
  split.
  - apply notified_app_true; [apply notified_confirmation|].
    destruct (returned (confirmation P root n path len)); [|reflexivity].
    apply notified_app_true; [apply notified_compute_tx_hash|].
    destruct (_ =? 0); [reflexivity|].
    apply notified_app_true;
      [apply notified_sign_tx_hash | apply notified_respond_with_signature].
  - rewrite statuses_app. apply Hne.
    destruct (returned (confirmation P root n path len)); [|discriminate].
    rewrite statuses_app. apply Hne.
    destruct (_ =? 0); [discriminate|].
    rewrite statuses_app. apply Hne.
    match goal with
    | |- context [events (respond_with_signature P ?sig ?info)] =>
        destruct (respond_with_signature_shape P sig info)
          as [E | (_ & _ & data' & Hdata & E)]; rewrite E
    end; discriminate.
Qed.

(** X17.  The last status of a request is [Ok] exactly when the request was
    read, its path is not longer than [MAX_BIP32_PATH_STEPS], it was
    confirmed, [format_hex] rendered the hash, and the two length bytes of
    the signature array are at most 33.  Neither the outcome of a chunk
    retrieval nor the value the signer returns is among the conditions. *)
Theorem final_status_ok_exactly_when (P : platform) (rb : list byte) :
  final_status (events (handler_withdraw P rb)) = Some SW_OK
  <-> exists len path n root,
        read_request P rb = Some (len, path, n, root)
        /\ len <= MAX_BIP32_PATH_STEPS P
        /\ returned (confirmation P root n path len) = true
        /\ fst (format_hex P (tx_hash P root (to_size_t P n))) <> 0
        /\ let sig :=
             snd (fst (crypto_ecdsa_sign_sha256_hash_with_key P path len
                         (bsm_digest_of P
                            (snd (format_hex P
                                    (tx_hash P root (to_size_t P n))))))) in
           b2z (sig 3) <= 33 /\ b2z (sig (4 + b2z (sig 3) + 1)) <= 33.
Proof.
  rewrite handler_withdraw_log.
  destruct (read_request P rb) as [[[[len path] n] root]|].
  2:{ split; [discriminate | intros (? & ? & ? & ? & [=] & _)]. }
  destruct (Z.gtb_spec len (MAX_BIP32_PATH_STEPS P)) as [Hlong|Hlen].
  { split; [discriminate|].
    intros (? & ? & ? & ? & [= <- <- <- <-] & ? & _). lia. }
  cbv zeta. fold (tx_hash P root (to_size_t P n)).
  destruct (returned (confirmation P root n path len)) eqn:Hconfirm.
  2:{ rewrite final_status_app by discriminate. split; [discriminate|].
      intros (? & ? & ? & ? & [= <- <- <- <-] & _ & H & _).
      rewrite Hconfirm in H. discriminate H. }
  destruct (Z.eqb_spec (fst (format_hex P (tx_hash P root (to_size_t P n)))) 0)
    as [Hhex|Hhex].
  { rewrite app_assoc, final_status_app by discriminate. split; [discriminate|].
    intros (? & ? & ? & ? & [= <- <- <- <-] & _ & _ & H & _). contradiction. }
  destruct (sign_tx_hash_run P path len
              (snd (format_hex P (tx_hash P root (to_size_t P n))))) as [_ ->].
  cbn [fst snd].
  set (sig := snd (fst (crypto_ecdsa_sign_sha256_hash_with_key P path len _))).
  match goal with
  | |- context [events (respond_with_signature P sig ?i)] => set (info := i)
  end.
  rewrite !app_assoc.
  destruct (Z_le_gt_dec (b2z (sig 3)) 33) as [Hr|Hr];
    [destruct (Z_le_gt_dec (b2z (sig (4 + b2z (sig 3) + 1))) 33) as [Hs|Hs]|].
  - destruct (respond_with_signature_shape P sig info)
      as [E | (_ & _ & data & _ & E)].
    + exfalso. unfold respond_with_signature in E.
      replace ((b2z (sig 3) >? 33) || (b2z (sig (4 + b2z (sig 3) + 1)) >? 33))
        with false in E
        by (symmetry; apply orb_false_iff; rewrite !Z.gtb_ltb, !Z.ltb_ge; lia).
      discriminate E.
    + rewrite E, final_status_app by discriminate.
      split; [|reflexivity]. intros _. exists len, path, n, root. auto 10.
  - rewrite (respond_with_signature_rejects P sig info) by lia.
    rewrite final_status_app by discriminate. split; [discriminate|].
    intros (? & ? & ? & ? & [= <- <- <- <-] & _ & _ & _ & H).
    change (b2z (sig 3) <= 33 /\ b2z (sig (4 + b2z (sig 3) + 1)) <= 33) in H. lia.
  - rewrite (respond_with_signature_rejects P sig info) by lia.
    rewrite final_status_app by discriminate. split; [discriminate|].
    intros (? & ? & ? & ? & [= <- <- <- <-] & _ & _ & _ & H).
    change (b2z (sig 3) <= 33 /\ b2z (sig (4 + b2z (sig 3) + 1)) <= 33) in H. lia.
Qed.

(** The build flag is read by the handler and the signer only. *)

Section BuildFlag.

Variable P : platform.
Variable auto : bool.

Lemma read_request_with_autoapprove (rb : list byte) :
  read_request (with_autoapprove P auto) rb = read_request P rb.
Proof. reflexivity. Qed.

Lemma compute_tx_hash_with_autoapprove (root : list byte) (n : Z)
    (out : list byte) :
  compute_tx_hash (with_autoapprove P auto) root n out
  = compute_tx_hash P root n out.
Proof. reflexivity. Qed.

Lemma amount_text_with_autoapprove (root : list byte) (n : Z) :
  amount_text (with_autoapprove P auto) root n = amount_text P root n.
Proof.
  unfold amount_text, format_value_with_ticker, chunk_of.
  cbn [with_autoapprove adjusted call_get_merkle_leaf_element
       stack_value_with_ticker].
  reflexivity.
Qed.

Lemma address_accepted_with_autoapprove (root : list byte) (n : Z)
    (path : list Z) (len : Z) :
  address_accepted (with_autoapprove P auto) root n path len
  = address_accepted P root n path len.
Proof.
  unfold address_accepted, script_type_of, script_address_of, script_of,
    script_len_of, redeemer_script_len, chunk_of, check_address, to_size_t,
    SIZE_MAX.
  cbn [with_autoapprove adjusted call_get_merkle_leaf_element size_t_bits
       get_script_type get_script_address MAX_ADDRESS_LENGTH_STR
       crypto_get_compressed_pubkey_at_path
       get_address_from_compressed_public_key].
  reflexivity.
Qed.

Lemma respond_with_signature_with_autoapprove (sig : buffer) (info : Z) :
  respond_with_signature (with_autoapprove P auto) sig info
  = respond_with_signature P sig info.
Proof.
  unfold respond_with_signature.
  cbn [with_autoapprove adjusted CX_ECCINFO_PARITY_ODD].
  reflexivity.
Qed.

End BuildFlag.

(** X18.  For a request that the user confirms, an autoapprove build and a
    build with the confirmation screens send the same statuses and ask the
    signer for the same digest: the build flag only removes the screens. *)
Theorem autoapprove_only_skips_the_screens (P : platform) (rb : list byte)
    (len : Z) (path : list Z) (n : Z) (root : list byte) :
  read_request P rb = Some (len, path, n, root) ->
  address_accepted P root (to_size_t P n) path len = true ->
  ui_validate_withdraw_data_and_confirm P
    (amount_text P root (to_size_t P n))
    (snd (script_address_of P root (to_size_t P n))) = true ->
  replies (events (handler_withdraw (with_autoapprove P true) rb))
  = replies (events (handler_withdraw (with_autoapprove P false) rb)).
Proof.
  intros Hread Hacc Hui.
  rewrite !handler_withdraw_log, !read_request_with_autoapprove, Hread.
  cbn [with_autoapprove adjusted MAX_BIP32_PATH_STEPS].
  destruct (len >? MAX_BIP32_PATH_STEPS P); [reflexivity|].
  cbv zeta.
  fold (with_autoapprove P true). fold (with_autoapprove P false).
  assert (Hsize : forall auto, to_size_t (with_autoapprove P auto) n = to_size_t P n)
    by reflexivity.
  assert (Hdisplay :
    events (confirmation (with_autoapprove P false) root n path len)
    = [UiResetStreamingIndex;
       GetScriptType (script_len_of (with_autoapprove P false) root (to_size_t P n));
       GetScriptAddress (script_len_of (with_autoapprove P false) root (to_size_t P n));
       UiValidate (amount_text P root (to_size_t P n))
         (snd (script_address_of (with_autoapprove P false) root (to_size_t P n)))]
    /\ returned (confirmation (with_autoapprove P false) root n path len) = true).
  { unfold confirmation. cbn [with_autoapprove adjusted autoapprove].
    fold (with_autoapprove P false). rewrite Hsize.
    destruct (display_data_content_and_confirm_run (with_autoapprove P false)
                root (to_size_t P n) path len) as [-> ->].
    rewrite address_accepted_with_autoapprove, amount_text_with_autoapprove, Hacc.
    split; [reflexivity|]. cbn [andb].
    cbn [with_autoapprove adjusted ui_validate_withdraw_data_and_confirm
         script_address_of get_script_address].
    exact Hui. }
  destruct Hdisplay as [Edisplay Rdisplay]. rewrite Edisplay, Rdisplay.
  assert (Hon : confirmation (with_autoapprove P true) root n path len = ret true)
    by reflexivity.
  rewrite Hon, events_ret, returned_ret.
  rewrite !Hsize.
  cbn [with_autoapprove adjusted stack_tx_hash format_hex].
  fold (with_autoapprove P true). fold (with_autoapprove P false).
  rewrite !compute_tx_hash_with_autoapprove.
  unfold replies. rewrite !filter_app. cbn [filter is_reply app]. f_equal.
  destruct (fst (format_hex P _) =? 0); [reflexivity|].
  set (text := snd (format_hex P _)).
  rewrite !respond_with_signature_with_autoapprove.
  destruct (sign_tx_hash_run (with_autoapprove P true) path len text) as [-> ->].
  destruct (sign_tx_hash_run (with_autoapprove P false) path len text) as [-> ->].
  cbn [with_autoapprove adjusted autoapprove crypto_ecdsa_sign_sha256_hash_with_key].
  assert (Hdigest : forall auto, bsm_digest_of (with_autoapprove P auto) text
                                 = bsm_digest_of P text) by reflexivity.
  fold (with_autoapprove P true). fold (with_autoapprove P false).
  rewrite !Hdigest.
  rewrite !filter_app. cbn [filter is_reply app]. reflexivity.
Qed.

Lemma autoapprove_only_skips_the_screens_witness :
  read_request demo_platform Demo.request = Some (0, [], 12, demo_root)
  /\ address_accepted demo_platform demo_root (to_size_t demo_platform 12) [] 0
     = true
  /\ ui_validate_withdraw_data_and_confirm demo_platform
       (amount_text demo_platform demo_root (to_size_t demo_platform 12))
       (snd (script_address_of demo_platform demo_root
               (to_size_t demo_platform 12))) = true
  /\ replies (events (handler_withdraw (with_autoapprove demo_platform true)
                        Demo.request))
     = replies (events (handler_withdraw (with_autoapprove demo_platform false)
                          Demo.request)).
Proof.
  assert (H1 : read_request demo_platform Demo.request
               = Some (0, [], 12, demo_root)) by reflexivity.
  assert (H2 : address_accepted demo_platform demo_root
                 (to_size_t demo_platform 12) [] 0 = true)
    by (vm_compute; reflexivity).
  assert (H3 : ui_validate_withdraw_data_and_confirm demo_platform
                 (amount_text demo_platform demo_root (to_size_t demo_platform 12))
                 (snd (script_address_of demo_platform demo_root
                         (to_size_t demo_platform 12))) = true)
    by reflexivity.
  repeat (split; [assumption|]).
  exact (autoapprove_only_skips_the_screens demo_platform Demo.request 0 [] 12
           demo_root H1 H2 H3).
Defined.

(** X19.  The 65 bytes of the answer for any two lengths of at most 33,
    an empty [r] included: byte 0 is the recovery byte, the last
    [r_length] bytes before byte 33 are [r], and of the last [s_length]
    bytes those that [r] does not cover are [s]; every other byte is zero.
    With a 33-byte [s], byte 32 is the first byte of [s] unless [r] is
    written over it, so an empty [r] leaves it there. *)
Theorem answer_bytes_in_general (P : platform) (sig : buffer) (info : Z) :
  let r_length := b2z (sig 3) in
  let s_length := b2z (sig (4 + r_length + 1)) in
  r_length <= 33 ->
  s_length <= 33 ->
  exists data,
    events (respond_with_signature P sig info)
    = [SendResponse data SW_OK; UiPostProcessing true]
    /\ length data = 65%nat
    /\ forall k, 0 <= k < 65 ->
         nth (Z.to_nat k) data x00
         = if k =? 0 then recovery_byte P info
           else if (33 - r_length <=? k) && (k <? 33)
                then sig (4 + (k - (33 - r_length)))
                else if 65 - s_length <=? k
                     then sig (4 + r_length + 2 + (k - (65 - s_length)))
                     else x00.
Proof.
  intros r_length s_length Hr Hs.
  pose proof (b2z_range (sig 3)) as Hr0. fold r_length in Hr0.
  pose proof (b2z_range (sig (4 + r_length + 1))) as Hs0. fold s_length in Hs0.
  unfold respond_with_signature. fold r_length. fold s_length.
  replace ((r_length >? 33) || (s_length >? 33)) with false
    by (symmetry; apply orb_false_iff; rewrite !Z.gtb_ltb, !Z.ltb_ge; lia).
  eexists. split; [reflexivity|]. split; [apply read_length|].
  intros k Hk. rewrite read_nth by lia. rewrite Z2Nat.id, Z.add_0_l by lia.
  fold (recovery_byte P info).
  destruct (Z.eqb_spec k 0) as [->|Hk0].
  - now rewrite write_inside by (cbn [length]; lia).
  - rewrite write_outside by (cbn [length]; lia).
    rewrite !copy_down_at, !Z2Nat.id by lia.
    replace (1 + 32 - r_length) with (33 - r_length) by lia.
    replace (33 - r_length + r_length) with 33 by lia.
    destruct ((33 - r_length <=? k) && (k <? 33)); [reflexivity|].
    replace (1 + 32 + 32 - s_length) with (65 - s_length) by lia.
    replace (65 - s_length + s_length) with 65 by lia.
    replace (k <? 65) with true by (symmetry; apply Z.ltb_lt; lia).
    now rewrite andb_true_r.
Qed.

Lemma answer_bytes_in_general_witness :
  let sig := of_list ([x30; x25; x02; x00; x02; x21; xaa] ++ repeat x22 32) in
  let r_length := b2z (sig 3) in
  let s_length := b2z (sig (4 + r_length + 1)) in
  r_length <= 33
  /\ s_length <= 33
  /\ exists data,
       events (respond_with_signature demo_platform sig 0)
       = [SendResponse data SW_OK; UiPostProcessing true]
       /\ length data = 65%nat
       /\ forall k, 0 <= k < 65 ->
            nth (Z.to_nat k) data x00
            = if k =? 0 then recovery_byte demo_platform 0
              else if (33 - r_length <=? k) && (k <? 33)
                   then sig (4 + (k - (33 - r_length)))
                   else if 65 - s_length <=? k
                        then sig (4 + r_length + 2 + (k - (65 - s_length)))
                        else x00.
Proof.
  intros sig r_length s_length.
  assert (H1 : r_length <= 33) by (vm_compute; discriminate).
  assert (H2 : s_length <= 33) by (vm_compute; discriminate).
  split; [exact H1|]. split; [exact H2|].
  exact (answer_bytes_in_general demo_platform sig 0 H1 H2).
Defined.

(** X20.  A refusal of the user ends the request with the single status
    [Deny]: no chunk is fetched for hashing and the signer is not asked. *)
Theorem refusal_is_answered_with_deny (P : platform) (rb : list byte)
    (len : Z) (path : list Z) (n : Z) (root : list byte) :
  read_request P rb = Some (len, path, n, root) ->
  len <= MAX_BIP32_PATH_STEPS P ->
  autoapprove P = false ->
  address_accepted P root (to_size_t P n) path len = true ->
  ui_validate_withdraw_data_and_confirm P
    (amount_text P root (to_size_t P n))
    (snd (script_address_of P root (to_size_t P n))) = false ->
  events (handler_withdraw P rb)
  = [UiResetStreamingIndex;
     GetScriptType (script_len_of P root (to_size_t P n));
     GetScriptAddress (script_len_of P root (to_size_t P n));
     UiValidate (amount_text P root (to_size_t P n))
       (snd (script_address_of P root (to_size_t P n)));
     SendSW SW_DENY; UiPostProcessing false].
Proof.
  intros Hread Hlen Hauto Hacc Hui.
  rewrite handler_withdraw_log, Hread.
  replace (len >? MAX_BIP32_PATH_STEPS P) with false
    by (symmetry; rewrite Z.gtb_ltb; apply Z.ltb_ge; lia).
  cbv zeta. unfold confirmation. rewrite Hauto.
  destruct (display_data_content_and_confirm_run P root (to_size_t P n) path len)
    as [-> ->].
  rewrite Hacc, Hui. reflexivity.
Qed.

Lemma refusal_is_answered_with_deny_witness :
  let P := Demo.platform_with Demo.none_missing false false in
  read_request P Demo.request = Some (0, [], 12, demo_root)
  /\ 0 <= MAX_BIP32_PATH_STEPS P
  /\ autoapprove P = false
  /\ address_accepted P demo_root (to_size_t P 12) [] 0 = true
  /\ ui_validate_withdraw_data_and_confirm P
       (amount_text P demo_root (to_size_t P 12))
       (snd (script_address_of P demo_root (to_size_t P 12))) = false
  /\ events (handler_withdraw P Demo.request)
     = [UiResetStreamingIndex;
        GetScriptType (script_len_of P demo_root (to_size_t P 12));
        GetScriptAddress (script_len_of P demo_root (to_size_t P 12));
        UiValidate (amount_text P demo_root (to_size_t P 12))
          (snd (script_address_of P demo_root (to_size_t P 12)));
        SendSW SW_DENY; UiPostProcessing false].
Proof.
  intros P.
  assert (H1 : read_request P Demo.request = Some (0, [], 12, demo_root))
    by reflexivity.
  assert (H2 : 0 <= MAX_BIP32_PATH_STEPS P) by (vm_compute; discriminate).
  assert (H3 : autoapprove P = false) by reflexivity.
  assert (H4 : address_accepted P demo_root (to_size_t P 12) [] 0 = true)
    by (vm_compute; reflexivity).
  assert (H5 : ui_validate_withdraw_data_and_confirm P
                 (amount_text P demo_root (to_size_t P 12))
                 (snd (script_address_of P demo_root (to_size_t P 12))) = false)
    by reflexivity.
  repeat (split; [assumption|]).
  exact (refusal_is_answered_with_deny P Demo.request 0 [] 12 demo_root
           H1 H2 H3 H4 H5).
Defined.

(** X21.  One call of [fetch_and_add_chunk_to_buffer] for a field of at
    most 32 bytes: when the chunk is retrieved, the 32 bytes at the output
    offset become the field, zero bytes on the left, and no other byte of
    the output changes; when it is not, the output stays as it was and the
    failure is reported. *)
Theorem fetch_and_add_chunk_to_buffer_contract (P : platform)
    (root : list byte) (n_chunks index off size : Z) (out : buffer)
    (out_off : Z) :
  0 <= size <= 32 ->
  returned (fetch_and_add_chunk_to_buffer P root n_chunks index off size
              out out_off)
  = (if retrieved_b P root n_chunks index
     then write out out_off
            (left_pad32 (read (chunk_of P root n_chunks index) off
                           (Z.to_nat size)))
     else out)
  /\ events (fetch_and_add_chunk_to_buffer P root n_chunks index off size
               out out_off)
     = (if retrieved_b P root n_chunks index then []
        else [SendSW SW_WRONG_DATA_LENGTH; UiPostProcessing false]).
Proof.
  intros Hsize.
  destruct (fetch_and_add_chunk_to_buffer_run P root n_chunks index off size
              out out_off) as [-> ->].
  split; [|reflexivity].
  destruct (retrieved_b P root n_chunks index); [|reflexivity]. f_equal.
  destruct (Z.ltb_spec size 32) as [Hlt|Hge].
  - apply left_pad32_read. lia.
  - assert (size = 32) as -> by lia. change (Z.to_nat 32) with 32%nat.
    rewrite read_write_exact by apply read_length.
    unfold left_pad32. now rewrite read_length.
Qed.

Lemma fetch_and_add_chunk_to_buffer_contract_witness :
  0 <= 20 <= 32
  /\ returned (fetch_and_add_chunk_to_buffer demo_platform demo_root 12 0 0 20
                 zeroed 32)
     = write zeroed 32 (left_pad32 (read (Demo.chunk 0) 0 20)).
Proof.
  assert (H : 0 <= 20 <= 32) by lia.
  split; [exact H|].
  destruct (fetch_and_add_chunk_to_buffer_contract demo_platform demo_root 12
              0 0 20 zeroed 32 H) as [E _].
  rewrite E. reflexivity.
Defined.
